(** * pypsa.linopt: LP file writing and solver result reading

    A shallow embedding of [pypsa/linopt.py].  Python values that the module
    handles dynamically (numbers, strings, numpy arrays, pandas series and
    frames, tuples) are a tagged union; the module globals, the attributes of
    the network object [n] and the effects on the outside world are fields of
    one state record that a state-and-exception monad threads through the
    functions, so that what a raising call leaves behind is visible. *)

From Stdlib Require Import ZArith Ascii String List Lia.
From stdpp Require Import base option list strings pretty gmap.

Set Warnings "-register-all".
Local Open Scope string_scope.
Local Open Scope list_scope.

(** ** Strings *)

Module Str.

Definition nl : string := String "010"%char "".

Definition is_digit (c : ascii) : bool :=
  let k := nat_of_ascii c in (48 <=? k)%nat && (k <=? 57)%nat.

(** [str.isspace] on the ASCII range. *)
Definition is_space (c : ascii) : bool :=
  let k := nat_of_ascii c in
  ((9 <=? k)%nat && (k <=? 13)%nat) || ((28 <=? k)%nat && (k <=? 32)%nat).

Definition lower_char (c : ascii) : ascii :=
  let k := nat_of_ascii c in
  if (65 <=? k)%nat && (k <=? 90)%nat then ascii_of_nat (k + 32) else c.

Fixpoint map_chars (f : ascii → ascii) (s : string) : string :=
  match s with
  | "" => ""
  | String c s' => String (f c) (map_chars f s')
  end.

Fixpoint filter_chars (p : ascii → bool) (s : string) : string :=
  match s with
  | "" => ""
  | String c s' => if p c then String c (filter_chars p s') else filter_chars p s'
  end.

(** [s.lower()] *)
Definition lower : string → string := map_chars lower_char.

Fixpoint lstrip (s : string) : string :=
  match s with
  | String c s' => if is_space c then lstrip s' else s
  | "" => ""
  end.

Fixpoint rstrip (s : string) : string :=
  match s with
  | "" => ""
  | String c s' =>
      match rstrip s' with
      | "" => if is_space c then "" else String c ""
      | r => String c r
      end
  end.

(** [s.strip()] *)
Definition strip (s : string) : string := rstrip (lstrip s).

(** [s.startswith(p)] *)
Definition startswith (p s : string) : bool := String.prefix p s.

(** [p in s] *)
Fixpoint contains (p s : string) : bool :=
  String.prefix p s ||
  match s with
  | "" => false
  | String _ s' => contains p s'
  end.

(** [s[k:]] *)
Fixpoint drop (k : nat) (s : string) : string :=
  match k, s with
  | S k', String _ s' => drop k' s'
  | _, _ => s
  end.

Fixpoint take (k : nat) (s : string) : string :=
  match k, s with
  | S k', String c s' => String c (take k' s')
  | _, _ => ""
  end.

Fixpoint repeat (c : ascii) (k : nat) : string :=
  match k with
  | O => ""
  | S k' => String c (repeat c k')
  end.

(** [s.replace(old, new)] for a non-empty [old]: the occurrences are
    replaced from the left and do not overlap.  [skip] counts the characters
    of an occurrence that are still to be passed over. *)
Fixpoint replace_go (old new : string) (skip : nat) (s : string) : string :=
  match s with
  | "" => ""
  | String c s' =>
      match skip with
      | S k => replace_go old new k s'
      | O =>
          if String.prefix old s
          then new +:+ replace_go old new (String.length old - 1) s'
          else String c (replace_go old new 0 s')
      end
  end.

(** With an empty [old] Python puts [new] before every character and at the
    end. *)
Fixpoint intersperse (new s : string) : string :=
  match s with
  | "" => new
  | String c s' => new +:+ String c (intersperse new s')
  end.

Definition replace (old new s : string) : string :=
  match old with
  | "" => intersperse new s
  | _ => replace_go old new 0 s
  end.

(** [s.split(sep)] for a one-character separator: empty pieces are kept. *)
Fixpoint split (sep : ascii) (s : string) : list string :=
  match s with
  | "" => [""]
  | String c s' =>
      if Ascii.eqb c sep then "" :: split sep s'
      else match split sep s' with
           | p :: ps => String c p :: ps
           | [] => [String c ""]
           end
  end.

(** [''.join(l)] *)
Definition join (l : list string) : string := fold_right String.append "" l.

End Str.

(** ** Numbers

    A Python [float] (and a [float64] cell) is a finite number, the negative
    zero, an infinity or NaN.  A finite number other than the negative zero
    is represented by the decimal number [mant * 10 ^ expo] that its shortest
    representation denotes; the model covers the finite values whose decimal
    has at most fifteen significant digits (those are printed back digit for
    digit). *)

Inductive pyfloat :=
| mkfloat (mant expo : Z)
| NegZero
| NaN
| Infinity (negative : bool).

Module Float.

(** [float(z)] for a Python int. *)
Definition of_int (z : Z) : pyfloat := mkfloat z 0.

(** [f >= 0]: true of both zeros, false of NaN. *)
Definition nonneg (f : pyfloat) : bool :=
  match f with
  | mkfloat m _ => (0 <=? m)%Z
  | NegZero => true
  | NaN => false
  | Infinity negative => negb negative
  end.

(** [abs(f)] *)
Definition abs (f : pyfloat) : pyfloat :=
  match f with
  | mkfloat m e => mkfloat (Z.abs m) e
  | NegZero => mkfloat 0 0
  | NaN => NaN
  | Infinity _ => Infinity false
  end.

Fixpoint strip_zeros (fuel : nat) (m : N) (e : Z) : N * Z :=
  match fuel with
  | O => (m, e)
  | S k =>
      if (m =? 0)%N then (m, e)
      else if (m mod 10 =? 0)%N then strip_zeros k (m / 10)%N (e + 1)%Z
      else (m, e)
  end.

Definition pad2 (s : string) : string :=
  if (String.length s <? 2)%nat then "0" +:+ s else s.

(** [repr(f)], which is also [str(f)], the formatting of an f-string field
    and numpy's [astype(str)] on a float64 cell: positional notation when
    the decimal point falls within [(-4, 16]], exponent notation
    otherwise. *)
Definition repr_finite (mant expo : Z) : string :=
  let sgn := if (mant <? 0)%Z then "-" else "" in
  let a := Z.to_N (Z.abs mant) in
  let '(m, e) := strip_zeros (N.size_nat a) a expo in
  if (m =? 0)%N then sgn +:+ "0.0"
  else
    let ds := pretty m in
    let n := Z.of_nat (String.length ds) in
    let decpt := (n + e)%Z in
    sgn +:+
    (if ((-4 <? decpt) && (decpt <=? 16))%Z then
       if (decpt <=? 0)%Z then "0." +:+ Str.repeat "0" (Z.to_nat (- decpt)) +:+ ds
       else if (n <=? decpt)%Z then ds +:+ Str.repeat "0" (Z.to_nat (decpt - n)) +:+ ".0"
       else Str.take (Z.to_nat decpt) ds +:+ "." +:+ Str.drop (Z.to_nat decpt) ds
     else
       let ex := (decpt - 1)%Z in
       Str.take 1 ds +:+
       (if (1 <? n)%Z then "." +:+ Str.drop 1 ds else "") +:+
       "e" +:+ (if (ex <? 0)%Z then "-" else "+") +:+
       pad2 (pretty (Z.to_N (Z.abs ex)))).

Definition repr (f : pyfloat) : string :=
  match f with
  | mkfloat m e => repr_finite m e
  | NegZero => "-0.0"
  | NaN => "nan"
  | Infinity negative => if negative then "-inf" else "inf"
  end.

(** Reading of an unsigned digit string, most significant digit first. *)
Fixpoint digits_value (acc : N) (s : string) : N :=
  match s with
  | "" => acc
  | String c s' => digits_value (acc * 10 + N.of_nat (nat_of_ascii c - 48)) s'
  end.

Fixpoint span_digits (s : string) : string * string :=
  match s with
  | String c s' =>
      if Str.is_digit c
      then let '(d, r) := span_digits s' in (String c d, r)
      else ("", s)
  | "" => ("", "")
  end.

Definition read_sign (s : string) : bool * string :=
  match s with
  | String "-" s' => (true, s')
  | String "+" s' => (false, s')
  | _ => (false, s)
  end.

(** The words that [float] reads besides numbers, in any case of the
    letters. *)
Definition special (t : string) : option pyfloat :=
  if String.eqb t "nan" then Some NaN
  else if String.eqb t "inf" || String.eqb t "infinity" then Some (Infinity false)
  else None.

(** [- f] *)
Definition neg (f : pyfloat) : pyfloat :=
  match f with
  | mkfloat m e => if (m =? 0)%Z then NegZero else mkfloat (- m) e
  | NegZero => mkfloat 0 0
  | NaN => NaN
  | Infinity negative => Infinity (negb negative)
  end.

(** [float(s)] on the decimal literals and the special words: surrounding
    white space, an optional sign, then [nan], [inf] or [infinity], or digits
    with an optional point and an optional exponent.  [None] stands for
    [ValueError]. *)
Definition parse (s : string) : option pyfloat :=
  let '(negative, s1) := read_sign (Str.strip s) in
  let signed := λ f, if negative then neg f else f in
  match special (Str.lower s1) with
  | Some f => Some (signed f)
  | None =>
      let '(ip, s2) := span_digits s1 in
      let '(fp, s3) := match s2 with
                       | String "." r => span_digits r
                       | _ => ("", s2)
                       end in
      if ((String.length ip + String.length fp) =? 0)%nat then None
      else
        let m := Z.of_N (digits_value 0 (ip +:+ fp)) in
        let e := (- Z.of_nat (String.length fp))%Z in
        match s3 with
        | "" => Some (signed (mkfloat m e))
        | String c r =>
            if Ascii.eqb c "e" || Ascii.eqb c "E" then
              let '(eneg, r1) := read_sign r in
              let '(ed, r2) := span_digits r1 in
              match ed, r2 with
              | String _ _, "" =>
                  let x := Z.of_N (digits_value 0 ed) in
                  Some (signed (mkfloat m (e + (if eneg then - x else x))%Z))
              | _, _ => None
              end
            else None
        end
  end.

End Float.

(** ** Outcomes and the monad of the module's effects *)

Inductive exn :=
| TypeError (what : string)
| ValueError (what : string)
| AssertionError (what : string)
| UnboundLocalError (name : string)
| AttributeError (name : string)
| KeyError (key : string)
| IndexError (what : string)
| FileNotFoundError (path : string)
| LibraryError (what : string).

(** A call returns, raises, or (one loop of the glpk reader) never ends. *)
Inductive outcome (A : Type) :=
| Return (a : A)
| Raise (e : exn)
| Loops.
Arguments Return {A} a.
Arguments Raise {A} e.
Arguments Loops {A}.

Definition obind {A B} (m : outcome A) (k : A → outcome B) : outcome B :=
  match m with
  | Return a => k a
  | Raise e => Raise e
  | Loops => Loops
  end.


(** ** numpy arrays

    An array is its shape and its cells in row-major order.  An [object] array
    holds Python strings here: the module only builds such arrays from tokens
    and rendered text. *)

Inductive ndarray :=
| ObjArr (shape : list nat) (data : list string)
| FloatArr (shape : list nat) (data : list pyfloat)
| IntArr (shape : list nat) (data : list Z).       (* int64 cells *)

(** The result of [np.prod(shape)]: an integer, except that the product of the
    empty shape [()] is the float [1.0]. *)
Inductive pynum :=
| NInt (k : nat)
| NFloat (k : nat).

Module Np.

Definition shape (a : ndarray) : list nat :=
  match a with
  | ObjArr s _ | FloatArr s _ | IntArr s _ => s
  end.

Definition ndim (a : ndarray) : nat := length (shape a).

Definition count (s : list nat) : nat := fold_right Nat.mul 1 s.

(** [a.size] *)
Definition size (a : ndarray) : nat := count (shape a).

(** [np.prod(shape)] *)
Definition prod (s : list nat) : pynum :=
  match s with
  | [] => NFloat 1
  | _ => NInt (count s)
  end.

Definition num_value (x : pynum) : nat :=
  match x with
  | NInt k | NFloat k => k
  end.

(** [x + y] on these numbers: a float operand makes the sum a float. *)
Definition num_add (x y : pynum) : pynum :=
  match x, y with
  | NInt a, NInt b => NInt (a + b)
  | _, _ => NFloat (num_value x + num_value y)
  end.

Definition num_sub (x y : pynum) : pynum :=
  match x, y with
  | NInt a, NInt b => NInt (a - b)
  | _, _ => NFloat (num_value x - num_value y)
  end.

(** The array is well formed when it has as many cells as its shape says. *)
Definition wf (a : ndarray) : Prop :=
  match a with
  | ObjArr s d => length d = count s
  | FloatArr s d => length d = count s
  | IntArr s d => length d = count s
  end.

Fixpoint chunks {A} (width n : nat) (l : list A) : list (list A) :=
  match n with
  | O => []
  | S n' => take width l :: chunks width n' (drop width l)
  end.

(** Broadcasting of the cells from shape [src] to shape [tgt] of the same
    rank: along each axis the source either has the target's length or has
    length one and is repeated. *)
Fixpoint bcast {A} (src tgt : list nat) (data : list A) : list A :=
  match src, tgt with
  | s :: src', t :: tgt' =>
      if (s =? t)%nat
      then concat (map (bcast src' tgt') (chunks (count src') s data))
      else concat (replicate t (bcast src' tgt' data))
  | _, _ => data
  end.

Fixpoint broadcast_rev (a b : list nat) : option (list nat) :=
  match a, b with
  | [], _ => Some b
  | _, [] => Some a
  | x :: a', y :: b' =>
      r ← broadcast_rev a' b';
      if (x =? y)%nat then Some (x :: r)
      else if (x =? 1)%nat then Some (y :: r)
      else if (y =? 1)%nat then Some (x :: r)
      else None
  end.

(** The common shape of two operands: the shapes are aligned on their last
    axis. *)
Definition broadcast_shapes (a b : list nat) : option (list nat) :=
  reverse <$> broadcast_rev (reverse a) (reverse b).

(** A shape of lower rank counts as having leading axes of length one. *)
Definition pad (rank : nat) (s : list nat) : list nat :=
  replicate (rank - length s) 1 ++ s.

Definition broadcast_to {A} (src tgt : list nat) (data : list A) : list A :=
  bcast (pad (length tgt) src) tgt data.

(** [abs] on a cell of an [int64] array: the smallest value has no positive
    counterpart and comes back as it is. *)
Definition abs64 (z : Z) : Z :=
  if (z =? - 2 ^ 63)%Z then z else Z.abs z.

End Np.

(** ** Python values *)

(** The labels of one axis (a [pd.Index]). *)
Abbreviation axis := (list string).

Inductive value :=
| VInt (z : Z)
| VFloat (f : pyfloat)
| VStr (s : string)
| VArray (a : ndarray)
| VSeries (index : axis) (values : ndarray)
| VFrame (index columns : axis) (values : ndarray)
| VTuple (items : list value).

(** [df.axes] of a series or frame. *)
Definition value_axes (v : value) : option (list axis) :=
  match v with
  | VSeries i _ => Some [i]
  | VFrame i c _ => Some [i; c]
  | _ => None
  end.

Definition wf_value (v : value) : Prop :=
  match v with
  | VArray a => Np.wf a
  | VSeries i a => Np.wf a ∧ Np.shape a = [length i]
  | VFrame i c a => Np.wf a ∧ Np.shape a = [length i; length c]
  | _ => True
  end.

(** An object array and a numeric array: the cells are added one by one, a
    string and a number do not add, and without cells nothing is added. *)
Definition add_cellwise (s1 s2 : list nat) : outcome value :=
  match Np.broadcast_shapes s1 s2 with
  | Some s =>
      if (Np.count s =? 0)%nat then Return (VArray (ObjArr s []))
      else Raise (TypeError "unsupported operand type(s) for +")
  | None => Raise (ValueError "operands could not be broadcast together")
  end.

(** [x + y] where the module uses it: concatenation of strings, cell by cell
    when an operand is an object array.  A numeric array does not add to a
    string. *)
Definition py_add (x y : value) : outcome value :=
  match x, y with
  | VStr a, VStr b => Return (VStr (a +:+ b))
  | VStr a, VArray (ObjArr s d) => Return (VArray (ObjArr s (map (λ c, a +:+ c) d)))
  | VArray (ObjArr s d), VStr b => Return (VArray (ObjArr s (map (λ c, c +:+ b) d)))
  | VArray (ObjArr s1 d1), VArray (ObjArr s2 d2) =>
      match Np.broadcast_shapes s1 s2 with
      | Some s =>
          Return (VArray (ObjArr s (zip_with String.append
                                      (Np.broadcast_to s1 s d1)
                                      (Np.broadcast_to s2 s d2))))
      | None => Raise (ValueError "operands could not be broadcast together")
      end
  | VArray (ObjArr s1 _), VArray (FloatArr s2 _)
  | VArray (ObjArr s1 _), VArray (IntArr s2 _)
  | VArray (FloatArr s1 _), VArray (ObjArr s2 _)
  | VArray (IntArr s1 _), VArray (ObjArr s2 _) => add_cellwise s1 s2
  | _, _ => Raise (TypeError "unsupported operand type(s) for +")
  end.

(** [expr += y] on an object array: the result keeps the shape of [expr]. *)
Definition py_iadd (expr : ndarray) (y : value) : outcome ndarray :=
  match expr, y with
  | ObjArr s d, VStr b => Return (ObjArr s (map (λ c, c +:+ b) d))
  | ObjArr s d, VArray (ObjArr s2 d2) =>
      if decide (Np.broadcast_shapes s s2 = Some s)
      then Return (ObjArr s (zip_with String.append d (Np.broadcast_to s2 s d2)))
      else Raise (ValueError "non-broadcastable output operand")
  | _, _ => Raise (TypeError "unsupported operand type(s) for +=")
  end.

(** * helpers, helper functions *)

Definition var_ref_suffix : string := "_varref".
Definition con_ref_suffix : string := "_conref".

(** [(a == b).all()] on two indexes: pandas refuses to compare indexes of
    different lengths. *)
Definition index_eq_all (a b : axis) : outcome bool :=
  if (length a =? length b)%nat
  then Return (forallb (λ p, String.eqb p.1 p.2) (zip a b))
  else Raise (ValueError "Lengths must match to compare").

Definition is_tuple (v : value) : bool :=
  match v with
  | VTuple _ => true
  | _ => false
  end.

Definition tuple_items (v : value) : list value :=
  match v with
  | VTuple l => l
  | _ => []
  end.

(** [if set(map(type, dfs)) == {tuple}: dfs = sum(dfs, ())] *)
Definition flatten_tuples (dfs : list value) : list value :=
  match dfs with
  | [] => dfs
  | _ => if forallb is_tuple dfs then concat (map tuple_items dfs) else dfs
  end.

(** One turn of the loop of [broadcasted_axes]. *)
Definition broadcast_step (acc : list axis * list nat) (df : value)
  : outcome (list axis * list nat) :=
  match value_axes df with
  | Some dax =>
      let axes := acc.1 in
      obind (match last axes, last dax with
             | Some a, Some b =>
                 obind (index_eq_all a b) (λ ok,
                   if ok then Return ()
                   else Raise (AssertionError "Series or DataFrames are not aligned"))
             | _, _ => Return ()
             end) (λ _,
        let axes := if (length axes <? length dax)%nat then dax else axes in
        Return (axes, map length axes))
  | None => Return acc
  end.

Fixpoint broadcast_loop (acc : list axis * list nat) (dfs : list value)
  : outcome (list axis * list nat) :=
  match dfs with
  | [] => Return acc
  | df :: rest => obind (broadcast_step acc df) (λ acc', broadcast_loop acc' rest)
  end.

Definition broadcasted_axes (dfs : list value) : outcome (list axis * list nat) :=
  broadcast_loop ([], []) (flatten_tuples dfs).

(** [np.sign] of a cell followed by the replacement of 0, 1 and -1 by the
    sign characters: the sign of NaN is NaN, which is not replaced. *)
Definition sign_of_float (f : pyfloat) : option string :=
  match f with
  | mkfloat m _ => Some (if (m <? 0)%Z then "-" else "+")
  | NegZero => Some "+"
  | NaN => None
  | Infinity negative => Some (if negative then "-" else "+")
  end.

Definition sign_of_int (z : Z) : string :=
  if (z <? 0)%Z then "-" else "+".

(** The text of one float cell, [None] when its sign is not a string. *)
Definition render_float (f : pyfloat) : option string :=
  sgn ← sign_of_float f; Some (sgn +:+ Float.repr (Float.abs f) +:+ " ").

(** The rendering of a numeric array: [signs + abs(array).astype(str) + ' '].
    [pd.Series] and [pd.DataFrame], which compute the signs, take arrays of
    one and two dimensions.  A sign that is still NaN does not add to a
    string. *)
Definition render_cells (a : ndarray) : outcome value :=
  match a with
  | ObjArr _ _ => Return (VArray a)
  | FloatArr s d =>
      if (Np.count s =? 0)%nat then Return (VArray a)
      else if decide (length s = 1 ∨ length s = 2)
      then match mapM render_float d with
           | Some texts => Return (VArray (ObjArr s texts))
           | None => Raise (TypeError "unsupported operand type(s) for +")
           end
      else Raise (ValueError "Must pass 2-d input")
  | IntArr s d =>
      if (Np.count s =? 0)%nat then Return (VArray a)
      else if decide (length s = 1 ∨ length s = 2)
      then Return (VArray (ObjArr s
             (map (λ z, sign_of_int z +:+ pretty (Np.abs64 z) +:+ " ") d)))
      else Raise (ValueError "Must pass 2-d input")
  end.

Definition _str_array (array : value) : outcome value :=
  match array with
  | VInt z =>
      Return (VStr (if (0 <=? z)%Z then "+" +:+ Float.repr (Float.of_int z) +:+ " "
                    else Float.repr (Float.of_int z) +:+ " "))
  | VFloat f =>
      Return (VStr (if Float.nonneg f then "+" +:+ Float.repr f +:+ " "
                    else Float.repr f +:+ " "))
  | VSeries _ a | VFrame _ _ a | VArray a => render_cells a
  | _ => Return array
  end.

(** [np.repeat('', np.prod(shape)).reshape(shape).astype(object)] *)
Definition empty_expr (shape : list nat) : ndarray :=
  ObjArr shape (replicate (Np.num_value (Np.prod shape)) "").

Fixpoint linexpr_loop (expr : ndarray) (tuples : list (value * value))
  : outcome ndarray :=
  match tuples with
  | [] => Return expr
  | (coeff, var) :: rest =>
      obind (_str_array coeff) (λ c,
      obind (_str_array var) (λ v,
      obind (py_add c v) (λ cv,
      obind (py_add cv (VStr Str.nl)) (λ term,
      obind (py_iadd expr term) (λ expr',
      linexpr_loop expr' rest)))))
  end.

(** [linexpr] called with [return_axes=True]: the array of expressions and
    the axes.  The plain call returns the first component; [as_pandas] wraps
    the same array and is not modelled. *)
Definition linexpr_axes (tuples : list (value * value))
  : outcome (ndarray * list axis) :=
  obind (broadcasted_axes (map (λ p, VTuple [p.1; p.2]) tuples)) (λ r,
    let '(axes, shape) := r in
    let expr := empty_expr shape in
    obind (if (Np.num_value (Np.prod shape) =? 0)%nat then Return expr
           else linexpr_loop expr tuples) (λ expr,
    Return (expr, axes))).

Definition linexpr (tuples : list (value * value)) : outcome ndarray :=
  obind (linexpr_axes tuples) (λ r, Return r.1).

(** [''.join(np.asarray(df).flatten())]: the cells must be strings. *)
Definition join_exprs (df : value) : outcome string :=
  match df with
  | VStr s => Return s
  | VArray a | VSeries _ a | VFrame _ _ a =>
      match a with
      | ObjArr _ d => Return (Str.join d)
      | _ => if (Np.size a =? 0)%nat then Return ""
             else Raise (TypeError "sequence item 0: expected str instance")
      end
  | _ => Raise (TypeError "sequence item 0: expected str instance")
  end.

(** * The network object, the module globals and the outside world *)

(** A cell of a stored table: a token, or NaN. *)
Abbreviation cell := (option string).

(** A [pd.DataFrame] kept by the network: the row labels and the columns in
    order, each column with one cell per row. *)
Record frame := mkframe {
  fr_index : axis;
  fr_columns : list (string * list cell) }.

(** What a dictionary of time-dependent quantities can hold. *)
Inductive pandas :=
| PSeries (index : axis) (cells : list cell)
| PFrame (f : frame).

(** [n.variables] and [n.constraints]: per (component, attribute) the [pnl]
    flag and the specification. *)
Abbreviation reftable := (gmap (string * string) (bool * string)).

Inductive effect :=
| OsSystem (command : string)
| SubprocessRun (argv : list string)
| FileRead (path : string)
| FileWrite (path text : string)
| LoggingDisable (level : Z)
| LoggerInfo (message : string)
| GurobiRead (path : string)
| GurobiSetParam (key value : string)
| GurobiReadStart (path : string)
| GurobiOptimize
| GurobiWrite (path : string).

Record state := mkstate {
  xCounter : pynum;                         (* module global *)
  cCounter : pynum;                         (* module global *)
  bounds_f : list string;                   (* n.bounds_f: the chunks written *)
  constraints_f : list string;              (* n.constraints_f *)
  variables : option reftable;              (* n.variables, when it exists *)
  constraints : option reftable;            (* n.constraints *)
  pnl : gmap string (gmap string pandas);   (* n.pnl(c) *)
  df : gmap string frame;                   (* n.df(c) *)
  basis_fn : option string;                 (* n.basis_fn *)
  effects : list effect }.                  (* what was done to the world *)

Definition set_xCounter (v : pynum) (st : state) : state :=
  mkstate v (cCounter st) (bounds_f st) (constraints_f st) (variables st)
    (constraints st) (pnl st) (df st) (basis_fn st) (effects st).
Definition set_cCounter (v : pynum) (st : state) : state :=
  mkstate (xCounter st) v (bounds_f st) (constraints_f st) (variables st)
    (constraints st) (pnl st) (df st) (basis_fn st) (effects st).
Definition set_bounds_f (v : list string) (st : state) : state :=
  mkstate (xCounter st) (cCounter st) v (constraints_f st) (variables st)
    (constraints st) (pnl st) (df st) (basis_fn st) (effects st).
Definition set_constraints_f (v : list string) (st : state) : state :=
  mkstate (xCounter st) (cCounter st) (bounds_f st) v (variables st)
    (constraints st) (pnl st) (df st) (basis_fn st) (effects st).
Definition set_variables (v : option reftable) (st : state) : state :=
  mkstate (xCounter st) (cCounter st) (bounds_f st) (constraints_f st) v
    (constraints st) (pnl st) (df st) (basis_fn st) (effects st).
Definition set_constraints (v : option reftable) (st : state) : state :=
  mkstate (xCounter st) (cCounter st) (bounds_f st) (constraints_f st) (variables st)
    v (pnl st) (df st) (basis_fn st) (effects st).
Definition set_pnl (v : gmap string (gmap string pandas)) (st : state) : state :=
  mkstate (xCounter st) (cCounter st) (bounds_f st) (constraints_f st) (variables st)
    (constraints st) v (df st) (basis_fn st) (effects st).
Definition set_df (v : gmap string frame) (st : state) : state :=
  mkstate (xCounter st) (cCounter st) (bounds_f st) (constraints_f st) (variables st)
    (constraints st) (pnl st) v (basis_fn st) (effects st).
Definition set_basis_fn (v : option string) (st : state) : state :=
  mkstate (xCounter st) (cCounter st) (bounds_f st) (constraints_f st) (variables st)
    (constraints st) (pnl st) (df st) v (effects st).
Definition emit (e : effect) (st : state) : state :=
  mkstate (xCounter st) (cCounter st) (bounds_f st) (constraints_f st) (variables st)
    (constraints st) (pnl st) (df st) (basis_fn st) (effects st ++ [e]).

(** A computation takes the state and gives an outcome and the state it
    leaves, also when it raises. *)
Definition M (A : Type) : Type := state → outcome A * state.

Definition ret {A} (a : A) : M A := λ st, (Return a, st).

Definition bind {A B} (m : M A) (k : A → M B) : M B := λ st,
  match m st with
  | (Return a, st') => k a st'
  | (Raise e, st') => (Raise e, st')
  | (Loops, st') => (Loops, st')
  end.

Definition raise {A} (e : exn) : M A := λ st, (Raise e, st).
Definition lift {A} (o : outcome A) : M A := λ st, (o, st).
Definition get : M state := λ st, (Return st, st).
Definition modify (f : state → state) : M () := λ st, (Return (), f st).

Declare Scope py_scope.
Delimit Scope py_scope with py.
Notation "'let*' x ':=' m 'in' k" := (bind m (λ x, k))
  (at level 10, x pattern, m at level 100, k at level 200,
   format "'let*'  x  ':='  m  'in' '//' k") : py_scope.
Local Open Scope py_scope.

(** * writing functions *)

Definition reset_counter : M () :=
  modify (λ st, set_cCounter (NInt 0) (set_xCounter (NInt 0) st)).

(** The [axes] argument of the writers: one [pd.Index], or a tuple of them. *)
Inductive axes_arg :=
| AxIndex (i : axis)
| AxTuple (l : list axis).

(** [np.array([f'{p}{x}' for x in range(lo, hi)], dtype=object).reshape(shape)]:
    [range] wants integers. *)
Definition token_array (p : string) (lo hi : pynum) (shape : list nat)
  : outcome ndarray :=
  match lo, hi with
  | NInt a, NInt b =>
      Return (ObjArr shape (map (λ x, p +:+ pretty x) (seq a (b - a))))
  | _, _ => Raise (TypeError "'numpy.float64' object cannot be interpreted as an integer")
  end.

(** [ser_or_frame(cells, *axes)] with [ser_or_frame] chosen from the length of
    the shape. *)
Definition ser_or_frame (shape : list nat) (cells : ndarray) (axes : list axis)
  : outcome value :=
  if (1 <? length shape)%nat then
    match axes with
    | [i; c] => Return (VFrame i c cells)
    | _ => Raise (ValueError "Must pass 2-d input")
    end
  else
    match axes with
    | [i] => Return (VSeries i cells)
    | _ => Raise (ValueError "Length of passed values does not match the index")
    end.

(** [a.flatten()] of the result of the additions. *)
Definition flatten (v : value) : outcome (list string) :=
  match v with
  | VArray (ObjArr _ d) => Return d
  | _ => Raise (AttributeError "flatten")
  end.

Definition resolve_axes (axes : option axes_arg) (a b : value)
  : outcome (list axis * list nat) :=
  match axes with
  | None => broadcasted_axes [a; b]
  | Some (AxIndex i) => Return ([i], [length i])
  | Some (AxTuple l) => Return (l, map length l)
  end.

Definition write_bound (lower upper : value) (axes : option axes_arg) : M value :=
  let* (axes, shape) := lift (resolve_axes axes lower upper) in
  let length := Np.prod shape in
  let* _ := modify (λ st, set_xCounter (Np.num_add (xCounter st) length) st) in
  let* st := get in
  let* variables := lift (token_array "x" (Np.num_sub (xCounter st) length)
                          (xCounter st) shape) in
  let* lower := lift (_str_array lower) in
  let* upper := lift (_str_array upper) in
  let* t := lift (py_add lower (VStr " <= ")) in
  let* t := lift (py_add t (VArray variables)) in
  let* t := lift (py_add t (VStr " <= ")) in
  let* t := lift (py_add t upper) in
  let* t := lift (py_add t (VStr Str.nl)) in
  let* lines := lift (flatten t) in
  let* _ := modify (λ st, set_bounds_f (bounds_f st ++ lines) st) in
  lift (ser_or_frame shape variables axes).

Definition write_constraint (lhs sense rhs : value) (axes : option axes_arg)
  : M value :=
  let* (axes, shape) := lift (resolve_axes axes lhs rhs) in
  let length := Np.prod shape in
  let* _ := modify (λ st, set_cCounter (Np.num_add (cCounter st) length) st) in
  let* st := get in
  let* cons' := lift (token_array "c" (Np.num_sub (cCounter st) length)
                     (cCounter st) shape) in
  let sense := match sense with
               | VStr s => VStr (if String.eqb s "==" then "=" else s)
               | _ => sense
               end in
  let* lhs := lift (_str_array lhs) in
  let* sense := lift (_str_array sense) in
  let* rhs := lift (_str_array rhs) in
  let* t := lift (py_add (VArray cons') (VStr (":" +:+ Str.nl))) in
  let* t := lift (py_add t lhs) in
  let* t := lift (py_add t sense) in
  let* t := lift (py_add t (VStr Str.nl)) in
  let* t := lift (py_add t rhs) in
  let* t := lift (py_add t (VStr (Str.nl +:+ Str.nl))) in
  let* blocks := lift (flatten t) in
  let* _ := modify (λ st, set_constraints_f (constraints_f st ++ blocks) st) in
  lift (ser_or_frame shape cons' axes).

(** * references to vars and cons *)

(** ** The pandas operations of this part

    The stored tables hold tokens, so a token container (a series or frame
    over an object array, as the writers return them) is what converts to a
    stored table. *)
Module Pd.

(** The columns of a frame given by its cells in row-major order. *)
Definition frame_of (i c : axis) (d : list string) : frame :=
  let rows := Np.chunks (length c) (length i) d in
  mkframe i (imap (λ j name, (name, map (λ row : list string, row !! j) rows)) c).

Definition of_value (v : value) : outcome pandas :=
  match v with
  | VSeries i (ObjArr _ d) => Return (PSeries i (map Some d))
  | VFrame i c (ObjArr _ d) => Return (PFrame (frame_of i c d))
  | VSeries _ _ | VFrame _ _ _ => Raise (LibraryError "not a token container")
  | _ => Raise (AttributeError "index")
  end.

(** [df.empty]: some axis has length zero. *)
Definition empty (v : value) : outcome bool :=
  match v with
  | VSeries i _ => Return (length i =? 0)%nat
  | VFrame i c _ => Return ((length i =? 0)%nat || (length c =? 0)%nat)
  | _ => Raise (AttributeError "empty")
  end.

Definition position (r : string) (l : axis) : option nat :=
  fst <$> list_find (λ x, x = r) l.

(** The cells of a column labelled by [src_index], put on the rows [rows]:
    a row that the source does not have gets NaN. *)
Definition align (rows src_index : axis) (cells : list cell) : list cell :=
  map (λ r, p ← position r src_index; mjoin (cells !! p)) rows.

Fixpoint set_assoc {V} (name : string) (v : V) (l : list (string * V))
  : list (string * V) :=
  match l with
  | [] => [(name, v)]
  | (k, w) :: l' =>
      if String.eqb k name then (k, v) :: l' else (k, w) :: set_assoc name v l'
  end.

Fixpoint assoc {V} (name : string) (l : list (string * V)) : option V :=
  match l with
  | [] => None
  | (k, w) :: l' => if String.eqb k name then Some w else assoc name l'
  end.

(** [f[name] = column]: an existing column is replaced in place, a new one
    is added at the end; the values are aligned on the rows of [f]. *)
Definition set_column (f : frame) (name : string) (src_index : axis)
    (cells : list cell) : frame :=
  mkframe (fr_index f)
    (set_assoc name (align (fr_index f) src_index cells) (fr_columns f)).

(** [f[src.columns] = src]: column by column. *)
Definition set_columns (f src : frame) : frame :=
  fold_left (λ f col, set_column f col.1 (fr_index src) col.2)
    (fr_columns src) f.

(** [f.reindex(columns=labels)]: the columns in the order of [labels], a
    column of NaN for a label that [f] does not have. *)
Definition reindex_columns (f : frame) (labels : axis) : frame :=
  mkframe (fr_index f)
    (map (λ l, (l, default (replicate (length (fr_index f)) None)
                     (assoc l (fr_columns f)))) labels).

(** [f.loc[rows, name] = series]: the rows must exist; the other cells of
    the column keep their value, or are NaN when the column is new. *)
Definition loc_set (f : frame) (rows : axis) (name : string)
    (cells : list cell) : outcome frame :=
  match list_find (λ r, position r (fr_index f) = None) rows with
  | Some (_, r) => Raise (KeyError r)
  | None =>
      let old := default (replicate (length (fr_index f)) None)
                   (assoc name (fr_columns f)) in
      let new := imap (λ k r,
                   match position r rows with
                   | Some p => mjoin (cells !! p)
                   | None => mjoin (old !! k)
                   end) (fr_index f) in
      Return (mkframe (fr_index f) (set_assoc name new (fr_columns f)))
  end.

(** [f.pop(name)] on the columns. *)
Definition drop_column (f : frame) (name : string) : frame :=
  mkframe (fr_index f)
    (filter (λ col, col.1 ≠ name) (fr_columns f)).

End Pd.

(** Modelled from the spec: [n.pnl(c)] is a method of the network, defined
    outside this module; it gives the dictionary of the time-dependent
    quantities of the entity kind [c], here [KeyError] for a kind that the
    network does not have. *)
Definition n_pnl (c : string) : M (gmap string pandas) :=
  let* st := get in
  match pnl st !! c with
  | Some d => ret d
  | None => raise (KeyError c)
  end.

(** Modelled from the spec: [n.df(c)] is a method of the network, defined
    outside this module; it gives the static table of the entity kind [c]. *)
Definition n_df (c : string) : M frame :=
  let* st := get in
  match df st !! c with
  | Some f => ret f
  | None => raise (KeyError c)
  end.

(** [n.pnl(c)[name] = v] *)
Definition pnl_store (c name : string) (v : pandas) : M () :=
  let* d := n_pnl c in
  modify (λ st, set_pnl (<[c := <[name := v]> d]> (pnl st)) st).

(** With the flag the container goes under its name into the dictionary of
    the time-dependent quantities: into the columns of the frame that is
    there, or as it is.  Without it, [n.df(c).loc[df.index, attr_name] = df]
    looks up the rows of [df] in the static table first ([KeyError] for one
    that is missing) and then sets the column from a series; what pandas
    makes of a frame whose rows are all there depends on the layout of the
    static table and stands as a library error. *)
Definition _add_reference (df_ : value) (c attr suffix : string) (pnl_ : bool)
  : M () :=
  let attr_name := attr +:+ suffix in
  if pnl_ then
    let* d := n_pnl c in
    let* _ :=
      match d !! attr_name with
      | Some target =>
          match df_, target with
          | VFrame _ _ _, PFrame f =>
              let* src := lift (Pd.of_value df_) in
              match src with
              | PFrame g => pnl_store c attr_name (PFrame (Pd.set_columns f g))
              | PSeries _ _ => raise (AttributeError "columns")
              end
          | VFrame _ _ _, PSeries _ _ => raise (LibraryError "setting a series with a frame")
          | _, _ => raise (AttributeError "columns")
          end
      | None =>
          let* src := lift (Pd.of_value df_) in
          pnl_store c attr_name src
      end in
    let* d := n_pnl c in
    match d !! attr_name with
    | Some (PFrame f) =>
        let* s := n_df c in
        if (length (fr_columns f) =? length (fr_index s))%nat
        then pnl_store c attr_name (PFrame (Pd.reindex_columns f (fr_index s)))
        else ret ()
    | Some (PSeries _ _) => raise (IndexError "tuple index out of range")
    | None => raise (KeyError attr_name)
    end
  else
    let* s := n_df c in
    match df_ with
    | VSeries rows _ | VFrame rows _ _ =>
        match list_find (λ r, Pd.position r (fr_index s) = None) rows with
        | Some (_, r) => raise (KeyError r)
        | None =>
            match df_ with
            | VSeries _ _ =>
                let* src := lift (Pd.of_value df_) in
                match src with
                | PSeries rows cells =>
                    let* s' := lift (Pd.loc_set s rows attr_name cells) in
                    modify (λ st, set_df (<[c := s']> (df st)) st)
                | PFrame _ => raise (LibraryError "not a series")
                end
            | _ => raise (LibraryError "Incompatible indexer with DataFrame")
            end
        end
    | _ => raise (AttributeError "index")
    end.

(** [n.variables], an attribute that [clear_references] deletes. *)
Definition n_variables : M reftable :=
  let* st := get in
  match variables st with
  | Some t => ret t
  | None => raise (AttributeError "variables")
  end.

Definition n_constraints : M reftable :=
  let* st := get in
  match constraints st with
  | Some t => ret t
  | None => raise (AttributeError "constraints")
  end.

Definition set_varref (variables_ : value) (c attr : string) (pnl_ : bool)
    (spec : string) : M () :=
  let* e := lift (Pd.empty variables_) in
  if negb e then
    let* t := n_variables in
    let* _ :=
      match t !! (c, attr) with
      | Some (flag, specification) =>
          if negb (String.eqb spec "")
          then modify (set_variables
                 (Some (<[(c, attr) := (flag, specification +:+ ", " +:+ spec)]> t)))
          else modify (set_variables (Some (<[(c, attr) := (pnl_, spec)]> t)))
      | None => modify (set_variables (Some (<[(c, attr) := (pnl_, spec)]> t)))
      end in
    _add_reference variables_ c attr var_ref_suffix pnl_
  else ret ().

Definition set_conref (constraints_ : value) (c attr : string) (pnl_ : bool)
    (spec : string) : M () :=
  let* e := lift (Pd.empty constraints_) in
  if negb e then
    let* t := n_constraints in
    let* _ :=
      match t !! (c, attr) with
      | Some (flag, specification) =>
          if negb (String.eqb spec "")
          then modify (set_constraints
                 (Some (<[(c, attr) := (flag, specification +:+ ", " +:+ spec)]> t)))
          else modify (set_constraints (Some (<[(c, attr) := (pnl_, spec)]> t)))
      | None => modify (set_constraints (Some (<[(c, attr) := (pnl_, spec)]> t)))
      end in
    _add_reference constraints_ c attr con_ref_suffix pnl_
  else ret ().

(** The body shared by [get_var] and [get_con] once the flag is read. *)
Definition fetch (flag : bool) (c name : string) (pop : bool) : M pandas :=
  if flag then
    let* d := n_pnl c in
    match d !! name with
    | Some v =>
        if pop
        then let* _ := modify (λ st, set_pnl (<[c := delete name d]> (pnl st)) st) in
             ret v
        else ret v
    | None => raise (KeyError name)
    end
  else
    let* s := n_df c in
    match Pd.assoc name (fr_columns s) with
    | Some cells =>
        if pop
        then let* _ := modify (λ st, set_df (<[c := Pd.drop_column s name]> (df st)) st) in
             ret (PSeries (fr_index s) cells)
        else ret (PSeries (fr_index s) cells)
    | None => raise (KeyError name)
    end.

Definition get_var (c attr : string) (pop : bool) : M pandas :=
  let* t := n_variables in
  match t !! (c, attr) with
  | Some (flag, _) => fetch flag c (attr +:+ var_ref_suffix) pop
  | None => raise (KeyError attr)
  end.

Definition get_con (c attr : string) (pop : bool) : M pandas :=
  let* t := n_constraints in
  match t !! (c, attr) with
  | Some (flag, _) => fetch flag c (attr +:+ con_ref_suffix) pop
  | None => raise (KeyError attr)
  end.

(** ** clear_references *)

(** The two kinds of Python value that the test of [clear_references]
    computes with: [-b] on a [bool] is an [int]. *)
Inductive pyval :=
| PBool (b : bool)
| PInt (z : Z).

Definition truthy (v : pyval) : bool :=
  match v with
  | PBool b => b
  | PInt z => negb (z =? 0)%Z
  end.

(** [- v] *)
Definition py_neg (v : pyval) : pyval :=
  match v with
  | PBool b => PInt (- (if b then 1 else 0))
  | PInt z => PInt (- z)
  end.

(** [a or b]: the first operand when it is true, the second otherwise. *)
Definition py_or (a b : pyval) : pyval := if truthy a then a else b.

(** [(con_ref_suffix in k) or - (var_ref_suffix in k)], as the [if] reads it. *)
Definition is_reference_key (k : string) : bool :=
  truthy (py_or (PBool (Str.contains con_ref_suffix k))
                (py_neg (PBool (Str.contains var_ref_suffix k)))).

(** The inner loop: [keys = list(c.pnl.keys())], then a [pop] for each key
    that passes the test. *)
Definition clear_keys (d : gmap string pandas) : gmap string pandas :=
  fold_left (λ d k, if is_reference_key k then delete k d else d)
    (map_to_list d).*1 d.

(** Modelled from the spec: [n.iterate_components()] is defined outside this
    module; it is taken to yield every entity kind of the network, each with
    its dictionary of time-dependent quantities. *)
Definition iterate_components (st : state) : gmap string (gmap string pandas) :=
  pnl st.

Definition clear_references : M () :=
  let* _ := modify (λ st, set_pnl (clear_keys <$> iterate_components st) st) in
  let* _ := modify (λ st, match variables st with
                          | Some _ => set_variables None st
                          | None => st
                          end) in
  modify (λ st, match constraints st with
                | Some _ => set_constraints None st
                | None => st
                end).

(** * solvers *)

(** A cell of a table that pandas has read: a number, which is NaN for a
    cell without a value, or text. *)
Inductive datum :=
| DNum (f : pyfloat)
| DText (s : string).

(** A labelled column of results. *)
Abbreviation series := (list (string * datum)).

(** The tuple that the three functions return:
    [(status, termination_condition, variables_sol, constraints_dual, objective)]. *)
Abbreviation result :=
  (string * string * option series * option series * option pyfloat)%type.

(** [solver_options]: a fragment of command line, or a dictionary. *)
Inductive options :=
| OptString (s : string)
| OptDict (items : list (string * string)).

(** What the solver process leaves: its standard output and the lines of the
    solution file, each with its line end ([None]: there is no such file). *)
Record world := mkworld {
  solver_stdout : string;
  solution_file : option (list string) }.

(** What gurobipy shows of the model after [optimize]. *)
Record gurobi_model := mkgurobi {
  g_status : Z;
  g_vars : list (string * pyfloat);        (* VarName, x *)
  g_constrs : list (string * pyfloat);     (* ConstrName, Pi *)
  g_objval : pyfloat;
  g_write_fails : bool }.                  (* m.write raises GurobiError *)

Definition first_char_is (c : ascii) (s : string) : bool :=
  match s with
  | String c' _ => Ascii.eqb c' c
  | "" => false
  end.

(** [if warmstart:] *)
Definition given (warmstart : option string) : option string :=
  match warmstart with
  | Some "" | None => None
  | Some w => Some w
  end.

(** [open(path)] *)
Definition open_file (w : world) (path : string) : M (list string) :=
  match solution_file w with
  | Some lines =>
      let* _ := modify (emit (FileRead path)) in
      ret lines
  | None => raise (FileNotFoundError path)
  end.

(** [command += solver_options] under its guard. *)
Definition add_options (command : string) (solver_options : option options)
  : outcome string :=
  match solver_options with
  | None | Some (OptDict []) => Return command
  | Some (OptString s) => Return (command +:+ s)
  | Some (OptDict _) => Raise (TypeError "can only concatenate str to str")
  end.

(** [os.system("rm " + fn)] for the two files. *)
Definition remove_files (problem_fn solution_fn : string) : M () :=
  let* _ := modify (emit (OsSystem ("rm " +:+ problem_fn))) in
  modify (emit (OsSystem ("rm " +:+ solution_fn))).

(** ** The header of a glpk solution *)
Module Glpk.

(** The loop that gathers the header: lines are read up to and including the
    first empty line.  At the end of the file [readline] returns [''] for
    ever and the loop does not end: [None]. *)
Fixpoint read_info (lines : list string) : option (string * list string) :=
  match lines with
  | [] => None
  | line :: rest =>
      if String.eqb line Str.nl then Some (line, rest)
      else '(info, rest') ← read_info rest; Some (line +:+ info, rest')
  end.

Definition rows (info : string) : list (list string) :=
  map (Str.split ":") (filter (λ l, l ≠ "") (Str.split "010"%char info)).

(** [pd.read_csv(io.StringIO(info), sep=':', index_col=0, header=None)[1]]
    followed by the lookup of a label as an attribute: the first row fixes
    the number of columns, a longer row is a parse error, a missing or
    empty field is NaN ([None]). *)
Definition field (key info : string) : outcome (option string) :=
  match rows info with
  | [] => Raise (LibraryError "EmptyDataError")
  | first :: rest =>
      let rs := first :: rest in
      if existsb (λ r, (length first <? length r)%nat) rs
      then Raise (LibraryError "ParserError")
      else if (length first <? 2)%nat then Raise (KeyError "1")
      else match filter (λ r, r !! 0%nat = Some key) rs with
           | [r] =>
               match r !! 1%nat with
               | Some (String c v) => Return (Some (String c v))
               | _ => Return None
               end
           | _ => Raise (AttributeError key)
           end
  end.

(** [float(re.sub('[^0-9]+', '', text))] *)
Definition objective (text : string) : outcome pyfloat :=
  match Float.parse (Str.filter_chars Str.is_digit text) with
  | Some f => Return f
  | None => Raise (ValueError "could not convert string to float")
  end.

(** [column.astype(float)] *)
Fixpoint astype_float (col : series) : outcome series :=
  match col with
  | [] => Return []
  | (k, d) :: rest =>
      obind (match d with
             | DText s =>
                 match Float.parse s with
                 | Some f => Return (DNum f)
                 | None => Raise (ValueError "could not convert string to float")
                 end
             | DNum _ => Return d
             end) (λ d',
      obind (astype_float rest) (λ rest', Return ((k, d') :: rest')))
  end.

(** [x.fillna(0)] on one number *)
Definition fill0 (f : pyfloat) : pyfloat :=
  match f with
  | NaN => Float.of_int 0
  | _ => f
  end.

(** [pd.to_numeric(column, 'coerce').fillna(0)]: a text that is not a number
    becomes NaN, and NaN becomes 0. *)
Definition to_numeric_fill0 (col : series) : series :=
  map (λ kd : string * datum,
         (kd.1, match kd.2 with
                | DNum f => DNum (fill0 f)
                | DText s => DNum (fill0 (default NaN (Float.parse s)))
                end)) col.

End Glpk.

Section Solvers.

(** pandas reads the tables of the solution files.  [pd_read_csv] is
    [pd.read_csv(solution_fn, header=None, skiprows=[0], sep=r'\s+',
    usecols=[1,2,3], index_col=0)] on the lines of the file: per row the
    label and the columns 2 and 3.  [pd_read_fwf] is
    [pd.read_fwf(data).set_index('Row name')] on the lines that follow the
    header: per row the label and the columns Activity and Marginal. *)
Variable pd_read_csv : list string → outcome (list (string * datum * datum)).
Variable pd_read_fwf : list string → outcome (list (string * datum * datum)).

(** The attributes of [gurobipy.GRB.Status] in the order of [__dir__], each
    with its value. *)
Variable Status : list (string * Z).

Definition run_and_read_cbc (w : world) (problem_fn solution_fn : string)
    (solver_logfile : option string) (solver_options : option options)
    (keep_files : bool) (warmstart : option string) (store_basis : bool)
  : M result :=
  let command := "cbc -printingOptions all -import " +:+ problem_fn +:+ " " in
  let command := match given warmstart with
                 | Some ws => command +:+ "-basisI " +:+ ws +:+ " "
                 | None => command
                 end in
  let* command := lift (add_options command solver_options) in
  let command := command +:+ "-solve -solu " +:+ solution_fn +:+ " " in
  let* command :=
    if store_basis then
      let basis := Str.replace ".sol" ".bas" solution_fn in
      let* _ := modify (set_basis_fn (Some basis)) in
      ret (command +:+ "-basisO " +:+ basis +:+ " ")
    else ret command in
  let* _ :=
    match solver_logfile with
    | None => modify (emit (OsSystem command))
    | Some logfile =>
        let* _ := modify (emit (SubprocessRun (Str.split " " command))) in
        modify (emit (FileWrite logfile (solver_stdout w +:+ Str.nl)))
    end in
  let* lines := open_file w solution_fn in
  let data := hd "" lines in
  (* the locals status, termination_condition and objective, when bound *)
  let* locals :=
    if Str.startswith "Optimal - objective value" data then
      match Float.parse (Str.drop (String.length "Optimal - objective value ") data) with
      | Some objective => ret (Some "optimal", "optimal", Some objective)
      | None => raise (ValueError "could not convert string to float")
      end
    else if Str.contains "Infeasible" data then ret (None, "infeasible", None)
    else ret (None, "other", None) in
  let '(status, termination_condition, objective) := locals in
  if negb (String.eqb termination_condition "optimal") then
    match status with
    | Some status => ret (status, termination_condition, None, None, None)
    | None => raise (UnboundLocalError "status")
    end
  else
    let* _ := modify (emit (FileRead solution_fn)) in
    let* sol := lift (pd_read_csv lines) in
    let variables_b := λ row : string * datum * datum, first_char_is "x" row.1.1 in
    let variables_sol :=
      map (λ row, (row.1.1, row.1.2)) (filter (λ row, variables_b row = true) sol) in
    let constraints_dual :=
      map (λ row, (row.1.1, row.2)) (filter (λ row, variables_b row = false) sol) in
    let* _ := if negb keep_files then remove_files problem_fn solution_fn
              else ret () in
    match status with
    | Some status =>
        ret (status, termination_condition, Some variables_sol,
             Some constraints_dual, objective)
    | None => raise (UnboundLocalError "status")
    end.

Definition run_and_read_glpk (w : world) (problem_fn solution_fn : string)
    (solver_logfile : option string) (solver_options : option options)
    (keep_files : bool) (warmstart : option string) (store_basis : bool)
  : M result :=
  let command := "glpsol --lp " +:+ problem_fn +:+ " --output " +:+ solution_fn in
  let command := match solver_logfile with
                 | Some logfile => command +:+ " --log " +:+ logfile
                 | None => command
                 end in
  let command := match given warmstart with
                 | Some ws => command +:+ " --ini " +:+ ws
                 | None => command
                 end in
  let* command :=
    if store_basis then
      let basis := Str.replace ".sol" ".bas" solution_fn in
      let* _ := modify (set_basis_fn (Some basis)) in
      ret (command +:+ " -w " +:+ basis)
    else ret command in
  let* command := lift (add_options command solver_options) in
  let* _ := modify (emit (OsSystem command)) in
  let* lines := open_file w solution_fn in
  match Glpk.read_info lines with
  | None => lift Loops
  | Some (info, data) =>
      let* status_cell := lift (Glpk.field "Status" info) in
      let* status :=
        match status_cell with
        | Some text => ret (Str.strip (Str.lower text))
        | None => raise (AttributeError "lower")
        end in
      let* objective_cell := lift (Glpk.field "Objective" info) in
      let* objective :=
        match objective_cell with
        | Some text => lift (Glpk.objective text)
        | None => raise (TypeError "expected string or bytes-like object")
        end in
      let termination_condition := status in
      if negb (String.eqb termination_condition "optimal") then
        ret (status, termination_condition, None, None, None)
      else
        let* sol := lift (pd_read_fwf data) in
        let variables_b := λ row : string * datum * datum, first_char_is "x" row.1.1 in
        let* variables_sol :=
          lift (Glpk.astype_float
                  (map (λ row, (row.1.1, row.1.2))
                     (filter (λ row, variables_b row = true) sol))) in
        let sol := filter (λ row, variables_b row = false) sol in
        let constraints_b := λ row : string * datum * datum, first_char_is "c" row.1.1 in
        let constraints_dual :=
          Glpk.to_numeric_fill0
            (map (λ row, (row.1.1, row.2))
               (filter (λ row, constraints_b row = true) sol)) in
        let* _ := if negb keep_files then remove_files problem_fn solution_fn
                  else ret () in
        ret (status, termination_condition, Some variables_sol,
             Some constraints_dual, Some objective)
  end.

(** [{getattr(Status, s) : s.lower() for s in Status.__dir__() if not
    s.startswith('_')}]: a later name takes the place of an earlier one
    with the same value. *)
Definition statusmap : gmap Z string :=
  fold_left (λ (m : gmap Z string) (s : string * Z),
               if Str.startswith "_" s.1 then m else <[s.2 := Str.lower s.1]> m)
    Status ∅.

Definition run_and_read_gurobi (m : gurobi_model) (problem_fn solution_fn : string)
    (solver_logfile : option string) (solver_options : option options)
    (keep_files : bool) (warmstart : option string) (store_basis : bool)
  : M result :=
  let* solver_options :=
    match solver_logfile, solver_options with
    | Some logfile, Some (OptDict items) =>
        ret (Some (OptDict (Pd.set_assoc "logfile" logfile items)))
    | Some _, Some (OptString _) =>
        raise (TypeError "'str' object does not support item assignment")
    | _, _ => ret solver_options
    end in
  let* _ := modify (emit (LoggingDisable 50)) in
  let* _ := modify (emit (GurobiRead problem_fn)) in
  let* _ :=
    match solver_options with
    | Some (OptDict items) =>
        modify (λ st, fold_left (λ st kv, emit (GurobiSetParam kv.1 kv.2) st) items st)
    | Some (OptString _) => raise (AttributeError "items")
    | None => ret ()
    end in
  let* _ := match given warmstart with
            | Some ws => modify (emit (GurobiReadStart ws))
            | None => ret ()
            end in
  let* _ := modify (emit GurobiOptimize) in
  let* _ := modify (emit (LoggingDisable 1)) in
  let* _ :=
    if store_basis then
      let basis := Str.replace ".sol" ".bas" solution_fn in
      let* _ := modify (set_basis_fn (Some basis)) in
      let* _ := modify (emit (GurobiWrite basis)) in
      if g_write_fails m then
        let* _ := modify (emit (LoggerInfo "No model basis stored")) in
        modify (set_basis_fn None)
      else ret ()
    else ret () in
  let* _ := if negb keep_files
            then modify (emit (OsSystem ("rm " +:+ problem_fn)))
            else ret () in
  match statusmap !! g_status m with
  | None => raise (KeyError (pretty (g_status m)))
  | Some status =>
      let termination_condition := status in
      if negb (String.eqb termination_condition "optimal") then
        ret (status, termination_condition, None, None, None)
      else
        let variables_sol := map (λ v, (v.1, DNum v.2)) (g_vars m) in
        let constraints_dual := map (λ c, (c.1, DNum c.2)) (g_constrs m) in
        ret (status, termination_condition, Some variables_sol,
             Some constraints_dual, Some (g_objval m))
  end.

End Solvers.

(** * The vocabulary of the properties *)

Definition alignment_error (e : exn) : Prop :=
  e = AssertionError "Series or DataFrames are not aligned" ∨
  e = ValueError "Lengths must match to compare".

(** An operand carries labels: it is a series or a frame. *)
Definition labelled (v : value) : Prop := is_Some (value_axes v).

(** Two operands disagree on a shared axis: counted from the last axis, as
    broadcasting aligns them, some axis that both carry has different
    labels. *)
Definition disagree_on_shared_axis (a b : value) : Prop :=
  ∃ ax bx k la lb,
    value_axes a = Some ax ∧ value_axes b = Some bx ∧
    reverse ax !! k = Some la ∧ reverse bx !! k = Some lb ∧ la ≠ lb.

Definition frame_ab : value :=
  VFrame ["a"; "b"] ["x"; "y"] (ObjArr [2; 2] ["x0"; "x1"; "x2"; "x3"]).
Definition frame_cd : value :=
  VFrame ["c"; "d"] ["x"; "y"] (ObjArr [2; 2] ["x4"; "x5"; "x6"; "x7"]).

Definition minus_half : pyfloat := mkfloat (-5) (-1).

(** The text of the bound lines, once the tokens are there. *)
Definition bound_lines (lower upper : value) (variables : ndarray)
  : outcome (list string) :=
  obind (_str_array lower) (λ lower,
  obind (_str_array upper) (λ upper,
  obind (py_add lower (VStr " <= ")) (λ t,
  obind (py_add t (VArray variables)) (λ t,
  obind (py_add t (VStr " <= ")) (λ t,
  obind (py_add t upper) (λ t,
  obind (py_add t (VStr Str.nl)) flatten)))))).

(** [sense = '=' if sense == '==' else sense], for a string. *)
Definition normal_sense (sense : value) : value :=
  match sense with
  | VStr s => VStr (if String.eqb s "==" then "=" else s)
  | _ => sense
  end.

(** The text of the constraint blocks, once the tokens are there. *)
Definition constraint_blocks (lhs sense rhs : value) (tokens : ndarray)
  : outcome (list string) :=
  obind (_str_array lhs) (λ lhs,
  obind (_str_array (normal_sense sense)) (λ sense,
  obind (_str_array rhs) (λ rhs,
  obind (py_add (VArray tokens) (VStr (":" +:+ Str.nl))) (λ t,
  obind (py_add t lhs) (λ t,
  obind (py_add t sense) (λ t,
  obind (py_add t (VStr Str.nl)) (λ t,
  obind (py_add t rhs) (λ t,
  obind (py_add t (VStr (Str.nl +:+ Str.nl))) flatten)))))))).

(** What an outcome that is not a return leaves of a computation. *)
Definition stop {A B} (o : outcome A) (st : state) (k : A → outcome B * state)
  : outcome B * state :=
  match o with
  | Return a => k a
  | Raise e => (Raise e, st)
  | Loops => (Loops, st)
  end.

Definition zero : pyfloat := mkfloat 0 0.
Definition one : pyfloat := mkfloat 1 0.
Definition two : pyfloat := mkfloat 2 0.

(** The tokens in a container that a writer returned. *)
Definition token_cells (v : value) : list string :=
  match v with
  | VSeries _ (ObjArr _ d) | VFrame _ _ (ObjArr _ d) => d
  | _ => []
  end.

(** The two kinds of token: variables ([true]) and constraints ([false]). *)
Definition token (variable : bool) (x : nat) : string :=
  (if variable then "x" else "c") +:+ pretty x.


(** A counter only grows, and once it is a float it stays one. *)
Definition counter_mono (a b : pynum) : Prop :=
  match a, b with
  | NInt x, NInt y => (x ≤ y)%nat
  | _, NFloat _ => True
  | NFloat _, NInt _ => False
  end.

Inductive call :=
| WriteBound (lower upper : value) (axes : option axes_arg)
| WriteConstraint (lhs sense rhs : value) (axes : option axes_arg).

Definition mints_variables (c : call) : bool :=
  match c with
  | WriteBound _ _ _ => true
  | WriteConstraint _ _ _ _ => false
  end.

Definition perform (c : call) : M value :=
  match c with
  | WriteBound lower upper axes => write_bound lower upper axes
  | WriteConstraint lhs sense rhs axes => write_constraint lhs sense rhs axes
  end.

(** A session: the calls are made one after the other on the state that the
    previous one left, whether it returned or raised. *)
Fixpoint session (calls : list call) (st : state)
  : list (call * outcome value) * state :=
  match calls with
  | [] => ([], st)
  | c :: rest =>
      let r := perform c st in
      let s := session rest r.2 in
      ((c, r.1) :: s.1, s.2)
  end.

(** All the tokens of one kind that the calls of a session returned. *)
Definition minted (variable : bool) (rs : list (call * outcome value))
  : list string :=
  concat (map (λ r : call * outcome value,
                 match r.2 with
                 | Return v => if Bool.eqb (mints_variables r.1) variable
                               then token_cells v else []
                 | _ => []
                 end) rs).


(** The text that an operand contributes to each element of the shape, after
    [_str_array]: a number or a string is the same for every element, an
    array is broadcast to the shape and gives one cell per element. *)
Definition elements (shape : list nat) (v : value) : option (list string) :=
  match v with
  | VStr s => Some (replicate (Np.count shape) s)
  | VArray (ObjArr s d) =>
      if decide (Np.broadcast_shapes shape s = Some shape
                 ∧ length (Np.broadcast_to s shape d) = Np.count shape)
      then Some (Np.broadcast_to s shape d) else None
  | _ => None
  end.

Definition rendered (shape : list nat) (v : value) : option (list string) :=
  match _str_array v with
  | Return r => elements shape r
  | _ => None
  end.

(** The block of one constraint. *)
Definition block (sense token lhs rhs : string) : string :=
  token +:+ ":" +:+ Str.nl +:+ lhs +:+ sense +:+ Str.nl +:+ rhs +:+ Str.nl +:+ Str.nl.

(** A computation leaves a view of the state as it found it. *)
Definition preserves {A X} (f : state → X) (m : M A) : Prop :=
  ∀ st, f (m st).2 = f st.

(** The entry that a registration leaves under its key. *)
Definition merged_entry (old : option (bool * string)) (pnl_ : bool) (spec : string)
  : bool * string :=
  match old with
  | Some (flag, specification) =>
      if String.eqb spec "" then (pnl_, spec)
      else (flag, specification +:+ ", " +:+ spec)
  | None => (pnl_, spec)
  end.

(** The table that the registration of the frame [g] leaves under its name
    among the time-dependent quantities: the columns of [g] are put into the
    table that was there, if there was one, and the columns are then laid
    out by the components of the static table [s] when there are as many of
    them. *)
Definition stored_table (old : option pandas) (g s : frame) : frame :=
  let t := match old with
           | Some (PFrame f) => Pd.set_columns f g
           | _ => g
           end in
  if (length (fr_columns t) =? length (fr_index s))%nat
  then Pd.reindex_columns t (fr_index s)
  else t.

(** Where a registration puts its tokens, from the state [st1] in which the
    entry of the table is written to the result [r] of the call.  With the
    flag, a frame of tokens goes under [name] into the time-dependent
    quantities of [c]; without it, a series of tokens goes into the column
    [name] of the static table of [c], on the rows that it names, which must
    all be there. *)
Definition stores_tokens (v : value) (c name : string) (pnl_ : bool)
    (st1 : state) (r : outcome () * state) : Prop :=
  (pnl_ = true →
     ∀ i cols sh cells d s,
       v = VFrame i cols (ObjArr sh cells) →
       pnl st1 !! c = Some d → df st1 !! c = Some s →
       (∀ i' cells', d !! name ≠ Some (PSeries i' cells')) →
       r = (Return (),
            set_pnl (<[c := <[name := PFrame (stored_table (d !! name)
                                                (Pd.frame_of i cols cells) s)]> d]>
                       (pnl st1)) st1))
  ∧ (pnl_ = false →
       ∀ rows sh cells s,
         v = VSeries rows (ObjArr sh cells) → df st1 !! c = Some s →
         r = match Pd.loc_set s rows name (map Some cells) with
             | Return s' => (Return (), set_df (<[c := s']> (df st1)) st1)
             | Raise e => (Raise e, st1)
             | Loops => (Loops, st1)
             end).

(** The effects that remove a file: [os.system] on an [rm] command. *)
Definition is_rm (e : effect) : bool :=
  match e with
  | OsSystem command => Str.startswith "rm " command
  | _ => false
  end.

Definition removals (es : list effect) : list effect := List.filter is_rm es.

(** The call handed out a solution. *)
Definition returned_solution (o : outcome result) : bool :=
  match o with
  | Return (_, _, Some _, _, _) => true
  | _ => false
  end.

(** What the readers of a solution file do about the files, from the state
    [st] to the result [r]: the effects [es] of the call remove the two files
    as its last two steps, after the solution file was read, when a solution
    is handed out and the files are not to be kept; they remove nothing
    otherwise.  A solution is only handed out with the condition optimal. *)
Definition removes_after_success (problem_fn solution_fn : string)
    (keep_files : bool) (st : state) (r : outcome result * state) : Prop :=
  ∃ es, effects r.2 = effects st ++ es ∧
    (∀ s tc vs cd ob, r.1 = Return (s, tc, Some vs, cd, ob) → tc = "optimal") ∧
    if returned_solution r.1 && negb keep_files
    then ∃ pre, es = pre ++ [OsSystem ("rm " +:+ problem_fn);
                             OsSystem ("rm " +:+ solution_fn)]
                ∧ removals pre = [] ∧ FileRead solution_fn ∈ pre
    else removals es = [].

(** [run_and_read_cbc] from the opening of the solution file on. *)
Definition cbc_read
    (pd_read_csv : list string → outcome (list (string * datum * datum)))
    (w : world) (problem_fn solution_fn : string)
    (keep_files : bool) : M result :=
  let* lines := open_file w solution_fn in
  let data := hd "" lines in
  let* locals :=
    if Str.startswith "Optimal - objective value" data then
      match Float.parse (Str.drop (String.length "Optimal - objective value ") data) with
      | Some objective => ret (Some "optimal", "optimal", Some objective)
      | None => raise (ValueError "could not convert string to float")
      end
    else if Str.contains "Infeasible" data then ret (None, "infeasible", None)
    else ret (None, "other", None) in
  let '(status, termination_condition, objective) := locals in
  if negb (String.eqb termination_condition "optimal") then
    match status with
    | Some status => ret (status, termination_condition, None, None, None)
    | None => raise (UnboundLocalError "status")
    end
  else
    let* _ := modify (emit (FileRead solution_fn)) in
    let* sol := lift (pd_read_csv lines) in
    let variables_b := λ row : string * datum * datum, first_char_is "x" row.1.1 in
    let variables_sol :=
      map (λ row, (row.1.1, row.1.2)) (filter (λ row, variables_b row = true) sol) in
    let constraints_dual :=
      map (λ row, (row.1.1, row.2)) (filter (λ row, variables_b row = false) sol) in
    let* _ := if negb keep_files then remove_files problem_fn solution_fn
              else ret () in
    match status with
    | Some status =>
        ret (status, termination_condition, Some variables_sol,
             Some constraints_dual, objective)
    | None => raise (UnboundLocalError "status")
    end.

(** [run_and_read_glpk] from the opening of the solution file on. *)
Definition glpk_read
    (pd_read_fwf : list string → outcome (list (string * datum * datum)))
    (w : world) (problem_fn solution_fn : string)
    (keep_files : bool) : M result :=
  let* lines := open_file w solution_fn in
  match Glpk.read_info lines with
  | None => lift Loops
  | Some (info, data) =>
      let* status_cell := lift (Glpk.field "Status" info) in
      let* status :=
        match status_cell with
        | Some text => ret (Str.strip (Str.lower text))
        | None => raise (AttributeError "lower")
        end in
      let* objective_cell := lift (Glpk.field "Objective" info) in
      let* objective :=
        match objective_cell with
        | Some text => lift (Glpk.objective text)
        | None => raise (TypeError "expected string or bytes-like object")
        end in
      let termination_condition := status in
      if negb (String.eqb termination_condition "optimal") then
        ret (status, termination_condition, None, None, None)
      else
        let* sol := lift (pd_read_fwf data) in
        let variables_b := λ row : string * datum * datum, first_char_is "x" row.1.1 in
        let* variables_sol :=
          lift (Glpk.astype_float
                  (map (λ row, (row.1.1, row.1.2))
                     (filter (λ row, variables_b row = true) sol))) in
        let sol := filter (λ row, variables_b row = false) sol in
        let constraints_b := λ row : string * datum * datum, first_char_is "c" row.1.1 in
        let constraints_dual :=
          Glpk.to_numeric_fill0
            (map (λ row, (row.1.1, row.2))
               (filter (λ row, constraints_b row = true) sol)) in
        let* _ := if negb keep_files then remove_files problem_fn solution_fn
                  else ret () in
        ret (status, termination_condition, Some variables_sol,
             Some constraints_dual, Some objective)
  end.

(** What [run_and_read_gurobi] does with the model up to and including the
    writing of the basis. *)
Definition gurobi_solving (problem_fn solution_fn : string)
    (solver_logfile : option string) (items : option (list (string * string)))
    (warmstart : option string) (store_basis write_fails : bool) : list effect :=
  [LoggingDisable 50; GurobiRead problem_fn]
  ++ match items, solver_logfile with
     | Some l, Some logfile =>
         map (λ kv, GurobiSetParam kv.1 kv.2) (Pd.set_assoc "logfile" logfile l)
     | Some l, None => map (λ kv, GurobiSetParam kv.1 kv.2) l
     | None, _ => []
     end
  ++ match given warmstart with
     | Some ws => [GurobiReadStart ws]
     | None => []
     end
  ++ [GurobiOptimize; LoggingDisable 1]
  ++ (if store_basis
      then GurobiWrite (Str.replace ".sol" ".bas" solution_fn)
           :: (if write_fails then [LoggerInfo "No model basis stored"] else [])
      else []).

Definition option_items (solver_options : option options)
  : option (list (string * string)) :=
  match solver_options with
  | Some (OptDict l) => Some l
  | _ => None
  end.

(** A cbc solution file of an infeasible problem. *)
Definition cbc_infeasible : world :=
  mkworld "" (Some ["Infeasible - objective value 0.00000000" +:+ Str.nl]).

(** A cbc solution file of a solved problem. *)
Definition cbc_optimal : world :=
  mkworld "" (Some ["Optimal - objective value 42.0" +:+ Str.nl;
                    "      0 x0    1.5    0" +:+ Str.nl;
                    "      0 c0    3      0.5" +:+ Str.nl]).

(** A glpk solution file whose objective is negative and fractional. *)
Definition glpk_optimal : world :=
  mkworld ""
    (Some ["Problem:    " +:+ Str.nl;
           "Rows:       1" +:+ Str.nl;
           "Columns:    1" +:+ Str.nl;
           "Non-zeros:  1" +:+ Str.nl;
           "Status:     OPTIMAL" +:+ Str.nl;
           "Objective:  obj = -12.5 (MINimum)" +:+ Str.nl;
           Str.nl;
           "   No.   Row name   St   Activity     Lower bound   Upper bound    Marginal" +:+ Str.nl]).

(** The rows that pandas reads from the two files above. *)
Definition two_rows : list string → outcome (list (string * datum * datum)) :=
  λ _, Return [("x0", DNum (mkfloat 15 (-1)), DNum zero);
               ("c0", DNum (mkfloat 3 0), DNum (mkfloat 5 (-1)))].

(** The status codes of gurobipy. *)
Definition GRB_Status : list (string * Z) :=
  [("__doc__", 0%Z); ("LOADED", 1%Z); ("OPTIMAL", 2%Z); ("INFEASIBLE", 3%Z);
   ("INF_OR_UNBD", 4%Z); ("UNBOUNDED", 5%Z); ("CUTOFF", 6%Z);
   ("ITERATION_LIMIT", 7%Z); ("NODE_LIMIT", 8%Z); ("TIME_LIMIT", 9%Z);
   ("SOLUTION_LIMIT", 10%Z); ("INTERRUPTED", 11%Z); ("NUMERIC", 12%Z);
   ("SUBOPTIMAL", 13%Z); ("INPROGRESS", 14%Z); ("USER_OBJ_LIMIT", 15%Z)].

Definition empty_state : state :=
  mkstate (NInt 0) (NInt 0) [] [] (Some ∅) (Some ∅) ∅ ∅ None [].

(** A session of three calls. *)
Definition three_calls : list call :=
  [WriteBound (VFloat zero) (VFloat one) (Some (AxIndex ["a"; "b"]));
   WriteConstraint (VStr ("+1.0 x0" +:+ Str.nl)) (VStr "<=") (VFloat two)
     (Some (AxIndex ["a"]));
   WriteBound (VFloat zero) (VFloat one)
     (Some (AxTuple [["t0"; "t1"]; ["a"; "b"]]))].

(** The tokens of two generators over two snapshots. *)
Definition p_tokens : value :=
  VFrame ["t0"; "t1"] ["g0"; "g1"] (ObjArr [2; 2] ["x0"; "x1"; "x2"; "x3"]).

(** The tokens of two generators, one for each. *)
Definition g_tokens : value :=
  VSeries ["g0"; "g1"] (ObjArr [2] ["x4"; "x5"]).

Definition one_component : state :=
  mkstate (NInt 4) (NInt 0) [] [] (Some ∅) (Some ∅)
    {["Generator" := ∅]} {["Generator" := mkframe ["g0"; "g1"] []]} None [].

(** The text of a scalar, as [_str_array] renders it. *)
Definition scalar_text (v : value) : string :=
  match _str_array v with
  | Return (VStr s) => s
  | _ => ""
  end.

(** The expressions of several pairs over one index, element by element:
    every pair adds its coefficient, its token and a line end. *)
Fixpoint stack_terms (acc : list string) (pairs : list (string * list string))
  : list string :=
  match pairs with
  | [] => acc
  | (c, d) :: rest =>
      stack_terms (zip_with (λ a x, a +:+ c +:+ x +:+ Str.nl) acc d) rest
  end.

(** The line of one bound. *)
Definition bound_line (token lower upper : string) : string :=
  lower +:+ " <= " +:+ token +:+ " <= " +:+ upper +:+ Str.nl.

(** Several registrations of variable references under one key, one after
    the other: each with its flag and its specification. *)
Fixpoint set_varref_each (v : value) (c attr : string)
    (calls : list (bool * string)) (st : state) : state :=
  match calls with
  | [] => st
  | (flag, spec) :: rest =>
      set_varref_each v c attr rest (set_varref v c attr flag spec st).2
  end.

(** * Properties *)

(** ** Strings and shapes *)

Lemma string_app_cons (x : ascii) (a b : string) :
  String x a +:+ b = String x (a +:+ b).
Proof. reflexivity. Qed.

Lemma string_app_assoc (a b c : string) : (a +:+ b) +:+ c = a +:+ b +:+ c.
Proof.
  induction a as [|x a IH]; [done |].
  rewrite !string_app_cons. congruence.
Qed.

Lemma string_app_nil_r (a : string) : a +:+ "" = a.
Proof.
  induction a as [|x a IH]; [done |].
  rewrite string_app_cons. congruence.
Qed.

Lemma broadcast_rev_same (s : list nat) : Np.broadcast_rev s s = Some s.
Proof.
  induction s as [|x s IH]; simpl; [done |].
  rewrite IH; simpl. by rewrite Nat.eqb_refl.
Qed.

Lemma broadcast_shapes_same (s : list nat) : Np.broadcast_shapes s s = Some s.
Proof.
  unfold Np.broadcast_shapes. rewrite broadcast_rev_same; simpl.
  by rewrite reverse_involutive.
Qed.

Lemma concat_chunks {A} (width n : nat) (l : list A) :
  length l = n * width → concat (Np.chunks width n l) = l.
Proof.
  revert l; induction n as [|n IH]; intros l Hl; simpl in *.
  - by destruct l.
  - rewrite IH; [apply take_drop |]. rewrite length_drop. lia.
Qed.

Lemma chunks_length {A} (width n : nat) (l : list A) c :
  length l = n * width → c ∈ Np.chunks width n l → length c = width.
Proof.
  revert l; induction n as [|n IH]; intros l Hl; simpl in *.
  - by intros ?%elem_of_nil.
  - intros [->|Hc]%elem_of_cons.
    + rewrite length_take. lia.
    + eapply IH; [|done]. rewrite length_drop. lia.
Qed.

Lemma bcast_same {A} (s : list nat) (d : list A) :
  length d = Np.count s → Np.bcast s s d = d.
Proof.
  revert d; induction s as [|x s IH]; intros d Hd; simpl in *; [done |].
  rewrite Nat.eqb_refl.
  rewrite <- (concat_chunks (Np.count s) x d) at 2 by done.
  f_equal. rewrite <- (map_id (Np.chunks _ _ _)) at 2.
  apply map_ext_in. intros c Hc%list_elem_of_In. apply IH.
  by eapply chunks_length.
Qed.

Lemma broadcast_to_same {A} (s : list nat) (d : list A) :
  length d = Np.count s → Np.broadcast_to s s d = d.
Proof.
  intros Hd. unfold Np.broadcast_to, Np.pad.
  rewrite Nat.sub_diag; simpl. by apply bcast_same.
Qed.

Lemma index_eq_all_true (a b : axis) : index_eq_all a b = Return true → a = b.
Proof.
  unfold index_eq_all. destruct (length a =? length b)%nat eqn:Hlen; [|done].
  apply Nat.eqb_eq in Hlen. intros [= Hall].
  revert b Hlen Hall; induction a as [|x a IH]; intros [|y b] Hlen Hall;
    simpl in *; try done.
  apply andb_true_iff in Hall as [Hxy Hall].
  apply String.eqb_eq in Hxy as ->. f_equal. apply IH; [lia | done].
Qed.

Lemma index_eq_all_total (a b : axis) :
  (∃ ok, index_eq_all a b = Return ok) ∨
  index_eq_all a b = Raise (ValueError "Lengths must match to compare").
Proof. unfold index_eq_all. destruct (_ =? _)%nat; eauto. Qed.

(** ** broadcasted_axes *)

Lemma value_axes_last v ax : value_axes v = Some ax → is_Some (last ax).
Proof. destruct v; intros [= <-]; simpl; eauto. Qed.

Lemma broadcast_step_cases acc df :
  (∃ e, broadcast_step acc df = Raise e ∧ alignment_error e) ∨
  (∃ acc', broadcast_step acc df = Return acc' ∧
     (acc.1 ≠ [] → acc'.1 ≠ [] ∧ last acc'.1 = last acc.1) ∧
     ∀ ax, value_axes df = Some ax → acc'.1 ≠ [] ∧ last ax = last acc'.1).
Proof.
  unfold broadcast_step. destruct (value_axes df) as [dax|] eqn:Hax.
  2: { right. exists acc. naive_solver. }
  destruct (value_axes_last _ _ Hax) as [b Hb]. rewrite Hb.
  assert (dax ≠ []) as Hdax by (by intros ->).
  destruct (last acc.1) as [a|] eqn:Ha.
  - destruct (index_eq_all_total a b) as [[ok Hok]| Herr].
    + rewrite Hok; simpl. destruct ok.
      * apply index_eq_all_true in Hok as ->. right. simpl.
        eexists; split; [done |]. simpl.
        assert (acc.1 ≠ []) as Hacc by (intros E; by rewrite E in Ha).
        destruct (_ <? _)%nat; (split; [intros _ | intros ? [= <-]]);
          split; congruence.
      * left. eexists; split; [done |]. by left.
    + rewrite Herr; simpl. left. eexists; split; [done |]. by right.
  - right. simpl. apply last_None in Ha. rewrite Ha. simpl.
    destruct dax as [|d dax]; [done |]. simpl.
    eexists; split; [done |]. simpl. split; [done |].
    intros ? [= <-]. done.
Qed.

Lemma broadcast_loop_cases dfs acc :
  (∃ e, broadcast_loop acc dfs = Raise e ∧ alignment_error e) ∨
  (∃ r, broadcast_loop acc dfs = Return r ∧
     (acc.1 ≠ [] → last r.1 = last acc.1) ∧
     ∀ v ax, v ∈ dfs → value_axes v = Some ax → last ax = last r.1).
Proof.
  revert acc; induction dfs as [|df dfs IH]; intros acc; simpl.
  { right. exists acc. split; [done |]. split; [done |].
    by intros ?? ?%elem_of_nil. }
  destruct (broadcast_step_cases acc df) as [(e & -> & He)|(acc' & -> & Hkeep & Hnew)];
    simpl; [left; eauto |].
  destruct (IH acc') as [(e & -> & He)|(r & -> & Hkeep' & Hall)]; [left; eauto |].
  right. exists r. split; [done |]. split.
  - intros Hne. destruct (Hkeep Hne) as [Hne' <-]. auto.
  - intros v ax [->|Hin]%elem_of_cons Hax; [|eauto].
    destruct (Hnew _ Hax) as [Hne' ->]. symmetry; auto.
Qed.

(** C4, as stated, fails: two frames with the same columns and different row
    labels disagree on a shared axis, and [broadcasted_axes] returns the axes
    of the first one. *)
Lemma broadcasted_axes_leading_axis_unchecked :
  ¬ (∀ a b, disagree_on_shared_axis a b → ∃ e, broadcasted_axes [a; b] = Raise e).
Proof.
  intros H. destruct (H frame_ab frame_cd) as [e He].
  - exists [["a"; "b"]; ["x"; "y"]], [["c"; "d"]; ["x"; "y"]], 1%nat, ["a"; "b"], ["c"; "d"].
    repeat split; done.
  - vm_compute in He. discriminate.
Qed.

Example broadcasted_axes_two_frames :
  broadcasted_axes [frame_ab; frame_cd] = Return ([["a"; "b"]; ["x"; "y"]], [2; 2]).
Proof. reflexivity. Qed.

(** C4, amended: whenever two labelled operands disagree on the labels of
    their last axis (the index of a series, the columns of a frame), compared
    by position and value, [broadcasted_axes] raises: the assertion fails, or
    pandas refuses to compare indexes of different lengths. *)
Theorem broadcasted_axes_trailing_axis_checked (dfs : list value) (a b : value)
    (ax bx : list axis) :
  a ∈ flatten_tuples dfs → b ∈ flatten_tuples dfs →
  value_axes a = Some ax → value_axes b = Some bx →
  last ax ≠ last bx →
  ∃ e, broadcasted_axes dfs = Raise e ∧ alignment_error e.
Proof.
  intros Ha Hb Hax Hbx Hne. unfold broadcasted_axes.
  destruct (broadcast_loop_cases (flatten_tuples dfs) ([], []))
    as [(e & He & Hal)|(r & Hr & _ & Hall)]; [eauto |].
  destruct Hne. rewrite (Hall _ _ Ha Hax), (Hall _ _ Hb Hbx). done.
Qed.

Lemma broadcasted_axes_trailing_axis_checked_witness :
  ∃ e, broadcasted_axes
         [VSeries ["x"; "y"] (ObjArr [2] ["x0"; "x1"]);
          VFrame ["a"; "b"] ["x"; "z"] (ObjArr [2; 2] ["x2"; "x3"; "x4"; "x5"])]
       = Raise e ∧ alignment_error e.
Proof.
  apply (broadcasted_axes_trailing_axis_checked _
           (VSeries ["x"; "y"] (ObjArr [2] ["x0"; "x1"]))
           (VFrame ["a"; "b"] ["x"; "z"] (ObjArr [2; 2] ["x2"; "x3"; "x4"; "x5"]))
           [["x"; "y"]] [["a"; "b"]; ["x"; "z"]]).
  - simpl. apply elem_of_cons; left; reflexivity.
  - simpl. apply elem_of_cons; right; apply elem_of_cons; left; reflexivity.
  - reflexivity.
  - reflexivity.
  - simpl. discriminate.
Defined.

(** ** linexpr *)

(** C2, as stated, fails: the rendering of the pairs [(1, "a1")] and
    [(-0.5, "b1")] is not the one-line text with spaces between the terms. *)
Lemma linexpr_terms_not_space_separated :
  ¬ (∃ shape, linexpr [(VInt 1, VStr "a1"); (VFloat minus_half, VStr "b1")]
              = Return (ObjArr shape ["+1.0 a1 -0.5 b1 "])).
Proof. intros [shape H]. vm_compute in H. discriminate. Qed.

Lemma broadcast_loop_scalars (dfs : list value) acc :
  Forall (λ v, value_axes v = None) dfs → broadcast_loop acc dfs = Return acc.
Proof.
  induction 1 as [|v dfs Hv _ IH]; simpl; [done |].
  unfold broadcast_step. by rewrite Hv.
Qed.

Lemma rendered_scalar_unlabelled (v : value) (c : string) :
  _str_array v = Return (VStr c) → value_axes v = None.
Proof.
  destruct v as [| | |a|i a|i k a|]; simpl; try done;
    destruct a as [s d|s d|s d]; simpl; try done;
    destruct (Np.count s =? 0)%nat; try done; case_decide; try done;
    by destruct (mapM _ _).
Qed.

(** Pairs of a scalar coefficient and a token: every pair gives the term
    made of the rendered coefficient, the token and a line end, and the
    expression is the terms one after the other. *)
Lemma linexpr_scalar_pairs (tuples : list (value * value)) (terms : list string) :
  Forall2 (λ p t, ∃ c v, _str_array p.1 = Return (VStr c) ∧ p.2 = VStr v
                         ∧ t = c +:+ v +:+ Str.nl) tuples terms →
  linexpr tuples = Return (ObjArr [] [Str.join terms]).
Proof.
  intros Hterms.
  assert (broadcasted_axes (map (λ p, VTuple [p.1; p.2]) tuples) = Return ([], []))
    as Haxes.
  { unfold broadcasted_axes. apply broadcast_loop_scalars.
    assert (Forall (λ v, value_axes v = None)
              (concat (map tuple_items (map (λ p, VTuple [p.1; p.2]) tuples))))
      as Hall.
    { induction Hterms as [|p t tuples terms (c & v & Hc & Hv & _) _ IH];
        simpl; [constructor |].
      constructor; [by eapply rendered_scalar_unlabelled |].
      constructor; [by rewrite Hv | done]. }
    unfold flatten_tuples. destruct tuples as [|p tuples]; [constructor |].
    assert (forallb is_tuple (map (λ p, VTuple [p.1; p.2]) (p :: tuples)) = true)
      as -> by (apply forallb_forall; intros ? (? & <- & _)%in_map_iff; done).
    done. }
  assert (∀ acc, linexpr_loop (ObjArr [] [acc]) tuples
                 = Return (ObjArr [] [acc +:+ Str.join terms])) as Hloop.
  { clear Haxes.
    induction Hterms as [|p t tuples terms (c & v & Hc & Hv & ->) _ IH];
      intros acc; simpl.
    - by rewrite string_app_nil_r.
    - destruct p as [coeff var]; simpl in *. rewrite Hc, Hv. simpl.
      rewrite IH. by rewrite !string_app_assoc. }
  unfold linexpr, linexpr_axes. rewrite Haxes. simpl.
  change (empty_expr []) with (ObjArr [] [""]).
  by rewrite (Hloop "").
Qed.

(** C2, amended: the two terms are rendered in input order, each coefficient
    with its sign and a space after it, and each term is followed by a line
    end. *)
Theorem linexpr_terms_end_with_newline :
  linexpr [(VInt 1, VStr "a1"); (VFloat minus_half, VStr "b1")]
  = Return (ObjArr [] ["+1.0 a1" +:+ Str.nl +:+ "-0.5 b1" +:+ Str.nl]).
Proof.
  rewrite (linexpr_scalar_pairs _ ["+1.0 a1" +:+ Str.nl; "-0.5 b1" +:+ Str.nl]).
  - reflexivity.
  - repeat constructor.
    + by exists "+1.0 ", "a1".
    + by exists "-0.5 ", "b1".
Qed.

(** ** The writers, step by step *)

Ltac step_outcomes :=
  repeat match goal with
         | |- context [match ?o with Return _ => _ | Raise _ => _ | Loops => _ end] =>
             destruct o; simpl; try reflexivity
         end.

Lemma write_bound_steps lower upper axes st :
  write_bound lower upper axes st =
  stop (resolve_axes axes lower upper) st (λ r,
    let st1 := set_xCounter (Np.num_add (xCounter st) (Np.prod r.2)) st in
    stop (token_array "x" (Np.num_sub (xCounter st1) (Np.prod r.2)) (xCounter st1) r.2)
      st1 (λ variables,
    stop (bound_lines lower upper variables) st1 (λ lines,
      (ser_or_frame r.2 variables r.1, set_bounds_f (bounds_f st1 ++ lines) st1)))).
Proof.
  unfold write_bound, bound_lines, stop, bind, lift, modify, get; simpl.
  destruct (resolve_axes axes lower upper) as [[ax shape]| |]; simpl; try reflexivity.
  step_outcomes.
Qed.

Lemma write_constraint_steps lhs sense rhs axes st :
  write_constraint lhs sense rhs axes st =
  stop (resolve_axes axes lhs rhs) st (λ r,
    let st1 := set_cCounter (Np.num_add (cCounter st) (Np.prod r.2)) st in
    stop (token_array "c" (Np.num_sub (cCounter st1) (Np.prod r.2)) (cCounter st1) r.2)
      st1 (λ tokens,
    stop (constraint_blocks lhs sense rhs tokens) st1 (λ blocks,
      (ser_or_frame r.2 tokens r.1,
       set_constraints_f (constraints_f st1 ++ blocks) st1)))).
Proof.
  unfold write_constraint, constraint_blocks, stop, bind, lift, modify, get; simpl.
  destruct (resolve_axes axes lhs rhs) as [[ax shape]| |]; simpl; try reflexivity.
  fold (normal_sense sense).
  step_outcomes.
Qed.

(** ** write_bound on two bounds *)

(** C6: from freshly reset counters, [write_bound] with the lower bounds
    [0, 0], the upper bounds [1, 2] and one axis of length two mints the
    tokens x0 and x1, appends the two lines [+0.0  <= x0 <= +1.0 ] and
    [+0.0  <= x1 <= +2.0 ] (each with its line end) to the bounds sink in
    that order, and returns the two tokens in a series; the bounds may come
    as arrays with the axis given, or as series that carry the axis. *)
Theorem write_bound_two_variables (st : state) (i0 i1 : string) :
  let st0 := (reset_counter st).2 in
  let lines := ["+0.0  <= x0 <= +1.0 " +:+ Str.nl; "+0.0  <= x1 <= +2.0 " +:+ Str.nl] in
  let st' := set_bounds_f (bounds_f st ++ lines) (set_xCounter (NInt 2) st0) in
  write_bound (VArray (FloatArr [2] [zero; zero])) (VArray (FloatArr [2] [one; two]))
    (Some (AxIndex [i0; i1])) st0
  = (Return (VSeries [i0; i1] (ObjArr [2] ["x0"; "x1"])), st')
  ∧
  write_bound (VSeries [i0; i1] (FloatArr [2] [zero; zero]))
    (VSeries [i0; i1] (FloatArr [2] [one; two])) None st0
  = (Return (VSeries [i0; i1] (ObjArr [2] ["x0"; "x1"])), st').
Proof.
  split.
  - reflexivity.
  - rewrite write_bound_steps.
    assert (resolve_axes None (VSeries [i0; i1] (FloatArr [2] [zero; zero]))
              (VSeries [i0; i1] (FloatArr [2] [one; two]))
            = Return ([[i0; i1]], [2])) as ->; [|reflexivity].
    unfold resolve_axes, broadcasted_axes; simpl.
    unfold broadcast_step; simpl. unfold index_eq_all; simpl.
    by rewrite !String.eqb_refl.
Qed.

(** ** The token allocator *)

Global Instance token_inj variable : Inj (=) (=) (token variable).
Proof.
  intros x y H. unfold token in H.
  destruct variable; simpl in H; injection H as H; by apply (inj pretty).
Qed.

Lemma token_array_cells p lo hi shape a :
  token_array p lo hi shape = Return a →
  ∃ x y, lo = NInt x ∧ hi = NInt y ∧
         a = ObjArr shape (map (λ i, p +:+ pretty i) (seq x (y - x))).
Proof. destruct lo, hi; simpl; intros [= <-]; eauto. Qed.

Lemma ser_or_frame_cells shape d axes v :
  ser_or_frame shape (ObjArr shape d) axes = Return v → token_cells v = d.
Proof.
  unfold ser_or_frame. destruct (_ <? _)%nat.
  - destruct axes as [|? [|? [|]]]; intros [= <-]; done.
  - destruct axes as [|? [|]]; intros [= <-]; done.
Qed.

Lemma num_add_mono a b : counter_mono a (Np.num_add a b).
Proof. destruct a, b; simpl; auto; lia. Qed.

Lemma counter_mono_refl a : counter_mono a a.
Proof. destruct a; simpl; auto. Qed.

Lemma stop_inv {A B} (o : outcome A) st (k : A → outcome B * state) ob st' :
  stop o st k = (ob, st') →
  (∃ a, o = Return a ∧ k a = (ob, st')) ∨ (st' = st ∧ ∀ b, ob ≠ Return b).
Proof.
  destruct o; simpl; [left; eauto | intros [= <- <-]; right; split; done ..].
Qed.

Lemma write_bound_alloc lower upper axes st o st' :
  write_bound lower upper axes st = (o, st') →
  cCounter st' = cCounter st ∧
  counter_mono (xCounter st) (xCounter st') ∧
  ∀ v, o = Return v →
    ∃ k n, xCounter st = NInt k ∧ xCounter st' = NInt (k + n) ∧
           token_cells v = map (token true) (seq k n).
Proof.
  rewrite write_bound_steps. intros H.
  apply stop_inv in H as [([ax shape] & _ & H)|[-> Hno]]; simpl in *.
  2: { split; [done |]. split; [apply counter_mono_refl | naive_solver]. }
  apply stop_inv in H as [(variables & Htok & H)|[-> Hno]]; simpl in *.
  2: { split; [done |]. split; [apply num_add_mono | naive_solver]. }
  apply token_array_cells in Htok as (x & y & Hx & Hy & ->).
  assert (∃ k n, xCounter st = NInt k ∧ Np.prod shape = NInt n ∧ x = k ∧ y = (k + n)%nat)
    as (k & n & Hk & Hn & -> & ->).
  { rewrite Hy in Hx. destruct (xCounter st), (Np.prod shape); simpl in *;
      simplify_eq. eexists _, _. repeat split. lia. }
  replace (k + n - k)%nat with n in H by lia.
  apply stop_inv in H as [(lines & _ & H)|[-> Hno]]; simpl in *.
  2: { split; [done |]. split; [apply num_add_mono | naive_solver]. }
  injection H as Ho <-. simpl. split; [done |]. split; [apply num_add_mono |].
  intros v ->. exists k, n. rewrite Hk, Hn. simpl. split; [done |]. split; [done |].
  by apply ser_or_frame_cells in Ho.
Qed.







(** ** write_constraint *)

Lemma elements_length shape v es :
  elements shape v = Some es → length es = Np.count shape.
Proof.
  destruct v as [| | s |[s d| |]| | |]; simpl; try done.
  - intros [= <-]. apply length_replicate.
  - case_decide; [|done]. intros [= <-]. tauto.
Qed.

Lemma py_add_elements shape d v es :
  length d = Np.count shape → elements shape v = Some es →
  py_add (VArray (ObjArr shape d)) v
  = Return (VArray (ObjArr shape (zip_with String.append d es))).
Proof.
  intros Hd. destruct v as [| | s |[s d'| |]| | |]; simpl; try done.
  - intros [= <-]. by rewrite zip_with_replicate_r_eq.
  - case_decide as H; [|done]. destruct H as [Hs Hd']. intros [= <-].
    rewrite Hs. by rewrite broadcast_to_same.
Qed.

Lemma py_add_array_string s d b :
  py_add (VArray (ObjArr s d)) (VStr b)
  = Return (VArray (ObjArr s (map (λ c, c +:+ b) d))).
Proof. reflexivity. Qed.

Lemma blocks_cells sense (ts ls rs : list string) :
  map (λ c, c +:+ Str.nl +:+ Str.nl)
    (zip_with String.append
       (map (λ c, c +:+ Str.nl)
          (map (λ c, c +:+ sense)
             (zip_with String.append (map (λ c, c +:+ ":" +:+ Str.nl) ts) ls)))
       rs)
  = zip_with (λ t lr, block sense t lr.1 lr.2) ts (zip ls rs).
Proof.
  revert ls rs; induction ts as [|t ts IH]; intros [|l ls] [|r rs]; simpl; try done.
  rewrite IH. f_equal. unfold block. by rewrite !string_app_assoc.
Qed.

Lemma broadcast_loop_shape dfs acc r :
  acc.2 = map length acc.1 → broadcast_loop acc dfs = Return r →
  r.2 = map length r.1.
Proof.
  revert acc; induction dfs as [|df dfs IH]; intros acc Hacc; simpl.
  { by intros [= <-]. }
  destruct (broadcast_step acc df) as [acc'| |] eqn:Hstep; simpl; try done.
  apply IH. unfold broadcast_step in Hstep.
  destruct (value_axes df); [|by simplify_eq].
  destruct (match last acc.1 with Some _ => _ | None => _ end); simpl in *;
    by simplify_eq.
Qed.

Lemma resolve_axes_shape axes a b ax shape :
  resolve_axes axes a b = Return (ax, shape) → shape = map length ax.
Proof.
  destruct axes as [[i|l]|]; simpl.
  - by intros [= <- <-].
  - by intros [= <- <-].
  - intros H. by apply broadcast_loop_shape in H.
Qed.

(** C7: for every element of the shape, [write_constraint] appends to the
    constraints sink the block of the freshly minted token, the text of the
    left-hand side followed by the sense, and the text of the right-hand
    side, where the sense [==] is written [=]; it returns the minted tokens
    in a series or a frame. *)
Theorem write_constraint_blocks (lhs rhs : value) (sense : string)
    (axes : option axes_arg) (st : state) (ax : list axis) (shape : list nat)
    (k : nat) (ls rs : list string) :
  resolve_axes axes lhs rhs = Return (ax, shape) →
  length shape = 1%nat ∨ length shape = 2%nat →
  cCounter st = NInt k →
  rendered shape lhs = Some ls →
  rendered shape rhs = Some rs →
  let n := Np.count shape in
  let tokens := map (token false) (seq k n) in
  let sense' := if String.eqb sense "==" then "=" else sense in
  let blocks := zip_with (λ t lr, block sense' t lr.1 lr.2) tokens (zip ls rs) in
  ∃ v, write_constraint lhs (VStr sense) rhs axes st
       = (Return v, set_constraints_f (constraints_f st ++ blocks)
                      (set_cCounter (NInt (k + n)) st))
       ∧ token_cells v = tokens
       ∧ length blocks = n.
Proof.
  intros Hax Hdim Hk Hl Hr n tokens sense' blocks.
  pose proof (resolve_axes_shape _ _ _ _ _ Hax) as Hshape.
  unfold rendered in Hl, Hr.
  destruct (_str_array lhs) as [L| |] eqn:HL; try done.
  destruct (_str_array rhs) as [R| |] eqn:HR; try done.
  pose proof (elements_length _ _ _ Hl) as Hlen_l.
  pose proof (elements_length _ _ _ Hr) as Hlen_r.
  assert (length tokens = n) as Hlen_t
    by (unfold tokens; by rewrite length_map, length_seq).
  assert (Np.prod shape = NInt n) as Hprod.
  { destruct shape; simpl in *; [lia | done]. }
  rewrite write_constraint_steps, Hax. cbn [stop fst snd].
  rewrite Hprod. cbn [cCounter set_cCounter]. rewrite Hk. cbn [Np.num_add Np.num_sub token_array].
  replace (k + n - n)%nat with k by lia.
  replace (k + n - k)%nat with n by lia.
  fold (token false). fold tokens.
  unfold constraint_blocks. rewrite HL, HR. cbn [normal_sense _str_array obind].
  fold sense'. cbn [stop].
  rewrite py_add_array_string. cbn [obind].
  rewrite (py_add_elements shape _ L ls); [|by rewrite length_map|done].
  cbn [obind]. repeat (rewrite py_add_array_string; cbn [obind]).
  rewrite (py_add_elements shape _ R rs);
    [|by rewrite !length_map, length_zip_with, length_map; lia|done].
  cbn [obind]. rewrite py_add_array_string. cbn [obind flatten stop].
  assert (∃ v, ser_or_frame shape (ObjArr shape tokens) ax = Return v) as [v Hv].
  { unfold ser_or_frame. subst shape.
    destruct ax as [|i [|c [|]]]; simpl in *; try lia; eauto. }
  exists v. rewrite Hv. split; [|split].
  - rewrite blocks_cells. reflexivity.
  - by apply ser_or_frame_cells in Hv.
  - unfold blocks. rewrite length_zip_with, length_zip. lia.
Qed.

(** ** The reference table *)

Lemma preserves_ret {A X} (f : state → X) (a : A) : preserves f (ret a).
Proof. done. Qed.

Lemma preserves_raise {A X} (f : state → X) e : preserves f (@raise A e).
Proof. done. Qed.

Lemma preserves_lift {A X} (f : state → X) (o : outcome A) : preserves f (lift o).
Proof. done. Qed.

Lemma preserves_get {X} (f : state → X) : preserves f get.
Proof. done. Qed.

Lemma preserves_modify {X} (f : state → X) g :
  (∀ st, f (g st) = f st) → preserves f (modify g).
Proof. intros H st. apply H. Qed.

Lemma preserves_bind {A B X} (f : state → X) (m : M A) (k : A → M B) :
  preserves f m → (∀ a, preserves f (k a)) → preserves f (bind m k).
Proof.
  intros Hm Hk st. unfold bind. specialize (Hm st).
  destruct (m st) as [[a| |] st1]; simpl in *; [|done..].
  by rewrite Hk.
Qed.

Ltac preserves_step :=
  first
    [ apply preserves_ret | apply preserves_raise | apply preserves_lift
    | apply preserves_get
    | apply preserves_modify; intros ?; reflexivity
    | apply preserves_bind; [|intros ?]
    | match goal with
      | |- preserves _ (match ?x with _ => _ end) => destruct x
      | |- preserves _ (if ?x then _ else _) => destruct x
      end ].

Ltac preserves_auto := repeat preserves_step.

Lemma n_pnl_preserves {X} (f : state → X) c : preserves f (n_pnl c).
Proof. intros st. unfold n_pnl, bind, get, ret, raise. by destruct (pnl st !! c). Qed.

Lemma n_df_preserves {X} (f : state → X) c : preserves f (n_df c).
Proof. intros st. unfold n_df, bind, get, ret, raise. by destruct (df st !! c). Qed.

Lemma pnl_store_preserves {X} (f : state → X) c name v :
  (∀ p st, f (set_pnl p st) = f st) → preserves f (pnl_store c name v).
Proof.
  intros H. unfold pnl_store. apply preserves_bind; [apply n_pnl_preserves |].
  intros d. apply preserves_modify. intros st. apply H.
Qed.

(** [_add_reference] writes to the two storage areas only. *)
Lemma _add_reference_preserves {X} (f : state → X) v c attr suffix pnl_ :
  (∀ p st, f (set_pnl p st) = f st) → (∀ p st, f (set_df p st) = f st) →
  preserves f (_add_reference v c attr suffix pnl_).
Proof.
  intros Hpnl Hdf. unfold _add_reference.
  repeat first
    [ apply n_pnl_preserves | apply n_df_preserves
    | apply pnl_store_preserves; assumption
    | apply preserves_modify; intros ?; apply Hdf
    | preserves_step ].
Qed.

Lemma set_varref_empty v c attr pnl_ spec st :
  Pd.empty v = Return true → set_varref v c attr pnl_ spec st = (Return (), st).
Proof. intros H. unfold set_varref, bind, lift. by rewrite H. Qed.

Lemma set_conref_empty v c attr pnl_ spec st :
  Pd.empty v = Return true → set_conref v c attr pnl_ spec st = (Return (), st).
Proof. intros H. unfold set_conref, bind, lift. by rewrite H. Qed.

Lemma set_varref_nonempty v c attr pnl_ spec st t :
  Pd.empty v = Return false → variables st = Some t →
  set_varref v c attr pnl_ spec st
  = _add_reference v c attr var_ref_suffix pnl_
      (set_variables (Some (<[(c, attr) := merged_entry (t !! (c, attr)) pnl_ spec]> t)) st).
Proof.
  intros H Ht. unfold set_varref, n_variables, bind, lift, get, modify, ret.
  rewrite H; simpl. rewrite Ht; simpl. unfold merged_entry.
  destruct (t !! (c, attr)) as [[flag s0]|]; [|done].
  by destruct (String.eqb spec "").
Qed.

Lemma set_conref_nonempty v c attr pnl_ spec st t :
  Pd.empty v = Return false → constraints st = Some t →
  set_conref v c attr pnl_ spec st
  = _add_reference v c attr con_ref_suffix pnl_
      (set_constraints (Some (<[(c, attr) := merged_entry (t !! (c, attr)) pnl_ spec]> t)) st).
Proof.
  intros H Ht. unfold set_conref, n_constraints, bind, lift, get, modify, ret.
  rewrite H; simpl. rewrite Ht; simpl. unfold merged_entry.
  destruct (t !! (c, attr)) as [[flag s0]|]; [|done].
  by destruct (String.eqb spec "").
Qed.

Lemma _add_reference_frame v c attr suffix st i cols sh cells d s :
  v = VFrame i cols (ObjArr sh cells) →
  pnl st !! c = Some d → df st !! c = Some s →
  (∀ i' cells', d !! (attr +:+ suffix) ≠ Some (PSeries i' cells')) →
  _add_reference v c attr suffix true st
  = (Return (),
     set_pnl (<[c := <[attr +:+ suffix :=
                         PFrame (stored_table (d !! (attr +:+ suffix))
                                   (Pd.frame_of i cols cells) s)]> d]>
                (pnl st)) st).
Proof.
  intros -> Hd Hs Hold.
  unfold _add_reference, stored_table, pnl_store, n_pnl, n_df, bind, get, modify,
    ret, raise, lift.
  destruct st as [xc cc bf cf vs cs pn dfs bas eff]. simpl in *. rewrite Hd.
  destruct (d !! (attr +:+ suffix)) as [[i' cells'|f]|] eqn:Hname; simpl.
  - by destruct (Hold i' cells').
  - rewrite Hd. simpl. rewrite !lookup_insert_eq. simpl. rewrite Hs. simpl.
    destruct (_ =? _)%nat; simpl.
    + rewrite !lookup_insert_eq. simpl. by rewrite !insert_insert_eq.
    + done.
  - rewrite Hd. simpl. rewrite !lookup_insert_eq. simpl. rewrite Hs. simpl.
    destruct (_ =? _)%nat; simpl.
    + rewrite !lookup_insert_eq. simpl. by rewrite !insert_insert_eq.
    + done.
Qed.

Lemma _add_reference_series v c attr suffix st rows sh cells s :
  v = VSeries rows (ObjArr sh cells) → df st !! c = Some s →
  _add_reference v c attr suffix false st
  = match Pd.loc_set s rows (attr +:+ suffix) (map Some cells) with
    | Return s' => (Return (), set_df (<[c := s']> (df st)) st)
    | Raise e => (Raise e, st)
    | Loops => (Loops, st)
    end.
Proof.
  intros -> Hs.
  unfold _add_reference, n_df, bind, get, modify, ret, raise, lift.
  rewrite Hs. simpl. unfold Pd.loc_set.
  by destruct (list_find _ rows) as [[k r]|].
Qed.

Lemma _add_reference_stores v c attr suffix pnl_ st :
  stores_tokens v c (attr +:+ suffix) pnl_ st (_add_reference v c attr suffix pnl_ st).
Proof.
  split.
  - intros -> i cols sh cells d s. by apply _add_reference_frame.
  - intros -> rows sh cells s. by apply _add_reference_series.
Qed.

(** C8: with an empty token container [set_varref] and [set_conref] leave
    the network as it is.  With tokens, a key that is already registered and
    a non-empty specification give the old flag and the old specification
    with the new one appended after a comma; otherwise the flag and the
    specification of the call are written; in both cases the tokens are then
    stored by [_add_reference], which touches neither table: a frame of
    tokens goes under the name of the attribute into the time-dependent
    quantities of the component, a series of tokens into a column of its
    static table, the flag of the call, not that of the entry, deciding
    where. *)
Theorem set_ref_registers (v : value) (c attr : string) (pnl_ : bool)
    (spec : string) (st : state) :
  (Pd.empty v = Return true →
     set_varref v c attr pnl_ spec st = (Return (), st) ∧
     set_conref v c attr pnl_ spec st = (Return (), st)) ∧
  (Pd.empty v = Return false →
     (∀ t, variables st = Some t →
        ∃ entry,
          set_varref v c attr pnl_ spec st
          = _add_reference v c attr var_ref_suffix pnl_
              (set_variables (Some (<[(c, attr) := entry]> t)) st) ∧
          variables (set_varref v c attr pnl_ spec st).2
          = Some (<[(c, attr) := entry]> t) ∧
          constraints (set_varref v c attr pnl_ spec st).2 = constraints st ∧
          (∀ flag s0, t !! (c, attr) = Some (flag, s0) → spec ≠ "" →
             entry = (flag, s0 +:+ ", " +:+ spec)) ∧
          (t !! (c, attr) = None ∨ spec = "" → entry = (pnl_, spec)) ∧
          stores_tokens v c (attr +:+ var_ref_suffix) pnl_
            (set_variables (Some (<[(c, attr) := entry]> t)) st)
            (set_varref v c attr pnl_ spec st)) ∧
     (∀ t, constraints st = Some t →
        ∃ entry,
          set_conref v c attr pnl_ spec st
          = _add_reference v c attr con_ref_suffix pnl_
              (set_constraints (Some (<[(c, attr) := entry]> t)) st) ∧
          constraints (set_conref v c attr pnl_ spec st).2
          = Some (<[(c, attr) := entry]> t) ∧
          variables (set_conref v c attr pnl_ spec st).2 = variables st ∧
          (∀ flag s0, t !! (c, attr) = Some (flag, s0) → spec ≠ "" →
             entry = (flag, s0 +:+ ", " +:+ spec)) ∧
          (t !! (c, attr) = None ∨ spec = "" → entry = (pnl_, spec)) ∧
          stores_tokens v c (attr +:+ con_ref_suffix) pnl_
            (set_constraints (Some (<[(c, attr) := entry]> t)) st)
            (set_conref v c attr pnl_ spec st))).
Proof.
  assert (∀ t : reftable,
            (∀ flag s0, t !! (c, attr) = Some (flag, s0) → spec ≠ "" →
               merged_entry (t !! (c, attr)) pnl_ spec = (flag, s0 +:+ ", " +:+ spec)) ∧
            (t !! (c, attr) = None ∨ spec = "" →
               merged_entry (t !! (c, attr)) pnl_ spec = (pnl_, spec))) as Hentry.
  { intros t. unfold merged_entry. split.
    - intros flag s0 -> Hspec. apply String.eqb_neq in Hspec. by rewrite Hspec.
    - intros [-> | ->]; [done |]. by destruct (t !! (c, attr)) as [[]|]. }
  split.
  - intros He. split; [by apply set_varref_empty | by apply set_conref_empty].
  - intros He. split; intros t Ht; exists (merged_entry (t !! (c, attr)) pnl_ spec).
    + rewrite (set_varref_nonempty _ _ _ _ _ _ t) by done.
      split; [done |]. split; [|split; [|split; [|split]]].
      * by rewrite (_add_reference_preserves variables).
      * by rewrite (_add_reference_preserves constraints).
      * apply Hentry.
      * apply Hentry.
      * apply _add_reference_stores.
    + rewrite (set_conref_nonempty _ _ _ _ _ _ t) by done.
      split; [done |]. split; [|split; [|split; [|split]]].
      * by rewrite (_add_reference_preserves constraints).
      * by rewrite (_add_reference_preserves variables).
      * apply Hentry.
      * apply Hentry.
      * apply _add_reference_stores.
Qed.

(** ** clear_references *)

Lemma clear_fold_lookup (ks : list string) (d : gmap string pandas) (k : string) :
  fold_left (λ d k, if is_reference_key k then delete k d else d) ks d !! k
  = if is_reference_key k && bool_decide (k ∈ ks) then None else d !! k.
Proof.
  revert d; induction ks as [|k' ks IH]; intros d; simpl.
  { by rewrite andb_false_r. }
  rewrite IH. destruct (is_reference_key k) eqn:Hk; simpl; [|
    destruct (is_reference_key k') eqn:Hk'; [|done];
    rewrite lookup_delete_ne; [done | by intros ->; congruence]].
  destruct (bool_decide (k ∈ ks)) eqn:Hin.
  - apply bool_decide_eq_true in Hin.
    rewrite bool_decide_eq_true_2; [done | by right].
  - apply bool_decide_eq_false in Hin.
    destruct (decide (k = k')) as [<-|Hne].
    + rewrite bool_decide_eq_true_2 by left. rewrite Hk. apply lookup_delete_eq.
    + rewrite bool_decide_eq_false_2 by (by intros [?|?]%elem_of_cons).
      destruct (is_reference_key k'); [by rewrite lookup_delete_ne |done].
Qed.

Lemma clear_keys_lookup (d : gmap string pandas) (k : string) :
  clear_keys d !! k = if is_reference_key k then None else d !! k.
Proof.
  unfold clear_keys. rewrite clear_fold_lookup.
  destruct (is_reference_key k); simpl; [|done].
  case_bool_decide as Hin; [done |].
  destruct (d !! k) as [v|] eqn:Hv; [|done].
  destruct Hin. apply list_elem_of_fmap. exists (k, v). split; [done |].
  by apply elem_of_map_to_list.
Qed.

Lemma contains_spec (p s : string) :
  Str.contains p s = true ↔ ∃ pre post, s = pre +:+ p +:+ post.
Proof.
  assert (∀ p s, String.prefix p s = true ↔ ∃ post, s = p +:+ post) as Hprefix.
  { clear. induction p as [|x p IH]; intros [|y s]; simpl.
    - split; [by exists "" | done].
    - split; [by exists (String y s) | done].
    - split; [done | by intros [? ?]].
    - destruct (ascii_dec x y) as [<-|Hne].
      + rewrite IH. split; intros [post H]; exists post.
        * by rewrite string_app_cons, H.
        * rewrite string_app_cons in H. congruence.
      + split; [done |]. intros [post H]. rewrite string_app_cons in H. congruence. }
  induction s as [|y s IH]; cbn [Str.contains].
  - rewrite orb_false_r, Hprefix. split.
    + intros [post H]. by exists "", post.
    + intros ([|? pre] & post & H); [eauto | done].
  - rewrite orb_true_iff, Hprefix, IH. split.
    + intros [[post H]|(pre & post & H)].
      * by exists "", post.
      * exists (String y pre), post. by rewrite string_app_cons, H.
    + intros ([|x pre] & post & H).
      * left. eauto.
      * right. rewrite string_app_cons in H. injection H as -> H. eauto.
Qed.

(** C9: the test of [clear_references] is true exactly when the key contains
    one of the two suffixes, so that exactly the entries with such a key are
    removed from every dictionary of time-dependent quantities. *)
Theorem clear_references_removes_both_suffixes (st : state) (c k : string) :
  is_reference_key k
  = Str.contains con_ref_suffix k || Str.contains var_ref_suffix k
  ∧ (is_reference_key k = true ↔
       ∃ pre post, k = pre +:+ con_ref_suffix +:+ post
                 ∨ k = pre +:+ var_ref_suffix +:+ post)
  ∧ (clear_references st).1 = Return ()
  ∧ (pnl (clear_references st).2 !! c) ≫= (λ d, d !! k)
    = if Str.contains con_ref_suffix k || Str.contains var_ref_suffix k
      then None else (pnl st !! c) ≫= (λ d, d !! k).
Proof.
  assert (is_reference_key k
          = Str.contains con_ref_suffix k || Str.contains var_ref_suffix k) as Hkey.
  { unfold is_reference_key, py_or, py_neg, truthy.
    by destruct (Str.contains con_ref_suffix k), (Str.contains var_ref_suffix k). }
  split; [done |]. split; [|split].
  - rewrite Hkey, orb_true_iff, !contains_spec. split.
    + intros [(pre & post & H)|(pre & post & H)]; exists pre, post; auto.
    + intros (pre & post & [H|H]); [left | right]; eauto.
  - unfold clear_references, bind, modify. simpl. done.
  - rewrite <- Hkey.
    assert (pnl (clear_references st).2 = clear_keys <$> pnl st) as ->.
    { unfold clear_references, bind, modify; simpl.
      destruct (variables st); simpl; by destruct (constraints st). }
    rewrite lookup_fmap. destruct (pnl st !! c) as [d|]; simpl.
    + apply clear_keys_lookup.
    + by destruct (is_reference_key k).
Qed.

(** ** The solver readers: what is deleted, and when *)

Lemma removals_app es1 es2 : removals (es1 ++ es2) = removals es1 ++ removals es2.
Proof. apply List.filter_app. Qed.

Lemma removes_after_success_extend problem_fn solution_fn keep_files st st1 es1 r :
  effects st1 = effects st ++ es1 → removals es1 = [] →
  removes_after_success problem_fn solution_fn keep_files st1 r →
  removes_after_success problem_fn solution_fn keep_files st r.
Proof.
  intros Hes1 Hrm (es & Hes & Hopt & Hdel).
  exists (es1 ++ es). split; [by rewrite Hes, Hes1, app_assoc |].
  split; [done |].
  destruct (returned_solution r.1 && negb keep_files).
  - destruct Hdel as (pre & -> & Hpre & Hin). exists (es1 ++ pre).
    split; [by rewrite app_assoc |]. split.
    + by rewrite removals_app, Hrm, Hpre.
    + apply elem_of_app. by right.
  - by rewrite removals_app, Hrm, Hdel.
Qed.

Lemma removes_after_success_raise problem_fn solution_fn keep_files st e :
  removes_after_success problem_fn solution_fn keep_files st (Raise e, st).
Proof.
  exists []. split; [by rewrite app_nil_r |]. split; [done |]. done.
Qed.

Ltac trace_eq := simpl; rewrite <- ?app_assoc; reflexivity.
Ltac nothing_removed :=
  split; [simpl; intros; by simplify_eq | simpl; reflexivity].

Section Readers.

Variable pd_read_csv : list string → outcome (list (string * datum * datum)).
Variable pd_read_fwf : list string → outcome (list (string * datum * datum)).

Lemma run_and_read_cbc_read w problem_fn solution_fn solver_logfile
    solver_options keep_files warmstart store_basis st :
  ∃ st1 es1,
    (run_and_read_cbc pd_read_csv w problem_fn solution_fn solver_logfile
       solver_options keep_files warmstart store_basis st
     = cbc_read pd_read_csv w problem_fn solution_fn keep_files st1
     ∨ ∃ e, run_and_read_cbc pd_read_csv w problem_fn solution_fn solver_logfile
              solver_options keep_files warmstart store_basis st
            = (Raise e, st1))
    ∧ effects st1 = effects st ++ es1 ∧ removals es1 = [].
Proof.
  unfold run_and_read_cbc.
  destruct warmstart as [[|??]|], solver_options as [[?|[|??]]|],
    store_basis, solver_logfile;
    (eexists _, _; split;
     [first [left; reflexivity | right; eexists; reflexivity]
     |split; [simpl; rewrite <- ?app_assoc; first [reflexivity | symmetry; apply app_nil_r]
             |reflexivity]]).
Qed.

Lemma cbc_read_removes w problem_fn solution_fn keep_files st :
  removes_after_success problem_fn solution_fn keep_files st
    (cbc_read pd_read_csv w problem_fn solution_fn keep_files st).
Proof.
  unfold cbc_read, open_file, remove_files, bind, lift, modify, ret, raise.
  destruct (solution_file w) as [lines|]; [|apply removes_after_success_raise].
  simpl.
  destruct (Str.startswith _ _).
  - destruct (Float.parse _); simpl.
    2: { exists [FileRead solution_fn]. split; [done |]. nothing_removed. }
    destruct (pd_read_csv lines) as [sol| |]; simpl.
    2,3: exists [FileRead solution_fn; FileRead solution_fn];
         split; [trace_eq |]; nothing_removed.
    destruct keep_files; simpl.
    + exists [FileRead solution_fn; FileRead solution_fn].
      split; [trace_eq |]. nothing_removed.
    + eexists. split; [trace_eq |].
      split; [simpl; intros; by simplify_eq |]. simpl.
      exists [FileRead solution_fn; FileRead solution_fn].
      split; [done |]. split; [done |]. apply elem_of_cons. by left.
  - destruct (Str.contains _ _); simpl;
      (exists [FileRead solution_fn]; split; [done |]; nothing_removed).
Qed.

Lemma run_and_read_cbc_removes w problem_fn solution_fn solver_logfile
    solver_options keep_files warmstart store_basis st :
  removes_after_success problem_fn solution_fn keep_files st
    (run_and_read_cbc pd_read_csv w problem_fn solution_fn solver_logfile
       solver_options keep_files warmstart store_basis st).
Proof.
  destruct (run_and_read_cbc_read w problem_fn solution_fn solver_logfile
              solver_options keep_files warmstart store_basis st)
    as (st1 & es1 & [-> | [e ->]] & Hes & Hrm);
    eapply removes_after_success_extend; try done.
  - apply cbc_read_removes.
  - apply removes_after_success_raise.
Qed.

Lemma run_and_read_glpk_read w problem_fn solution_fn solver_logfile
    solver_options keep_files warmstart store_basis st :
  ∃ st1 es1,
    (run_and_read_glpk pd_read_fwf w problem_fn solution_fn solver_logfile
       solver_options keep_files warmstart store_basis st
     = glpk_read pd_read_fwf w problem_fn solution_fn keep_files st1
     ∨ ∃ e, run_and_read_glpk pd_read_fwf w problem_fn solution_fn solver_logfile
              solver_options keep_files warmstart store_basis st
            = (Raise e, st1))
    ∧ effects st1 = effects st ++ es1 ∧ removals es1 = [].
Proof.
  unfold run_and_read_glpk.
  destruct warmstart as [[|??]|], solver_options as [[?|[|??]]|],
    store_basis, solver_logfile;
    (eexists _, _; split;
     [first [left; reflexivity | right; eexists; reflexivity]
     |split; [simpl; rewrite <- ?app_assoc; first [reflexivity | symmetry; apply app_nil_r]
             |reflexivity]]).
Qed.

Lemma glpk_read_removes w problem_fn solution_fn keep_files st :
  removes_after_success problem_fn solution_fn keep_files st
    (glpk_read pd_read_fwf w problem_fn solution_fn keep_files st).
Proof.
  unfold glpk_read, open_file, remove_files, bind, lift, modify, ret, raise.
  destruct (solution_file w) as [lines|]; [|apply removes_after_success_raise].
  simpl.
  destruct (Glpk.read_info lines) as [[info data]|]; simpl.
  2: { exists [FileRead solution_fn]. split; [done |]. nothing_removed. }
  destruct (Glpk.field "Status" info) as [[status|]| |]; simpl.
  2-4: exists [FileRead solution_fn]; split; [done |]; nothing_removed.
  destruct (Glpk.field "Objective" info) as [[objective|]| |]; simpl.
  2-4: exists [FileRead solution_fn]; split; [done |]; nothing_removed.
  destruct (Glpk.objective objective) as [value| |]; simpl.
  2,3: exists [FileRead solution_fn]; split; [done |]; nothing_removed.
  destruct (String.eqb (Str.strip (Str.lower status)) "optimal") eqn:Hopt; simpl.
  2: { exists [FileRead solution_fn]. split; [done |]. nothing_removed. }
  apply String.eqb_eq in Hopt.
  destruct (pd_read_fwf data) as [sol| |]; simpl.
  2,3: exists [FileRead solution_fn]; split; [done |]; nothing_removed.
  destruct (Glpk.astype_float _) as [variables_sol| |]; simpl.
  2,3: exists [FileRead solution_fn]; split; [done |]; nothing_removed.
  destruct keep_files; simpl.
  - exists [FileRead solution_fn]. split; [done |].
    split; [simpl; intros; by simplify_eq | reflexivity].
  - eexists. split; [trace_eq |].
    split; [simpl; intros; by simplify_eq |]. simpl.
    exists [FileRead solution_fn].
    split; [done |]. split; [done |]. apply elem_of_cons. by left.
Qed.

Lemma run_and_read_glpk_removes w problem_fn solution_fn solver_logfile
    solver_options keep_files warmstart store_basis st :
  removes_after_success problem_fn solution_fn keep_files st
    (run_and_read_glpk pd_read_fwf w problem_fn solution_fn solver_logfile
       solver_options keep_files warmstart store_basis st).
Proof.
  destruct (run_and_read_glpk_read w problem_fn solution_fn solver_logfile
              solver_options keep_files warmstart store_basis st)
    as (st1 & es1 & [-> | [e ->]] & Hes & Hrm);
    eapply removes_after_success_extend; try done.
  - apply glpk_read_removes.
  - apply removes_after_success_raise.
Qed.

End Readers.

Section Gurobi.

Variable Status : list (string * Z).

Lemma effects_fold_emit {A} (f : A → effect) (l : list A) st :
  effects (fold_left (λ st a, emit (f a) st) l st) = effects st ++ map f l.
Proof.
  revert st; induction l as [|a l IH]; intros st; simpl.
  - by rewrite app_nil_r.
  - rewrite IH. simpl. by rewrite <- app_assoc.
Qed.

Lemma removals_set_params (l : list (string * string)) :
  removals (map (λ kv, GurobiSetParam kv.1 kv.2) l) = [].
Proof. induction l; simpl; done. Qed.

Lemma run_and_read_gurobi_effects m problem_fn solution_fn solver_logfile
    solver_options keep_files warmstart store_basis st :
  (∀ s, solver_options ≠ Some (OptString s)) →
  effects (run_and_read_gurobi Status m problem_fn solution_fn solver_logfile
             solver_options keep_files warmstart store_basis st).2
  = effects st
    ++ gurobi_solving problem_fn solution_fn solver_logfile
         (option_items solver_options) warmstart store_basis (g_write_fails m)
    ++ (if keep_files then [] else [OsSystem ("rm " +:+ problem_fn)]).
Proof.
  intros Hopts. unfold run_and_read_gurobi, gurobi_solving.
  destruct solver_options as [[s|items]|]; [by destruct (Hopts s) | |];
    destruct solver_logfile, warmstart as [[|??]|], store_basis,
      (g_write_fails m), keep_files;
    unfold bind, lift, modify, ret, raise; simpl;
    (destruct (statusmap Status !! g_status m) as [status|];
     [destruct (negb (String.eqb status "optimal"))|]);
    simpl; rewrite ?effects_fold_emit; simpl; rewrite <- ?app_assoc; simpl;
    reflexivity.
Qed.

Lemma gurobi_solving_quiet problem_fn solution_fn solver_logfile items
    warmstart store_basis write_fails :
  removals (gurobi_solving problem_fn solution_fn solver_logfile items
              warmstart store_basis write_fails) = []
  ∧ GurobiOptimize ∈ gurobi_solving problem_fn solution_fn solver_logfile items
                        warmstart store_basis write_fails.
Proof.
  unfold gurobi_solving. split.
  - rewrite !removals_app.
    assert (removals match items, solver_logfile with
                     | Some l, Some logfile =>
                         map (λ kv, GurobiSetParam kv.1 kv.2)
                           (Pd.set_assoc "logfile" logfile l)
                     | Some l, None => map (λ kv, GurobiSetParam kv.1 kv.2) l
                     | None, _ => []
                     end = []) as ->.
    { destruct items, solver_logfile; auto using removals_set_params. }
    by destruct (given warmstart), store_basis, write_fails.
  - rewrite !elem_of_app. right. right. right. left. apply elem_of_cons. by left.
Qed.

End Gurobi.

(** ** The solver readers: what is returned *)

(** C1 fails for [run_and_read_cbc]: the local [status] is bound in the
    optimal branch only, so that whatever else the first line of the
    solution file says, the early return reads an unbound local and the call
    raises instead of returning the tuple without a solution. *)
Theorem run_and_read_cbc_not_optimal
    (pd_read_csv : list string → outcome (list (string * datum * datum)))
    (w : world) (lines : list string) (problem_fn solution_fn : string)
    (solver_logfile : option string) (solver_options : option options)
    (keep_files : bool) (warmstart : option string) (store_basis : bool)
    (st : state) :
  solution_file w = Some lines →
  Str.startswith "Optimal - objective value" (hd "" lines) = false →
  (∀ kv l, solver_options ≠ Some (OptDict (kv :: l))) →
  (run_and_read_cbc pd_read_csv w problem_fn solution_fn solver_logfile
     solver_options keep_files warmstart store_basis st).1
  = Raise (UnboundLocalError "status").
Proof.
  intros Hfile Hstart Hopts. unfold run_and_read_cbc.
  destruct solver_options as [[?|[|kv l]]|]; try (by destruct (Hopts kv l));
    destruct warmstart as [[|??]|], store_basis, solver_logfile;
    unfold open_file, bind, lift, modify, ret, raise; simpl;
    rewrite Hfile; simpl; rewrite Hstart;
    by destruct (Str.contains "Infeasible" (hd "" lines)).
Qed.

Lemma run_and_read_cbc_not_optimal_witness :
  (run_and_read_cbc two_rows cbc_infeasible "problem.lp" "problem.sol"
     None None true None true empty_state).1
  = Raise (UnboundLocalError "status").
Proof.
  apply (run_and_read_cbc_not_optimal two_rows cbc_infeasible
           ["Infeasible - objective value 0.00000000" +:+ Str.nl]).
  - reflexivity.
  - reflexivity.
  - intros kv l. discriminate.
Defined.

(** The two other readers do return the tuple without a solution. *)
Lemma run_and_read_glpk_not_optimal pd_read_fwf w lines info data text
    objective_text objective problem_fn solution_fn solver_logfile solver_options
    keep_files warmstart store_basis st :
  solution_file w = Some lines →
  Glpk.read_info lines = Some (info, data) →
  Glpk.field "Status" info = Return (Some text) →
  Glpk.field "Objective" info = Return (Some objective_text) →
  Glpk.objective objective_text = Return objective →
  Str.strip (Str.lower text) ≠ "optimal" →
  (∀ kv l, solver_options ≠ Some (OptDict (kv :: l))) →
  (run_and_read_glpk pd_read_fwf w problem_fn solution_fn solver_logfile
     solver_options keep_files warmstart store_basis st).1
  = Return (Str.strip (Str.lower text), Str.strip (Str.lower text), None, None, None).
Proof.
  intros Hfile Hinfo Hstatus Hobj Hval Hne%String.eqb_neq Hopts.
  unfold run_and_read_glpk.
  destruct solver_options as [[?|[|kv l]]|]; try (by destruct (Hopts kv l));
    destruct warmstart as [[|??]|], store_basis, solver_logfile;
    unfold open_file, bind, lift, modify, ret, raise; simpl;
    rewrite Hfile; simpl; rewrite Hinfo; simpl; rewrite Hstatus; simpl;
    rewrite Hobj; simpl; rewrite Hval; simpl; by rewrite Hne.
Qed.

Lemma run_and_read_gurobi_not_optimal Status m status problem_fn solution_fn
    solver_logfile solver_options keep_files warmstart store_basis st :
  statusmap Status !! g_status m = Some status →
  status ≠ "optimal" →
  (∀ s, solver_options ≠ Some (OptString s)) →
  (run_and_read_gurobi Status m problem_fn solution_fn solver_logfile
     solver_options keep_files warmstart store_basis st).1
  = Return (status, status, None, None, None).
Proof.
  intros Hstatus Hne%String.eqb_neq Hopts. unfold run_and_read_gurobi.
  destruct solver_options as [[s|items]|]; [by destruct (Hopts s) | |];
    destruct solver_logfile, warmstart as [[|??]|], store_basis,
      (g_write_fails m), keep_files;
    unfold bind, lift, modify, ret, raise; simpl;
    rewrite Hstatus; simpl; by rewrite Hne.
Qed.

Example run_and_read_cbc_infeasible_raises
    (pd_read_csv : list string → outcome (list (string * datum * datum)))
    (st : state) :
  (run_and_read_cbc pd_read_csv cbc_infeasible "problem.lp" "problem.sol"
     None None true None true st).1
  = Raise (UnboundLocalError "status").
Proof. reflexivity. Qed.

(** ** The objective that run_and_read_glpk returns *)






(** C3 fails: for the header line [Objective:  obj = -12.5 (MINimum)] the
    sign and the decimal point are stripped with the other characters, and
    the objective that is returned is 125. *)
Theorem run_and_read_glpk_objective_loses_sign_and_point (st : state) :
  Glpk.objective "  obj = -12.5 (MINimum)" = Return (mkfloat 125 0)
  ∧ (run_and_read_glpk two_rows glpk_optimal "problem.lp" "problem.sol"
       None None true None true st).1
    = Return ("optimal", "optimal",
              Some [("x0", DNum (mkfloat 15 (-1)))],
              Some [("c0", DNum (mkfloat 5 (-1)))],
              Some (mkfloat 125 0)).
Proof. split; reflexivity. Qed.

(** C10: with [keep_files] false, [run_and_read_cbc] and [run_and_read_glpk]
    remove the problem file and the solution file as their last two steps,
    after the solution file was read, exactly when they hand out a solution,
    which they do for the condition optimal only; in every other case they
    remove nothing.  [run_and_read_gurobi] removes the problem file only, as
    its last effect after the model was optimized, whatever the status
    is. *)
Theorem files_removed_after_parse :
  (∀ pd_read_csv w problem_fn solution_fn solver_logfile solver_options
     keep_files warmstart store_basis st,
     removes_after_success problem_fn solution_fn keep_files st
       (run_and_read_cbc pd_read_csv w problem_fn solution_fn solver_logfile
          solver_options keep_files warmstart store_basis st)) ∧
  (∀ pd_read_fwf w problem_fn solution_fn solver_logfile solver_options
     keep_files warmstart store_basis st,
     removes_after_success problem_fn solution_fn keep_files st
       (run_and_read_glpk pd_read_fwf w problem_fn solution_fn solver_logfile
          solver_options keep_files warmstart store_basis st)) ∧
  (∀ Status m problem_fn solution_fn solver_logfile solver_options
     keep_files warmstart store_basis st,
     (∀ s, solver_options ≠ Some (OptString s)) →
     ∃ pre,
       effects (run_and_read_gurobi Status m problem_fn solution_fn solver_logfile
                  solver_options keep_files warmstart store_basis st).2
       = effects st ++ pre
         ++ (if keep_files then [] else [OsSystem ("rm " +:+ problem_fn)])
       ∧ removals pre = [] ∧ GurobiOptimize ∈ pre).
Proof.
  split; [|split].
  - intros. apply run_and_read_cbc_removes.
  - intros. apply run_and_read_glpk_removes.
  - intros Status m problem_fn solution_fn solver_logfile solver_options
      keep_files warmstart store_basis st Hopts.
    eexists. split; [by apply run_and_read_gurobi_effects |].
    apply gurobi_solving_quiet.
Qed.

Lemma files_removed_after_parse_witness :
  removes_after_success "problem.lp" "problem.sol" false empty_state
    (run_and_read_cbc two_rows cbc_optimal "problem.lp" "problem.sol"
       None None false None true empty_state)
  ∧ removes_after_success "problem.lp" "problem.sol" false empty_state
      (run_and_read_glpk two_rows glpk_optimal "problem.lp" "problem.sol"
         None None false None true empty_state)
  ∧ ∃ pre,
      effects (run_and_read_gurobi GRB_Status (mkgurobi 3 [] [] zero false)
                 "problem.lp" "problem.sol" None None false None true
                 empty_state).2
      = effects empty_state ++ pre ++ [OsSystem "rm problem.lp"]
      ∧ removals pre = [] ∧ GurobiOptimize ∈ pre.
Proof.
  split; [|split].
  - apply (proj1 files_removed_after_parse).
  - apply (proj1 (proj2 files_removed_after_parse)).
  - apply (proj2 (proj2 files_removed_after_parse) GRB_Status
             (mkgurobi 3 [] [] zero false) "problem.lp" "problem.sol"
             None None false None true empty_state).
    intros s. discriminate.
Defined.

(** The three readers on files of a solved problem, and the gurobi reader on
    an infeasible one: the files that are removed. *)
Example cbc_optimal_removes_both :
  run_and_read_cbc two_rows cbc_optimal "problem.lp" "problem.sol"
    None None false None false empty_state
  = (Return ("optimal", "optimal",
             Some [("x0", DNum (mkfloat 15 (-1)))],
             Some [("c0", DNum (mkfloat 5 (-1)))],
             Some (mkfloat 420 (-1))),
     mkstate (NInt 0) (NInt 0) [] [] (Some ∅) (Some ∅) ∅ ∅ None
       [OsSystem "cbc -printingOptions all -import problem.lp -solve -solu problem.sol ";
        FileRead "problem.sol"; FileRead "problem.sol";
        OsSystem "rm problem.lp"; OsSystem "rm problem.sol"]).
Proof. reflexivity. Qed.

Example cbc_infeasible_keeps_both :
  (run_and_read_cbc two_rows cbc_infeasible "problem.lp" "problem.sol"
     None None false None false empty_state).2
  = mkstate (NInt 0) (NInt 0) [] [] (Some ∅) (Some ∅) ∅ ∅ None
      [OsSystem "cbc -printingOptions all -import problem.lp -solve -solu problem.sol ";
       FileRead "problem.sol"].
Proof. reflexivity. Qed.

Example gurobi_infeasible_removes_problem :
  run_and_read_gurobi GRB_Status (mkgurobi 3 [] [] zero false)
    "problem.lp" "problem.sol" None None false None true empty_state
  = (Return ("infeasible", "infeasible", None, None, None),
     mkstate (NInt 0) (NInt 0) [] [] (Some ∅) (Some ∅) ∅ ∅ (Some "problem.bas")
       [LoggingDisable 50; GurobiRead "problem.lp"; GurobiOptimize;
        LoggingDisable 1; GurobiWrite "problem.bas"; OsSystem "rm problem.lp"]).
Proof. reflexivity. Qed.

Example glpk_infeasible_returns :
  (run_and_read_glpk two_rows
     (mkworld "" (Some ["Status:     INFEASIBLE (FINAL)" +:+ Str.nl;
                        "Objective:  obj = 0 (MINimum)" +:+ Str.nl; Str.nl]))
     "problem.lp" "problem.sol" None None false None false empty_state).1
  = Return ("infeasible (final)", "infeasible (final)", None, None, None).
Proof. reflexivity. Qed.

(** ** Instances *)

Lemma write_constraint_blocks_witness :
  ∃ v, write_constraint
         (VArray (ObjArr [2] ["+1.0 x0" +:+ Str.nl; "+1.0 x1" +:+ Str.nl]))
         (VStr "==") (VFloat zero) (Some (AxIndex ["a"; "b"])) empty_state
       = (Return v,
          set_constraints_f
            (constraints_f empty_state ++
             zip_with (λ t lr, block "=" t lr.1 lr.2)
               (map (token false) (seq 0 2))
               (zip ["+1.0 x0" +:+ Str.nl; "+1.0 x1" +:+ Str.nl] ["+0.0 "; "+0.0 "]))
            (set_cCounter (NInt (0 + 2)) empty_state))
       ∧ token_cells v = map (token false) (seq 0 2)
       ∧ length (zip_with (λ t lr, block "=" t lr.1 lr.2)
                   (map (token false) (seq 0 2))
                   (zip ["+1.0 x0" +:+ Str.nl; "+1.0 x1" +:+ Str.nl]
                      ["+0.0 "; "+0.0 "])) = 2%nat.
Proof.
  apply (write_constraint_blocks
           (VArray (ObjArr [2] ["+1.0 x0" +:+ Str.nl; "+1.0 x1" +:+ Str.nl]))
           (VFloat zero) "==" (Some (AxIndex ["a"; "b"])) empty_state
           [["a"; "b"]] [2] 0
           ["+1.0 x0" +:+ Str.nl; "+1.0 x1" +:+ Str.nl] ["+0.0 "; "+0.0 "]).
  - reflexivity.
  - left. reflexivity.
  - reflexivity.
  - reflexivity.
  - reflexivity.
Defined.

Example write_constraint_two_blocks :
  write_constraint
    (VArray (ObjArr [2] ["+1.0 x0" +:+ Str.nl; "+1.0 x1" +:+ Str.nl]))
    (VStr "==") (VFloat zero) (Some (AxIndex ["a"; "b"])) empty_state
  = (Return (VSeries ["a"; "b"] (ObjArr [2] ["c0"; "c1"])),
     set_constraints_f
       ["c0:" +:+ Str.nl +:+ "+1.0 x0" +:+ Str.nl +:+ "=" +:+ Str.nl +:+ "+0.0 "
          +:+ Str.nl +:+ Str.nl;
        "c1:" +:+ Str.nl +:+ "+1.0 x1" +:+ Str.nl +:+ "=" +:+ Str.nl +:+ "+0.0 "
          +:+ Str.nl +:+ Str.nl]
       (set_cCounter (NInt 2) empty_state)).
Proof. reflexivity. Qed.

Example three_calls_minted :
  minted true (session three_calls (reset_counter empty_state).2).1
  = ["x0"; "x1"; "x2"; "x3"; "x4"; "x5"]
  ∧ minted false (session three_calls (reset_counter empty_state).2).1 = ["c0"].
Proof. split; reflexivity. Qed.


(** A call on a shape without axes makes the counter a float, and no later
    call of the session mints a token. *)
Example scalar_bounds_poison_the_counter :
  (session [WriteBound (VFloat zero) (VFloat one) None;
            WriteBound (VFloat zero) (VFloat one) (Some (AxIndex ["a"]))]
     (reset_counter empty_state).2).1.*2
  = [Raise (TypeError "'numpy.float64' object cannot be interpreted as an integer");
     Raise (TypeError "'numpy.float64' object cannot be interpreted as an integer")].
Proof. reflexivity. Qed.

(** Bounds that come as integer arrays are printed without a fraction. *)
Example write_bound_integer_bounds :
  bounds_f (write_bound (VArray (IntArr [2] [0; 0]%Z)) (VArray (IntArr [2] [1; 2]%Z))
              (Some (AxIndex ["a"; "b"])) empty_state).2
  = ["+0  <= x0 <= +1 " +:+ Str.nl; "+0  <= x1 <= +2 " +:+ Str.nl].
Proof. reflexivity. Qed.

(** The smallest [int64] has no absolute value and is printed with two
    signs. *)
Example _str_array_smallest_int64 :
  _str_array (VArray (IntArr [2] [(- 2 ^ 63)%Z; (-3)%Z]))
  = Return (VArray (ObjArr [2] ["--9223372036854775808 "; "-3 "])).
Proof. reflexivity. Qed.

(** Over an empty index empty float operands add to the empty array of
    tokens, and [write_constraint] returns; [write_bound], which puts the
    bound in front, raises. *)
Example writers_on_empty_floats :
  (write_constraint (VArray (FloatArr [0] [])) (VStr "==") (VArray (FloatArr [0] []))
     (Some (AxIndex [])) empty_state).1
  = Return (VSeries [] (ObjArr [0] []))
  ∧ (write_bound (VArray (FloatArr [0] [])) (VArray (FloatArr [0] []))
       (Some (AxIndex [])) empty_state).1
    = Raise (TypeError "unsupported operand type(s) for +").
Proof. split; reflexivity. Qed.

(** A frame of tokens registered without the flag: the snapshots are not
    rows of the static table. *)
Example set_varref_static_frame :
  (set_varref p_tokens "Generator" "p" false "" one_component).1
  = Raise (KeyError "t0").
Proof. reflexivity. Qed.

Example set_varref_twice :
  let st1 := (set_varref p_tokens "Generator" "p" true "first" one_component).2 in
  let st2 := (set_varref p_tokens "Generator" "p" false "second" st1).2 in
  variables st1 ≫= (λ t, t !! ("Generator", "p")) = Some (true, "first")
  ∧ variables st2 ≫= (λ t, t !! ("Generator", "p")) = Some (true, "first, second")
  ∧ (pnl st1 !! "Generator") ≫= (λ d, d !! "p_varref")
    = Some (PFrame (mkframe ["t0"; "t1"]
                      [("g0", [Some "x0"; Some "x2"]); ("g1", [Some "x1"; Some "x3"])])).
Proof. repeat split; vm_compute; reflexivity. Qed.

Lemma set_ref_registers_witness :
  (set_varref (VSeries [] (ObjArr [0] [])) "Generator" "p" true "first" one_component
   = (Return (), one_component)
   ∧ set_conref (VSeries [] (ObjArr [0] [])) "Generator" "p" true "first" one_component
     = (Return (), one_component))
  ∧ (let st := (set_varref p_tokens "Generator" "p" true "fixed" one_component).2 in
     set_varref g_tokens "Generator" "p" false "extendable" st
     = (Return (),
        set_df (<["Generator" := mkframe ["g0"; "g1"]
                                   [("p_varref", [Some "x4"; Some "x5"])]]> (df st))
          (set_variables
             (Some (<[("Generator", "p") := (true, "fixed, extendable")]>
                      {[("Generator", "p") := (true, "fixed")]})) st)))
  ∧ set_conref p_tokens "Generator" "mu_upper" true "" one_component
    = (Return (),
       set_pnl (<["Generator" :=
                    <["mu_upper_conref" :=
                        PFrame (mkframe ["t0"; "t1"]
                                  [("g0", [Some "x0"; Some "x2"]);
                                   ("g1", [Some "x1"; Some "x3"])])]> ∅]>
                  (pnl one_component))
         (set_constraints (Some (<[("Generator", "mu_upper") := (true, "")]> ∅))
            one_component)).
Proof.
  split; [|split].
  - apply (proj1 (set_ref_registers (VSeries [] (ObjArr [0] [])) "Generator" "p"
                    true "first" one_component)).
    reflexivity.
  - intros st.
    destruct (proj1 (proj2 (set_ref_registers g_tokens "Generator" "p" false
                              "extendable" st) eq_refl)
                {[("Generator", "p") := (true, "fixed")]})
      as (entry & _ & _ & _ & Happend & _ & Hstore); [vm_compute; reflexivity |].
    rewrite (Happend true "fixed") in Hstore by (vm_compute; done).
    pose proof (proj2 Hstore eq_refl ["g0"; "g1"] [2] ["x4"; "x5"]
                  (mkframe ["g0"; "g1"] []) eq_refl) as H.
    specialize (H ltac:(vm_compute; reflexivity)).
    rewrite H. vm_compute. reflexivity.
  - destruct (proj2 (proj2 (set_ref_registers p_tokens "Generator" "mu_upper" true
                              "" one_component) eq_refl) ∅)
      as (entry & _ & _ & _ & _ & Hfresh & Hstore); [reflexivity |].
    rewrite Hfresh in Hstore by (by left).
    pose proof (proj1 Hstore eq_refl ["t0"; "t1"] ["g0"; "g1"] [2; 2]
                  ["x0"; "x1"; "x2"; "x3"] ∅ (mkframe ["g0"; "g1"] []) eq_refl) as H.
    specialize (H ltac:(vm_compute; reflexivity) ltac:(vm_compute; reflexivity)
                  ltac:(done)).
    rewrite H. vm_compute. reflexivity.
Defined.

Lemma clear_references_removes_both_suffixes_witness :
  is_reference_key "p_varref" = true
  ∧ is_reference_key "mu_upper_conref" = true
  ∧ is_reference_key "p_set" = false.
Proof.
  split; [|split].
  - rewrite (proj1 (clear_references_removes_both_suffixes empty_state "" "p_varref")).
    reflexivity.
  - rewrite (proj1 (clear_references_removes_both_suffixes empty_state ""
                      "mu_upper_conref")).
    reflexivity.
  - rewrite (proj1 (clear_references_removes_both_suffixes empty_state "" "p_set")).
    reflexivity.
Defined.

(** * Further properties *)

(** ** broadcasted_axes *)

Lemma index_eq_all_refl (a : axis) : index_eq_all a a = Return true.
Proof.
  unfold index_eq_all. rewrite Nat.eqb_refl. f_equal.
  induction a as [|x a IH]; simpl; [done |]. by rewrite String.eqb_refl.
Qed.

Lemma value_axes_length v ax : value_axes v = Some ax → (1 ≤ length ax)%nat.
Proof. destruct v; intros [= <-]; simpl; lia. Qed.

Lemma broadcast_step_axes acc df acc' :
  broadcast_step acc df = Return acc' →
  (value_axes df = None ∧ acc' = acc) ∨
  (∃ dax, value_axes df = Some dax ∧ acc'.2 = map length acc'.1 ∧
          ((length acc.1 < length dax)%nat ∧ acc'.1 = dax ∨
           (length dax ≤ length acc.1)%nat ∧ acc'.1 = acc.1)).
Proof.
  unfold broadcast_step. destruct (value_axes df) as [dax|]; [|intros [= <-]; by left].
  destruct (match last acc.1 with Some _ => _ | None => _ end); simpl; try done.
  intros [= <-]. right. exists dax. split; [done |]. split; [done |]. simpl.
  destruct (length acc.1 <? length dax)%nat eqn:H.
  - left. by apply Nat.ltb_lt in H.
  - right. by apply Nat.ltb_ge in H.
Qed.

Lemma broadcast_loop_axes dfs acc r :
  acc.2 = map length acc.1 →
  broadcast_loop acc dfs = Return r →
  r.2 = map length r.1 ∧
  (length acc.1 ≤ length r.1)%nat ∧
  (r.1 = acc.1 ∨ ∃ v, v ∈ dfs ∧ value_axes v = Some r.1) ∧
  ∀ w ax, w ∈ dfs → value_axes w = Some ax → (length ax ≤ length r.1)%nat.
Proof.
  revert acc; induction dfs as [|df dfs IH]; intros acc Hacc; simpl.
  { intros [= <-]. split; [done |]. split; [done |]. split; [by left |].
    by intros ?? ?%elem_of_nil. }
  destruct (broadcast_step acc df) as [acc'| |] eqn:Hstep; simpl; try done.
  intros Hloop.
  apply broadcast_step_axes in Hstep
    as [[Hnone ->]|(dax & Hdax & Hshape & [[Hlt Hacc']|[Hle Hacc']])].
  - destruct (IH _ Hacc Hloop) as (H1 & H2 & H3 & H4).
    split; [done |]. split; [done |]. split.
    + destruct H3 as [?|(v & ? & ?)]; [by left |]. right. exists v.
      split; [by right | done].
    + intros w ax [->|Hin]%elem_of_cons Hw; [congruence | eauto].
  - destruct (IH _ Hshape Hloop) as (H1 & H2 & H3 & H4).
    rewrite Hacc' in H2, H3.
    split; [done |]. split; [lia |]. split.
    + right. destruct H3 as [->|(v & ? & ?)].
      * exists df. split; [by left | done].
      * exists v. split; [by right | done].
    + intros w ax [->|Hin]%elem_of_cons Hw; [|eauto].
      rewrite Hdax in Hw. injection Hw as <-. done.
  - destruct (IH _ Hshape Hloop) as (H1 & H2 & H3 & H4).
    rewrite Hacc' in H2, H3.
    split; [done |]. split; [done |]. split.
    + destruct H3 as [?|(v & ? & ?)]; [by left |]. right. exists v.
      split; [by right | done].
    + intros w ax [->|Hin]%elem_of_cons Hw; [|eauto].
      rewrite Hdax in Hw. injection Hw as <-. lia.
Qed.

(** X1: when [broadcasted_axes] returns, the shape is the lengths of the
    axes; the axes are those of one of the labelled operands, of which none
    has more axes; and they are empty exactly when no operand is
    labelled. *)
Theorem broadcasted_axes_of_largest_operand (dfs : list value)
    (axes : list axis) (shape : list nat) :
  broadcasted_axes dfs = Return (axes, shape) →
  shape = map length axes ∧
  (∀ w ax, w ∈ flatten_tuples dfs → value_axes w = Some ax →
     (length ax ≤ length axes)%nat) ∧
  (axes = [] ∧ Forall (λ v, value_axes v = None) (flatten_tuples dfs)
   ∨ ∃ v, v ∈ flatten_tuples dfs ∧ value_axes v = Some axes).
Proof.
  unfold broadcasted_axes. intros H.
  apply broadcast_loop_axes in H as (H1 & _ & H3 & H4); [|done]. simpl in *.
  split; [done |]. split; [done |].
  destruct H3 as [->|?]; [left | by right]. split; [done |].
  apply Forall_forall. intros w Hw.
  destruct (value_axes w) as [ax|] eqn:Hax; [|done].
  pose proof (value_axes_length _ _ Hax). specialize (H4 _ _ Hw Hax).
  simpl in H4. lia.
Qed.

Lemma broadcasted_axes_of_largest_operand_witness :
  [2; 2]%nat = map length [["a"; "b"]; ["x"; "y"]] ∧
  (∀ w ax, w ∈ flatten_tuples [VTuple [VInt 1; frame_ab]] →
     value_axes w = Some ax → (length ax ≤ 2)%nat) ∧
  ([["a"; "b"]; ["x"; "y"]] = [] ∧
   Forall (λ v, value_axes v = None) (flatten_tuples [VTuple [VInt 1; frame_ab]])
   ∨ ∃ v, v ∈ flatten_tuples [VTuple [VInt 1; frame_ab]] ∧
          value_axes v = Some [["a"; "b"]; ["x"; "y"]]).
Proof.
  apply (broadcasted_axes_of_largest_operand [VTuple [VInt 1; frame_ab]]
           [["a"; "b"]; ["x"; "y"]] [2; 2]).
  reflexivity.
Defined.

Lemma broadcast_loop_aligned (t : axis) dfs acc :
  (acc.1 = [] ∨ last acc.1 = Some t) →
  Forall (λ v, ∀ ax, value_axes v = Some ax → last ax = Some t) dfs →
  ∃ r, broadcast_loop acc dfs = Return r.
Proof.
  intros Hacc Hall. revert acc Hacc.
  induction Hall as [|df dfs Hdf _ IH]; intros acc Hacc; simpl; [eauto |].
  unfold broadcast_step.
  destruct (value_axes df) as [dax|] eqn:Hax; simpl; [|by apply IH].
  rewrite (Hdf _ eq_refl).
  assert (dax ≠ []) as Hne by (intros ->; by specialize (Hdf _ eq_refl)).
  destruct Hacc as [Hnil|Hlast].
  - rewrite Hnil; simpl. apply IH. simpl.
    destruct dax; [done |]. simpl. right. by apply Hdf.
  - rewrite Hlast, index_eq_all_refl; simpl. apply IH. simpl.
    destruct (_ <? _)%nat; right; [by apply Hdf | done].
Qed.

(** X2: [broadcasted_axes] returns whenever all the labelled operands carry
    the same labels on their last axis: the alignment check is the only
    thing that makes it raise. *)
Theorem broadcasted_axes_aligned_returns (dfs : list value) (t : axis) :
  Forall (λ v, ∀ ax, value_axes v = Some ax → last ax = Some t)
    (flatten_tuples dfs) →
  ∃ axes shape, broadcasted_axes dfs = Return (axes, shape).
Proof.
  intros Hall. unfold broadcasted_axes.
  destruct (broadcast_loop_aligned t (flatten_tuples dfs) ([], []))
    as [[axes shape] Hr]; [by left | done | eauto].
Qed.

Lemma broadcasted_axes_aligned_returns_witness :
  ∃ axes shape,
    broadcasted_axes [VSeries ["x"; "y"] (ObjArr [2] ["x0"; "x1"]); frame_ab; VInt 3]
    = Return (axes, shape).
Proof.
  apply (broadcasted_axes_aligned_returns _ ["x"; "y"]).
  repeat constructor; intros ax [= <-]; reflexivity.
Defined.

(** ** _str_array *)

Lemma repr_negative (m e : Z) :
  (m < 0)%Z → Float.repr_finite m e = "-" +:+ Float.repr_finite (Z.abs m) e.
Proof.
  intros Hneg. unfold Float.repr_finite.
  rewrite Z.abs_idemp.
  assert ((m <? 0)%Z = true) as -> by (by apply Z.ltb_lt).
  assert ((Z.abs m <? 0)%Z = false) as -> by (apply Z.ltb_ge; lia).
  destruct (Float.strip_zeros _ _ _) as [m' e'].
  by destruct (m' =? 0)%N.
Qed.

(** A cell that is neither NaN nor the negative zero is rendered as the
    scalar is. *)
Lemma render_float_scalar (f : pyfloat) :
  f ≠ NaN → f ≠ NegZero → render_float f = Some (scalar_text (VFloat f)).
Proof.
  intros Hnan Hzero. unfold render_float, scalar_text. cbn [_str_array].
  destruct f as [m e| | |[]]; try done. simpl.
  destruct (Z.ltb_spec m 0) as [Hneg|Hpos].
  - assert ((0 <=? m)%Z = false) as -> by (apply Z.leb_gt; lia).
    by rewrite (repr_negative m e Hneg), string_app_assoc.
  - assert ((0 <=? m)%Z = true) as -> by (by apply Z.leb_le).
    by rewrite Z.abs_eq.
Qed.

Lemma mapM_map {A B} (f : A → option B) (g : A → B) (l : list A) :
  Forall (λ x, f x = Some (g x)) l → mapM f l = Some (map g l).
Proof.
  induction 1 as [|x l Hx _ IH]; [done |]. simpl. by rewrite Hx, IH.
Qed.

Lemma render_cells_series (cells : list pyfloat) :
  cells ≠ [] →
  render_cells (FloatArr [length cells] cells)
  = match mapM render_float cells with
    | Some texts => Return (VArray (ObjArr [length cells] texts))
    | None => Raise (TypeError "unsupported operand type(s) for +")
    end.
Proof.
  intros Hne. destruct cells as [|f cells]; [done |].
  unfold render_cells, Np.count. simpl length. simpl fold_right.
  rewrite Nat.mul_1_r. simpl Nat.eqb. cbv iota. by rewrite decide_True by (by left).
Qed.

(** X3: a float that is neither NaN nor the negative zero is rendered to the
    same text whether it comes as a scalar or as a cell of a series: the
    cells of a non-empty series of such floats are the texts of the scalars,
    with the sign in front and a space behind.  The two renderings part on
    the other floats: a negative zero in a cell is [+0.0 ] where the scalar
    is [+-0.0 ], and one NaN among the cells makes the rendering of the
    series raise where the scalar is [nan ]. *)
Theorem _str_array_series_as_scalars (index : axis) (cells : list pyfloat) :
  cells ≠ [] →
  (Forall (λ f, f ≠ NaN ∧ f ≠ NegZero) cells →
     _str_array (VSeries index (FloatArr [length cells] cells))
     = Return (VArray (ObjArr [length cells]
                         (map (λ f, scalar_text (VFloat f)) cells)))
     ∧ Forall (λ f, ∃ body, scalar_text (VFloat f)
                            = (if Float.nonneg f then "+" else "-") +:+ body +:+ " ")
         cells)
  ∧ (NaN ∉ cells →
       _str_array (VSeries index (FloatArr [length cells] cells))
       = Return (VArray (ObjArr [length cells]
                           (map (λ f, match f with
                                      | NegZero => "+0.0 "
                                      | _ => scalar_text (VFloat f)
                                      end) cells))))
  ∧ (NaN ∈ cells →
       _str_array (VSeries index (FloatArr [length cells] cells))
       = Raise (TypeError "unsupported operand type(s) for +"))
  ∧ scalar_text (VFloat NegZero) = "+-0.0 "
  ∧ scalar_text (VFloat NaN) = "nan ".
Proof.
  intros Hne. cbn [_str_array]. rewrite (render_cells_series _ Hne).
  split; [|split; [|split; [|done]]].
  - intros Hcells. split.
    + rewrite (mapM_map _ (λ f, scalar_text (VFloat f))); [done |].
      eapply Forall_impl; [exact Hcells |].
      intros f [Hnan Hzero]. by apply render_float_scalar.
    + eapply Forall_impl; [exact Hcells |]. intros f [Hnan Hzero].
      pose proof (render_float_scalar f Hnan Hzero) as Hf.
      unfold render_float in Hf.
      destruct f as [m e| | |negative]; try done; simpl in Hf.
      * injection Hf as <-. exists (Float.repr_finite (Z.abs m) e).
        simpl. by destruct (Z.ltb_spec m 0), (Z.leb_spec 0 m); try lia.
      * injection Hf as <-. exists "inf". by destruct negative.
  - intros Hnan.
    rewrite (mapM_map _ (λ f, match f with
                              | NegZero => "+0.0 "
                              | _ => scalar_text (VFloat f)
                              end)); [done |].
    apply Forall_forall. intros f Hf.
    destruct f as [m e| | |negative]; [|done|by destruct Hnan|];
      by apply render_float_scalar.
  - intros Hnan.
    assert (mapM render_float cells = None) as ->; [|done].
    apply mapM_None, Exists_exists. by exists NaN.
Qed.

Lemma _str_array_series_as_scalars_witness :
  _str_array (VSeries ["a"; "b"; "c"]
                (FloatArr [length [minus_half; two; Infinity true]]
                   [minus_half; two; Infinity true]))
  = Return (VArray (ObjArr [length [minus_half; two; Infinity true]]
                      (map (λ f, scalar_text (VFloat f))
                         [minus_half; two; Infinity true])))
  ∧ Forall (λ f, ∃ body, scalar_text (VFloat f)
                         = (if Float.nonneg f then "+" else "-") +:+ body +:+ " ")
      [minus_half; two; Infinity true].
Proof.
  apply (proj1 (_str_array_series_as_scalars ["a"; "b"; "c"]
                  [minus_half; two; Infinity true] ltac:(discriminate))).
  repeat constructor; discriminate.
Defined.

(** A negative zero and a NaN, as a scalar and in a cell. *)
Example _str_array_negative_zero_and_nan :
  _str_array (VFloat NegZero) = Return (VStr "+-0.0 ")
  ∧ _str_array (VArray (FloatArr [1] [NegZero])) = Return (VArray (ObjArr [1] ["+0.0 "]))
  ∧ _str_array (VFloat NaN) = Return (VStr "nan ")
  ∧ _str_array (VArray (FloatArr [1] [NaN]))
    = Raise (TypeError "unsupported operand type(s) for +").
Proof. repeat split. Qed.

(** ** linexpr *)

(** X4: over an empty axis [linexpr] returns the empty array of the shape
    without rendering any coefficient, whatever the coefficients are. *)
Theorem linexpr_empty_shape (tuples : list (value * value))
    (axes : list axis) (shape : list nat) :
  broadcasted_axes (map (λ p, VTuple [p.1; p.2]) tuples) = Return (axes, shape) →
  Np.count shape = 0%nat →
  linexpr tuples = Return (ObjArr shape []).
Proof.
  intros Haxes Hcount. unfold linexpr, linexpr_axes. rewrite Haxes. simpl.
  destruct shape as [|n shape]; [done |].
  unfold empty_expr. unfold Np.prod. cbn [Np.num_value]. by rewrite Hcount.
Qed.

Lemma linexpr_empty_shape_witness :
  linexpr [(VTuple [], VSeries [] (ObjArr [0] []))] = Return (ObjArr [0] []).
Proof.
  apply (linexpr_empty_shape _ [[]] [0]); reflexivity.
Defined.

Lemma broadcast_loop_one_index (idx : axis) (dfs : list value) acc :
  acc = ([], []) ∨ acc = ([idx], [length idx]) →
  Forall (λ v, value_axes v = None ∨ value_axes v = Some [idx]) dfs →
  broadcast_loop acc dfs
  = Return (if decide (acc = ([], []) ∧ Forall (λ v, value_axes v = None) dfs)
            then ([], []) else ([idx], [length idx])).
Proof.
  intros Hacc Hall. revert acc Hacc.
  induction Hall as [|df dfs Hdf _ IH]; intros acc Hacc; simpl.
  { destruct Hacc as [->| ->].
    - rewrite decide_True; [done |]. split; [done | constructor].
    - rewrite decide_False; [done |]. by intros [[=] _]. }
  unfold broadcast_step. destruct Hdf as [Hdf|Hdf]; rewrite Hdf; simpl.
  - rewrite IH by done. f_equal. apply decide_ext. split.
    + intros [? H]. split; [done |]. by constructor.
    + intros [? H]. split; [done |]. by inversion H.
  - assert (¬ (acc = ([], []) ∧ Forall (λ v, value_axes v = None) (df :: dfs)))
      as Hno.
    { intros [_ H]. inversion H; congruence. }
    rewrite (decide_False _ _ Hno).
    destruct Hacc as [->| ->]; simpl.
    + rewrite IH by (by right). rewrite decide_False; [done |]. by intros [[=] _].
    + rewrite index_eq_all_refl. simpl. rewrite IH by (by right).
      rewrite decide_False; [done |]. by intros [[=] _].
Qed.

Lemma stack_terms_nil pairs : stack_terms [] pairs = [].
Proof. induction pairs as [|[c d] pairs IH]; simpl; done. Qed.

Lemma stack_terms_length pairs : ∀ acc n,
  length acc = n → Forall (λ q : string * list string, length q.2 = n) pairs →
  length (stack_terms acc pairs) = n.
Proof.
  induction pairs as [|[c d] pairs IH]; intros acc n Hacc Hall; simpl; [done |].
  inversion Hall as [|?? Hd Hrest]; subst. simpl in *.
  apply IH; [|done]. rewrite length_zip_with. lia.
Qed.

Lemma zip_with_term (c : string) (acc d : list string) :
  zip_with String.append acc (map (λ y, y +:+ Str.nl) (map (λ y, c +:+ y) d))
  = zip_with (λ a x, a +:+ c +:+ x +:+ Str.nl) acc d.
Proof.
  revert d; induction acc as [|a acc IH]; intros [|x d]; simpl; try done.
  rewrite IH. f_equal. by rewrite string_app_assoc.
Qed.

(** X5: for pairs of a scalar coefficient and a series of tokens over one
    index, [linexpr] gives one expression per label: the terms of the pairs
    in input order, each made of the coefficient text, the token of that
    label and a line end. *)
Theorem linexpr_series_pairs (idx : axis) (tuples : list (value * value))
    (pairs : list (string * list string)) :
  tuples ≠ [] →
  Forall2 (λ p q, _str_array p.1 = Return (VStr q.1)
                  ∧ p.2 = VSeries idx (ObjArr [length idx] q.2)
                  ∧ length q.2 = length idx) tuples pairs →
  linexpr tuples
  = Return (ObjArr [length idx] (stack_terms (replicate (length idx) "") pairs)).
Proof.
  intros Hne Hpairs.
  assert (broadcasted_axes (map (λ p, VTuple [p.1; p.2]) tuples)
          = Return ([idx], [length idx])) as Haxes.
  { unfold broadcasted_axes.
    assert (flatten_tuples (map (λ p, VTuple [p.1; p.2]) tuples)
            = concat (map (λ p : value * value, [p.1; p.2]) tuples)) as ->.
    { unfold flatten_tuples. destruct tuples as [|p tuples]; [done |].
      assert (forallb is_tuple (map (λ p, VTuple [p.1; p.2]) (p :: tuples)) = true)
        as -> by (apply forallb_forall; intros ? (? & <- & _)%in_map_iff; done).
      by rewrite map_map. }
    rewrite (broadcast_loop_one_index idx); [|by left|].
    - case_decide as H; [|done]. destruct H as [_ H].
      destruct Hpairs as [|p q tuples pairs (_ & Hv & _) _]; [done |].
      simpl in H. inversion H as [|?? _ H']. inversion H' as [|?? Hp _].
      by rewrite Hv in Hp.
    - clear Hne. induction Hpairs as [|p q tuples pairs (Hc & Hv & _) _ IH];
        simpl; [constructor |].
      constructor; [left; by eapply rendered_scalar_unlabelled |].
      constructor; [right; by rewrite Hv | done]. }
  assert (∀ acc, length acc = length idx →
            linexpr_loop (ObjArr [length idx] acc) tuples
            = Return (ObjArr [length idx] (stack_terms acc pairs))) as Hloop.
  { clear Haxes Hne.
    induction Hpairs as [|p q tuples pairs (Hc & Hv & Hlen) _ IH];
      intros acc Hacc; simpl; [done |].
    destruct p as [coeff var], q as [c d]; simpl in *. rewrite Hc, Hv. simpl.
    case_decide as Hb; [|by rewrite broadcast_shapes_same in Hb].
    rewrite broadcast_to_same by (simpl; rewrite length_map, length_map; lia).
    rewrite zip_with_term. apply IH. rewrite length_zip_with. lia. }
  unfold linexpr, linexpr_axes. rewrite Haxes. simpl.
  destruct (length idx) as [|n] eqn:Hn.
  - simpl. by rewrite stack_terms_nil.
  - unfold empty_expr. cbn [Np.prod Np.num_value Np.count fold_right].
    rewrite Nat.mul_1_r. cbn [Nat.eqb].
    rewrite Hloop by apply length_replicate. done.
Qed.

Lemma linexpr_series_pairs_witness :
  linexpr [(VInt 1, VSeries ["0"; "1"] (ObjArr [length ["0"; "1"]] ["a1"; "a2"]));
           (VFloat minus_half,
            VSeries ["0"; "1"] (ObjArr [length ["0"; "1"]] ["b1"; "b2"]))]
  = Return (ObjArr [length ["0"; "1"]]
              (stack_terms (replicate (length ["0"; "1"]) "")
                 [("+1.0 ", ["a1"; "a2"]); ("-0.5 ", ["b1"; "b2"])])).
Proof.
  apply (linexpr_series_pairs ["0"; "1"]).
  - discriminate.
  - repeat constructor.
Defined.

Example linexpr_docstring_example :
  linexpr [(VInt 1, VSeries ["0"; "1"] (ObjArr [2] ["a1"; "a2"]));
           (VFloat minus_half, VSeries ["0"; "1"] (ObjArr [2] ["b1"; "b2"]))]
  = Return (ObjArr [2] ["+1.0 a1" +:+ Str.nl +:+ "-0.5 b1" +:+ Str.nl;
                        "+1.0 a2" +:+ Str.nl +:+ "-0.5 b2" +:+ Str.nl]).
Proof. reflexivity. Qed.

(** ** write_bound *)

Lemma broadcast_rev_sym (a b : list nat) :
  Np.broadcast_rev a b = Np.broadcast_rev b a.
Proof.
  revert b; induction a as [|x a IH]; intros [|y b]; simpl; try done.
  rewrite IH. destruct (Np.broadcast_rev b a) as [r|]; simpl; [|done].
  destruct (Nat.eqb_spec x y) as [->|Hxy].
  - by rewrite Nat.eqb_refl.
  - destruct (Nat.eqb_spec y x) as [->|_]; [done |].
    destruct (Nat.eqb_spec x 1) as [->|Hx], (Nat.eqb_spec y 1) as [->|Hy]; done.
Qed.

Lemma broadcast_shapes_sym (a b : list nat) :
  Np.broadcast_shapes a b = Np.broadcast_shapes b a.
Proof. unfold Np.broadcast_shapes. by rewrite broadcast_rev_sym. Qed.

Lemma chunks_map {A B} (f : A → B) (width n : nat) (l : list A) :
  Np.chunks width n (map f l) = map (map f) (Np.chunks width n l).
Proof.
  revert l; induction n as [|n IH]; intros l; simpl; [done |].
  change (map f l) with (f <$> l).
  rewrite <- fmap_take, <- fmap_drop. f_equal. apply IH.
Qed.

Lemma concat_replicate_map {A B} (f : A → B) (n : nat) (l : list A) :
  concat (replicate n (map f l)) = map f (concat (replicate n l)).
Proof. induction n as [|n IH]; simpl; [done |]. by rewrite IH, map_app. Qed.

Lemma bcast_map {A B} (f : A → B) (src tgt : list nat) (data : list A) :
  Np.bcast src tgt (map f data) = map f (Np.bcast src tgt data).
Proof.
  revert tgt data; induction src as [|s src IH]; intros [|t tgt] data;
    simpl; try done.
  destruct (s =? t)%nat.
  - rewrite chunks_map, map_map.
    induction (Np.chunks (Np.count src) s data) as [|c cs IHc]; simpl; [done |].
    by rewrite IH, IHc, map_app.
  - by rewrite IH, concat_replicate_map.
Qed.

Lemma broadcast_to_map {A B} (f : A → B) (src tgt : list nat) (data : list A) :
  Np.broadcast_to src tgt (map f data) = map f (Np.broadcast_to src tgt data).
Proof. apply bcast_map. Qed.

Lemma py_add_elements_left shape (v : value) (ls : list string)
    (mid : string) (tokens : list string) :
  elements shape v = Some ls → length tokens = Np.count shape →
  obind (py_add v (VStr mid)) (λ t, py_add t (VArray (ObjArr shape tokens)))
  = Return (VArray (ObjArr shape (zip_with (λ l t, (l +:+ mid) +:+ t) ls tokens))).
Proof.
  intros Hv Htokens. destruct v as [| | l |[s d| |]| | |]; simpl in Hv; try done.
  - injection Hv as <-. simpl.
    rewrite zip_with_replicate_l by lia. done.
  - case_decide as H; [|done]. destruct H as [Hs Hd]. injection Hv as <-.
    simpl. rewrite broadcast_shapes_sym, Hs.
    rewrite broadcast_to_map, (broadcast_to_same shape) by done.
    by rewrite zip_with_fmap_l.
Qed.

Lemma bound_lines_cells (ts ls us : list string) :
  map (λ c, c +:+ Str.nl)
    (zip_with String.append
       (map (λ c, c +:+ " <= ")
          (zip_with (λ l t, (l +:+ " <= ") +:+ t) ls ts))
       us)
  = zip_with (λ t lu, bound_line t lu.1 lu.2) ts (zip ls us).
Proof.
  revert ls us; induction ts as [|t ts IH]; intros [|l ls] [|u us]; simpl; try done.
  rewrite IH. f_equal. unfold bound_line. by rewrite !string_app_assoc.
Qed.

(** X6: for every element of the shape, [write_bound] appends to the bounds
    sink the line made of the text of the lower bound, the freshly minted
    token and the text of the upper bound, in row-major order, advances the
    counter by the number of elements and returns the tokens; the bounds may
    be scalars or arrays that broadcast to the shape. *)
Theorem write_bound_lines (lower upper : value) (axes : option axes_arg)
    (st : state) (ax : list axis) (shape : list nat) (k : nat)
    (ls us : list string) :
  resolve_axes axes lower upper = Return (ax, shape) →
  length shape = 1%nat ∨ length shape = 2%nat →
  xCounter st = NInt k →
  rendered shape lower = Some ls →
  rendered shape upper = Some us →
  let n := Np.count shape in
  let tokens := map (token true) (seq k n) in
  let lines := zip_with (λ t lu, bound_line t lu.1 lu.2) tokens (zip ls us) in
  ∃ v, write_bound lower upper axes st
       = (Return v, set_bounds_f (bounds_f st ++ lines)
                      (set_xCounter (NInt (k + n)) st))
       ∧ token_cells v = tokens
       ∧ length lines = n.
Proof.
  intros Hax Hdim Hk Hl Hu n tokens lines.
  pose proof (resolve_axes_shape _ _ _ _ _ Hax) as Hshape.
  unfold rendered in Hl, Hu.
  destruct (_str_array lower) as [L| |] eqn:HL; try done.
  destruct (_str_array upper) as [U| |] eqn:HU; try done.
  pose proof (elements_length _ _ _ Hl) as Hlen_l.
  pose proof (elements_length _ _ _ Hu) as Hlen_u.
  assert (length tokens = n) as Hlen_t
    by (unfold tokens; by rewrite length_map, length_seq).
  assert (Np.prod shape = NInt n) as Hprod.
  { destruct shape; simpl in *; [lia | done]. }
  rewrite write_bound_steps, Hax. cbn [stop fst snd].
  rewrite Hprod. cbn [xCounter set_xCounter]. rewrite Hk.
  cbn [Np.num_add Np.num_sub token_array].
  replace (k + n - n)%nat with k by lia.
  replace (k + n - k)%nat with n by lia.
  fold (token true). fold tokens. cbn [stop].
  unfold bound_lines. rewrite HL, HU. cbn [obind].
  pose proof (py_add_elements_left shape L ls " <= " tokens Hl Hlen_t) as Hleft.
  destruct (py_add L (VStr " <= ")) as [t1| |]; simpl in Hleft; try done.
  cbn [obind]. rewrite Hleft. cbn [obind].
  rewrite py_add_array_string. cbn [obind].
  rewrite (py_add_elements shape _ U us);
    [|by rewrite length_map, length_zip_with; lia|done].
  cbn [obind]. rewrite py_add_array_string. cbn [obind flatten stop].
  assert (∃ v, ser_or_frame shape (ObjArr shape tokens) ax = Return v) as [v Hv].
  { unfold ser_or_frame. subst shape.
    destruct ax as [|i [|c [|]]]; simpl in *; try lia; eauto. }
  exists v. rewrite Hv. split; [|split].
  - rewrite bound_lines_cells. reflexivity.
  - by apply ser_or_frame_cells in Hv.
  - unfold lines. rewrite length_zip_with, length_zip. lia.
Qed.

Lemma write_bound_lines_witness :
  ∃ v, write_bound (VFloat zero)
         (VFrame ["t0"; "t1"] ["g0"; "g1"] (FloatArr [2; 2] [one; two; one; two]))
         None empty_state
       = (Return v,
          set_bounds_f
            (bounds_f empty_state ++
             zip_with (λ t lu, bound_line t lu.1 lu.2)
               (map (token true) (seq 0 4))
               (zip ["+0.0 "; "+0.0 "; "+0.0 "; "+0.0 "]
                  ["+1.0 "; "+2.0 "; "+1.0 "; "+2.0 "]))
            (set_xCounter (NInt (0 + 4)) empty_state))
       ∧ token_cells v = map (token true) (seq 0 4)
       ∧ length (zip_with (λ t lu, bound_line t lu.1 lu.2)
                   (map (token true) (seq 0 4))
                   (zip ["+0.0 "; "+0.0 "; "+0.0 "; "+0.0 "]
                      ["+1.0 "; "+2.0 "; "+1.0 "; "+2.0 "])) = 4%nat.
Proof.
  apply (write_bound_lines (VFloat zero)
           (VFrame ["t0"; "t1"] ["g0"; "g1"] (FloatArr [2; 2] [one; two; one; two]))
           None empty_state [["t0"; "t1"]; ["g0"; "g1"]] [2; 2] 0
           ["+0.0 "; "+0.0 "; "+0.0 "; "+0.0 "]
           ["+1.0 "; "+2.0 "; "+1.0 "; "+2.0 "]).
  - reflexivity.
  - right. reflexivity.
  - reflexivity.
  - reflexivity.
  - reflexivity.
Defined.

(** A bound that is a series over the columns is repeated for every row. *)
Example write_bound_broadcasts_columns :
  bounds_f (write_bound (VFloat zero)
              (VArray (FloatArr [2] [one; two]))
              (Some (AxTuple [["t0"; "t1"]; ["g0"; "g1"]])) empty_state).2
  = ["+0.0  <= x0 <= +1.0 " +:+ Str.nl; "+0.0  <= x1 <= +2.0 " +:+ Str.nl;
     "+0.0  <= x2 <= +1.0 " +:+ Str.nl; "+0.0  <= x3 <= +2.0 " +:+ Str.nl].
Proof. reflexivity. Qed.

(** ** What the writers leave alone *)

Lemma state_same_sinks (st : state) :
  st = set_constraints_f (constraints_f st ++ [])
         (set_bounds_f (bounds_f st ++ [])
            (set_cCounter (cCounter st) (set_xCounter (xCounter st) st))).
Proof. destruct st; simpl. unfold set_constraints_f; simpl. by rewrite !app_nil_r. Qed.

Lemma write_bound_touches lower upper axes st :
  ∃ cx lines,
    (write_bound lower upper axes st).2
    = set_bounds_f (bounds_f st ++ lines) (set_xCounter cx st).
Proof.
  rewrite write_bound_steps.
  destruct (resolve_axes axes lower upper) as [[ax shape]| |]; simpl.
  2,3: exists (xCounter st), []; destruct st; unfold set_bounds_f; simpl;
       by rewrite app_nil_r.
  destruct (token_array _ _ _ _) as [variables| |]; simpl.
  2,3: exists (Np.num_add (xCounter st) (Np.prod shape)), []; destruct st;
       unfold set_bounds_f; simpl; by rewrite app_nil_r.
  destruct (bound_lines lower upper variables) as [lines| |]; simpl.
  2,3: exists (Np.num_add (xCounter st) (Np.prod shape)), []; destruct st;
       unfold set_bounds_f; simpl; by rewrite app_nil_r.
  by exists (Np.num_add (xCounter st) (Np.prod shape)), lines.
Qed.

Lemma write_constraint_touches lhs sense rhs axes st :
  ∃ cc blocks,
    (write_constraint lhs sense rhs axes st).2
    = set_constraints_f (constraints_f st ++ blocks) (set_cCounter cc st).
Proof.
  rewrite write_constraint_steps.
  destruct (resolve_axes axes lhs rhs) as [[ax shape]| |]; simpl.
  2,3: exists (cCounter st), []; destruct st; unfold set_constraints_f; simpl;
       by rewrite app_nil_r.
  destruct (token_array _ _ _ _) as [tokens| |]; simpl.
  2,3: exists (Np.num_add (cCounter st) (Np.prod shape)), []; destruct st;
       unfold set_constraints_f; simpl; by rewrite app_nil_r.
  destruct (constraint_blocks lhs sense rhs tokens) as [blocks| |]; simpl.
  2,3: exists (Np.num_add (cCounter st) (Np.prod shape)), []; destruct st;
       unfold set_constraints_f; simpl; by rewrite app_nil_r.
  by exists (Np.num_add (cCounter st) (Np.prod shape)), blocks.
Qed.

Lemma session_touches (calls : list call) (st : state) :
  ∃ cx cc lines blocks,
    (session calls st).2
    = set_constraints_f (constraints_f st ++ blocks)
        (set_bounds_f (bounds_f st ++ lines) (set_cCounter cc (set_xCounter cx st)))
    ∧ (Forall (λ c, mints_variables c = true) calls →
         blocks = [] ∧ cc = cCounter st)
    ∧ (Forall (λ c, mints_variables c = false) calls →
         lines = [] ∧ cx = xCounter st).
Proof.
  revert st; induction calls as [|c calls IH]; intros st; simpl.
  { exists (xCounter st), (cCounter st), [], []. split; [apply state_same_sinks |].
    split; done. }
  destruct c as [lower upper axes|lhs sense rhs axes]; simpl.
  - destruct (write_bound_touches lower upper axes st) as (cx1 & lines1 & Heq).
    destruct (IH (write_bound lower upper axes st).2)
      as (cx & cc & lines & blocks & Hst & Hv & Hc).
    rewrite Hst. rewrite Heq in *. simpl in *.
    exists cx, cc, (lines1 ++ lines), blocks. split; [|split].
    + destruct st; unfold set_constraints_f, set_bounds_f; simpl.
      by rewrite app_assoc.
    + intros Hall. inversion Hall as [|?? _ Hrest]; subst. by apply Hv.
    + intros Hall. inversion Hall as [|?? Hkind _]; subst. done.
  - destruct (write_constraint_touches lhs sense rhs axes st) as (cc1 & blocks1 & Heq).
    destruct (IH (write_constraint lhs sense rhs axes st).2)
      as (cx & cc & lines & blocks & Hst & Hv & Hc).
    rewrite Hst. rewrite Heq in *. simpl in *.
    exists cx, cc, lines, (blocks1 ++ blocks). split; [|split].
    + destruct st; unfold set_constraints_f, set_bounds_f; simpl.
      by rewrite app_assoc.
    + intros Hall. inversion Hall as [|?? Hkind _]; subst. done.
    + intros Hall. inversion Hall as [|?? _ Hrest]; subst. by apply Hc.
Qed.

(** X7: a session of writer calls, whether they return or raise, only appends
    to the two sinks and moves the two counters: what was written stays in
    front, calls of [write_bound] alone leave the constraints sink as it is
    and calls of [write_constraint] alone the bounds sink, and the reference
    tables, the stored references, the basis name and the outside world are
    untouched. *)
Theorem session_appends_to_sinks (calls : list call) (st : state) :
  let st' := (session calls st).2 in
  (∃ lines, bounds_f st' = bounds_f st ++ lines) ∧
  (∃ blocks, constraints_f st' = constraints_f st ++ blocks) ∧
  (Forall (λ c, mints_variables c = true) calls →
     constraints_f st' = constraints_f st ∧ cCounter st' = cCounter st) ∧
  (Forall (λ c, mints_variables c = false) calls →
     bounds_f st' = bounds_f st ∧ xCounter st' = xCounter st) ∧
  variables st' = variables st ∧ constraints st' = constraints st ∧
  pnl st' = pnl st ∧ df st' = df st ∧ basis_fn st' = basis_fn st ∧
  effects st' = effects st.
Proof.
  intros st'. unfold st'.
  destruct (session_touches calls st) as (cx & cc & lines & blocks & -> & Hv & Hc).
  simpl. split; [eauto |]. split; [eauto |]. split; [|split].
  - intros Hall. destruct (Hv Hall) as [-> ->]. by rewrite app_nil_r.
  - intros Hall. destruct (Hc Hall) as [-> ->]. by rewrite app_nil_r.
  - done.
Qed.

Lemma session_appends_to_sinks_witness :
  constraints_f (session [WriteBound (VFloat zero) (VFloat one) (Some (AxIndex ["a"]));
                          WriteBound (VTuple []) (VFloat one) (Some (AxIndex ["a"]))]
                   empty_state).2
  = constraints_f empty_state
  ∧ cCounter (session [WriteBound (VFloat zero) (VFloat one) (Some (AxIndex ["a"]));
                       WriteBound (VTuple []) (VFloat one) (Some (AxIndex ["a"]))]
                empty_state).2
    = cCounter empty_state.
Proof.
  apply (proj1 (proj2 (proj2 (session_appends_to_sinks
           [WriteBound (VFloat zero) (VFloat one) (Some (AxIndex ["a"]));
            WriteBound (VTuple []) (VFloat one) (Some (AxIndex ["a"]))]
           empty_state)))).
  repeat constructor.
Defined.

(** ** Writing without axes *)

(** X8: when there is no axis at all (scalar operands and no [axes]), the
    number of elements is the float [1.0]: [write_bound] raises a
    [TypeError], writes nothing and leaves a float in the counter; and on a
    float counter no call of [write_bound] returns any more, the counter
    staying a float, until [reset_counter] puts it back to 0. *)
Theorem write_bound_without_axes (lower upper : value) (axes : option axes_arg)
    (st : state) :
  (∀ ax, resolve_axes axes lower upper = Return (ax, []) →
     write_bound lower upper axes st
     = (Raise (TypeError "'numpy.float64' object cannot be interpreted as an integer"),
        set_xCounter (NFloat (Np.num_value (xCounter st) + 1)) st)) ∧
  (∀ j, xCounter st = NFloat j →
     (∀ v, (write_bound lower upper axes st).1 ≠ Return v) ∧
     (∃ j', xCounter (write_bound lower upper axes st).2 = NFloat j') ∧
     bounds_f (write_bound lower upper axes st).2 = bounds_f st) ∧
  xCounter (reset_counter (write_bound lower upper axes st).2).2 = NInt 0.
Proof.
  split; [|split].
  - intros ax Hax. rewrite write_bound_steps, Hax. simpl.
    by destruct (xCounter st).
  - intros j Hj.
    destruct (write_bound lower upper axes st) as [o st'] eqn:Hrun.
    pose proof (write_bound_alloc _ _ _ _ _ _ Hrun) as (_ & Hmono & Hret).
    simpl. split; [|split].
    + intros v ->. destruct (Hret v eq_refl) as (k & n & Hk & _). congruence.
    + rewrite Hj in Hmono. destruct (xCounter st'); [done | eauto].
    + rewrite write_bound_steps in Hrun.
      destruct (resolve_axes axes lower upper) as [[ax shape]| |];
        simpl in Hrun; try (by injection Hrun as _ <-).
      rewrite Hj in Hrun. simpl in Hrun.
      destruct (Np.prod shape); simpl in Hrun; by injection Hrun as _ <-.
  - done.
Qed.

Lemma write_bound_without_axes_witness :
  write_bound (VFloat zero) (VFloat one) None empty_state
  = (Raise (TypeError "'numpy.float64' object cannot be interpreted as an integer"),
     set_xCounter (NFloat (Np.num_value (xCounter empty_state) + 1)) empty_state).
Proof.
  apply (proj1 (write_bound_without_axes (VFloat zero) (VFloat one) None empty_state) []).
  reflexivity.
Defined.

(** ** The reference table, call after call *)

Lemma set_varref_table v c attr pnl_ spec st t :
  Pd.empty v = Return false → variables st = Some t →
  variables (set_varref v c attr pnl_ spec st).2
  = Some (<[(c, attr) := merged_entry (t !! (c, attr)) pnl_ spec]> t).
Proof.
  intros He Ht. rewrite (set_varref_nonempty _ _ _ _ _ _ t) by done.
  by rewrite (_add_reference_preserves variables).
Qed.

(** X9: registrations of variable references under a key that is new keep
    the flag of the first one and gather the specifications, in the order of
    the calls, separated by a comma and a space; the entries of the other
    keys stay as they are.  This holds whether or not the storing of the
    tokens succeeds. *)
Theorem set_varref_gathers_specifications (v : value) (c attr : string)
    (flag : bool) (spec : string) (rest : list (bool * string))
    (st : state) (t : reftable) :
  Pd.empty v = Return false →
  variables st = Some t →
  t !! (c, attr) = None →
  Forall (λ call : bool * string, call.2 ≠ "") rest →
  ∃ t', variables (set_varref_each v c attr ((flag, spec) :: rest) st) = Some t'
        ∧ t' !! (c, attr)
          = Some (flag, fold_left (λ acc call, acc +:+ ", " +:+ call.2) rest spec)
        ∧ ∀ key, key ≠ (c, attr) → t' !! key = t !! key.
Proof.
  intros He Ht Hnew Hrest. simpl.
  pose proof (set_varref_table v c attr flag spec st t He Ht) as Hfirst.
  rewrite Hnew in Hfirst. simpl in Hfirst.
  assert (∀ st1 t1 acc,
            variables st1 = Some t1 → t1 !! (c, attr) = Some (flag, acc) →
            (∀ key, key ≠ (c, attr) → t1 !! key = t !! key) →
            ∃ t', variables (set_varref_each v c attr rest st1) = Some t'
                  ∧ t' !! (c, attr)
                    = Some (flag, fold_left (λ acc call, acc +:+ ", " +:+ call.2) rest acc)
                  ∧ ∀ key, key ≠ (c, attr) → t' !! key = t !! key) as Hgo.
  { clear Hfirst Ht Hnew st. induction Hrest as [|[p s] rest Hs _ IH];
      intros st1 t1 acc Ht1 Hkey Hothers; simpl; [eauto |].
    pose proof (set_varref_table v c attr p s st1 t1 He Ht1) as Hstep.
    rewrite Hkey in Hstep. simpl in Hs, Hstep.
    apply String.eqb_neq in Hs. rewrite Hs in Hstep.
    eapply IH; [exact Hstep | apply lookup_insert_eq |].
    intros key Hne. rewrite lookup_insert_ne by done. auto. }
  eapply Hgo; [exact Hfirst | apply lookup_insert_eq |].
  intros key Hne. by rewrite lookup_insert_ne.
Qed.

Lemma set_varref_gathers_specifications_witness :
  ∃ t', variables (set_varref_each p_tokens "Generator" "p"
                     [(true, "fixed"); (false, "extendable"); (true, "committable")]
                     one_component) = Some t'
        ∧ t' !! ("Generator", "p")
          = Some (true, fold_left (λ acc call, acc +:+ ", " +:+ call.2)
                          [(false, "extendable"); (true, "committable")] "fixed")
        ∧ ∀ key, key ≠ ("Generator", "p") → t' !! key = (∅ : reftable) !! key.
Proof.
  apply (set_varref_gathers_specifications p_tokens "Generator" "p" true "fixed"
           [(false, "extendable"); (true, "committable")] one_component ∅).
  - reflexivity.
  - reflexivity.
  - reflexivity.
  - repeat constructor; discriminate.
Defined.

(** ** Reading references back *)

Lemma assoc_set_assoc {V} (name : string) (v : V) (l : list (string * V)) :
  Pd.assoc name (Pd.set_assoc name v l) = Some v.
Proof.
  induction l as [|[k w] l IH]; simpl.
  - by rewrite String.eqb_refl.
  - destruct (String.eqb k name) eqn:Hk; simpl; by rewrite Hk.
Qed.

Lemma assoc_drop_column {V} (l : list (string * V)) (name : string) :
  Pd.assoc name (filter (λ col : string * V, col.1 ≠ name) l) = None.
Proof.
  induction l as [|[k w] l IH]; simpl; [done |].
  rewrite filter_cons. case_decide as Hk; simpl in *; [|done].
  apply String.eqb_neq in Hk. by rewrite Hk.
Qed.

Lemma fetch_pop (flag : bool) (c name : string) (st st' : state) (p : pandas) :
  fetch flag c name true st = (Return p, st') →
  fetch flag c name false st = (Return p, st)
  ∧ fetch flag c name false st' = (Raise (KeyError name), st')
  ∧ variables st' = variables st ∧ constraints st' = constraints st.
Proof.
  unfold fetch, n_pnl, n_df, bind, get, modify, ret, raise.
  destruct flag; simpl.
  - destruct (pnl st !! c) as [d|] eqn:Hd; simpl; [|done].
    destruct (d !! name) as [v|] eqn:Hv; simpl; [|done].
    intros [= <- <-]. simpl. split; [done |].
    rewrite lookup_insert_eq. simpl. by rewrite lookup_delete_eq.
  - destruct (df st !! c) as [s|] eqn:Hs; simpl; [|done].
    destruct (Pd.assoc name (fr_columns s)) as [cells|] eqn:Hcells; simpl; [|done].
    intros [= <- <-]. simpl. split; [done |].
    rewrite lookup_insert_eq. simpl. by rewrite assoc_drop_column.
Qed.

(** X10: [get_var] and [get_con] with [pop] return what they return without
    it, and take the references out of the storage: asking again raises
    [KeyError] for the stored name, while the entry of the reference table is
    still there. *)
Theorem get_with_pop_consumes (c attr : string) (st st' : state) (p : pandas) :
  (get_var c attr true st = (Return p, st') →
     get_var c attr false st = (Return p, st)
     ∧ get_var c attr false st' = (Raise (KeyError (attr +:+ var_ref_suffix)), st')
     ∧ variables st' = variables st) ∧
  (get_con c attr true st = (Return p, st') →
     get_con c attr false st = (Return p, st)
     ∧ get_con c attr false st' = (Raise (KeyError (attr +:+ con_ref_suffix)), st')
     ∧ constraints st' = constraints st).
Proof.
  split.
  - unfold get_var, n_variables, bind, get, ret, raise. simpl.
    destruct (variables st) as [t|] eqn:Ht; simpl; [|done].
    destruct (t !! (c, attr)) as [[flag spec]|] eqn:Hkey; simpl; [|done].
    intros Hpop. apply fetch_pop in Hpop as (H1 & H2 & Hv & _).
    rewrite Hv, Ht. simpl. by rewrite Hkey.
  - unfold get_con, n_constraints, bind, get, ret, raise. simpl.
    destruct (constraints st) as [t|] eqn:Ht; simpl; [|done].
    destruct (t !! (c, attr)) as [[flag spec]|] eqn:Hkey; simpl; [|done].
    intros Hpop. apply fetch_pop in Hpop as (H1 & H2 & _ & Hc).
    rewrite Hc, Ht. simpl. by rewrite Hkey.
Qed.

Lemma get_with_pop_consumes_witness :
  get_var "Generator" "p" false
    (set_varref p_tokens "Generator" "p" true "" one_component).2
  = (Return (PFrame (mkframe ["t0"; "t1"]
                       [("g0", [Some "x0"; Some "x2"]);
                        ("g1", [Some "x1"; Some "x3"])])),
     (set_varref p_tokens "Generator" "p" true "" one_component).2)
  ∧ get_var "Generator" "p" false
      (get_var "Generator" "p" true
         (set_varref p_tokens "Generator" "p" true "" one_component).2).2
    = (Raise (KeyError ("p" +:+ var_ref_suffix)),
       (get_var "Generator" "p" true
          (set_varref p_tokens "Generator" "p" true "" one_component).2).2)
  ∧ variables (get_var "Generator" "p" true
                 (set_varref p_tokens "Generator" "p" true "" one_component).2).2
    = variables (set_varref p_tokens "Generator" "p" true "" one_component).2.
Proof.
  apply (proj1 (get_with_pop_consumes "Generator" "p"
                  (set_varref p_tokens "Generator" "p" true "" one_component).2
                  (get_var "Generator" "p" true
                     (set_varref p_tokens "Generator" "p" true "" one_component).2).2
                  (PFrame (mkframe ["t0"; "t1"]
                             [("g0", [Some "x0"; Some "x2"]);
                              ("g1", [Some "x1"; Some "x3"])])))).
  vm_compute. reflexivity.
Defined.

(** ** clear_references, again *)

Lemma clear_keys_idempotent (d : gmap string pandas) :
  clear_keys (clear_keys d) = clear_keys d.
Proof.
  apply map_eq. intros k. rewrite !clear_keys_lookup.
  by destruct (is_reference_key k).
Qed.

(** X11: [clear_references] deletes both reference tables, so that a later
    registration raises [AttributeError]; clearing twice is clearing once;
    and it leaves the static tables, where the references of attributes that
    do not vary in time are stored, as they are, together with the counters
    and the sinks. *)
Theorem clear_references_once (st : state) :
  let st1 := (clear_references st).2 in
  (clear_references st1).2 = st1 ∧
  variables st1 = None ∧ constraints st1 = None ∧
  df st1 = df st ∧
  xCounter st1 = xCounter st ∧ cCounter st1 = cCounter st ∧
  bounds_f st1 = bounds_f st ∧ constraints_f st1 = constraints_f st ∧
  (∀ v c attr pnl_ spec, Pd.empty v = Return false →
     set_varref v c attr pnl_ spec st1 = (Raise (AttributeError "variables"), st1)
     ∧ set_conref v c attr pnl_ spec st1
       = (Raise (AttributeError "constraints"), st1)).
Proof.
  assert (∀ s, pnl (clear_references s).2 = clear_keys <$> pnl s
               ∧ variables (clear_references s).2 = None
               ∧ constraints (clear_references s).2 = None
               ∧ df (clear_references s).2 = df s
               ∧ xCounter (clear_references s).2 = xCounter s
               ∧ cCounter (clear_references s).2 = cCounter s
               ∧ bounds_f (clear_references s).2 = bounds_f s
               ∧ constraints_f (clear_references s).2 = constraints_f s
               ∧ basis_fn (clear_references s).2 = basis_fn s
               ∧ effects (clear_references s).2 = effects s) as Hfields.
  { intros s. unfold clear_references, iterate_components, bind, modify; simpl.
    destruct (variables s) eqn:Hv; simpl; destruct (constraints s) eqn:Hc; simpl;
      rewrite ?Hv, ?Hc; done. }
  intros st1. unfold st1.
  destruct (Hfields st) as (Hp & Hv & Hc & Hd & Hx & Hcc & Hb & Hcf & Hbf & He).
  split; [|repeat (split; [done |])].
  - destruct (Hfields (clear_references st).2)
      as (Hp' & Hv' & Hc' & Hd' & Hx' & Hcc' & Hb' & Hcf' & Hbf' & He').
    destruct ((clear_references (clear_references st).2).2) as [] eqn:E2.
    destruct ((clear_references st).2) as [] eqn:E1. simpl in *.
    subst. f_equal.
    rewrite <- map_fmap_compose. apply map_fmap_ext.
    intros ? d _. apply clear_keys_idempotent.
  - intros v c attr pnl_ spec Hempty.
    remember (clear_references st).2 as s1 eqn:Hs1. clear Hs1.
    unfold set_varref, set_conref, n_variables, n_constraints, bind, lift, get, raise.
    rewrite Hempty. simpl. by rewrite Hv, Hc.
Qed.

Lemma clear_references_once_witness :
  set_varref p_tokens "Generator" "p" true "" (clear_references one_component).2
  = (Raise (AttributeError "variables"), (clear_references one_component).2)
  ∧ set_conref p_tokens "Generator" "p" true "" (clear_references one_component).2
    = (Raise (AttributeError "constraints"), (clear_references one_component).2).
Proof.
  apply (proj2 (proj2 (proj2 (proj2 (proj2 (proj2 (proj2 (proj2
           (clear_references_once one_component))))))))).
  reflexivity.
Defined.

(** A reference stored in the static table is still there after
    [clear_references]. *)
Example clear_references_keeps_static_column :
  let st1 := (set_varref (VSeries ["g1"] (ObjArr [1] ["x9"])) "Generator" "p_nom"
                false "" one_component).2 in
  df (clear_references st1).2 !! "Generator"
  = Some (mkframe ["g0"; "g1"] [("p_nom_varref", [None; Some "x9"])]).
Proof. vm_compute. reflexivity. Qed.

Lemma _add_reference_then_fetch v c attr suffix pnl_ st st' :
  _add_reference v c attr suffix pnl_ st = (Return (), st') →
  ∃ p, fetch pnl_ c (attr +:+ suffix) false st' = (Return p, st').
Proof.
  unfold _add_reference, fetch, pnl_store, n_pnl, n_df, bind, get, modify, ret,
    raise, lift.
  destruct st as [xc cc bf cf vs cs pn dfs bas eff].
  destruct pnl_; simpl.
  - destruct (pn !! c) as [d|] eqn:Hd; simpl; [|done].
    destruct (d !! (attr +:+ suffix)) as [target|] eqn:Ht; simpl.
    + destruct v as [| | | | |i k a|]; try done.
      destruct target as [|f]; try done. simpl.
      destruct a as [s cells| |]; simpl; try done.
      rewrite Hd. simpl. rewrite ?lookup_insert_eq. simpl.
      destruct (dfs !! c) as [sf|]; simpl; [|done].
      destruct (_ =? _)%nat; simpl.
      * rewrite ?lookup_insert_eq. simpl.
        intros [= <-]. simpl. rewrite ?lookup_insert_eq. simpl.
        rewrite ?lookup_insert_eq. eauto.
      * intros [= <-]. simpl. rewrite ?lookup_insert_eq. simpl.
        rewrite ?lookup_insert_eq. eauto.
    + destruct (Pd.of_value v) as [src| |]; simpl; try done.
      rewrite Hd. simpl. rewrite ?lookup_insert_eq. simpl.
      destruct src as [|f]; try done. simpl.
      destruct (dfs !! c) as [sf|]; simpl; [|done].
      destruct (_ =? _)%nat; simpl.
      * rewrite ?lookup_insert_eq. simpl.
        intros [= <-]. simpl. rewrite ?lookup_insert_eq. simpl.
        rewrite ?lookup_insert_eq. eauto.
      * intros [= <-]. simpl. rewrite ?lookup_insert_eq. simpl.
        rewrite ?lookup_insert_eq. eauto.
  - destruct (dfs !! c) as [sf|] eqn:Hsf; simpl; [|done].
    destruct v as [| | | |i a|i k a|]; try done;
      [|by destruct (list_find _ _) as [[? ?]|]].
    destruct a as [s cells| |]; simpl; unfold Pd.loc_set;
      (destruct (list_find _ i) as [[? ?]|]; [done |]); simpl; try done.
    intros [= <-]. simpl. rewrite ?lookup_insert_eq. simpl.
    rewrite assoc_set_assoc. eauto.
Qed.

Lemma merged_entry_flag (old : option (bool * string)) (flag : bool) (spec : string) :
  (∀ f s0, old = Some (f, s0) → spec = "" ∨ f = flag) →
  (merged_entry old flag spec).1 = flag.
Proof.
  intros H. unfold merged_entry. destruct old as [[f s0]|]; [|done].
  destruct (String.eqb spec "") eqn:Hs; [done |]. simpl.
  destruct (H f s0 eq_refl) as [-> | ->]; done.
Qed.

(** X12: a registration that returns can be read back.  When [set_varref]
    returns for a non-empty token container, and the key was not registered
    before with the other flag and extended now by a non-empty
    specification, [get_var] on the resulting network returns a value and
    leaves the network as it is; likewise for [set_conref] and [get_con]. *)
Theorem set_then_get_returns (v : value) (c attr : string) (flag : bool)
    (spec : string) (st st' : state) :
  Pd.empty v = Return false →
  (set_varref v c attr flag spec st = (Return (), st') →
   (∀ t f s0, variables st = Some t → t !! (c, attr) = Some (f, s0) →
      spec = "" ∨ f = flag) →
   ∃ p, get_var c attr false st' = (Return p, st'))
  ∧ (set_conref v c attr flag spec st = (Return (), st') →
     (∀ t f s0, constraints st = Some t → t !! (c, attr) = Some (f, s0) →
        spec = "" ∨ f = flag) →
     ∃ p, get_con c attr false st' = (Return p, st')).
Proof.
  intros He. split; intros Hset Hflag.
  - destruct (variables st) as [t|] eqn:Ht.
    + rewrite (set_varref_nonempty _ _ _ _ _ _ t) in Hset by done.
      pose proof (_add_reference_preserves variables v c attr var_ref_suffix flag
                    (λ _ _, eq_refl) (λ _ _, eq_refl)
                    (set_variables
                       (Some (<[(c, attr) := merged_entry (t !! (c, attr)) flag spec]> t))
                       st)) as Hvars.
      rewrite Hset in Hvars. simpl in Hvars.
      apply _add_reference_then_fetch in Hset as [p Hp]. exists p.
      unfold get_var, n_variables, bind, get, ret. rewrite Hvars. simpl.
      rewrite lookup_insert_eq.
      pose proof (merged_entry_flag (t !! (c, attr)) flag spec
                    (λ f s0, Hflag t f s0 eq_refl)) as Hm.
      destruct (merged_entry _ _ _) as [f' s']. simpl in Hm. by subst f'.
    + unfold set_varref, n_variables, bind, lift, get, raise in Hset.
      rewrite He in Hset. simpl in Hset. by rewrite Ht in Hset.
  - destruct (constraints st) as [t|] eqn:Ht.
    + rewrite (set_conref_nonempty _ _ _ _ _ _ t) in Hset by done.
      pose proof (_add_reference_preserves constraints v c attr con_ref_suffix flag
                    (λ _ _, eq_refl) (λ _ _, eq_refl)
                    (set_constraints
                       (Some (<[(c, attr) := merged_entry (t !! (c, attr)) flag spec]> t))
                       st)) as Hcons.
      rewrite Hset in Hcons. simpl in Hcons.
      apply _add_reference_then_fetch in Hset as [p Hp]. exists p.
      unfold get_con, n_constraints, bind, get, ret. rewrite Hcons. simpl.
      rewrite lookup_insert_eq.
      pose proof (merged_entry_flag (t !! (c, attr)) flag spec
                    (λ f s0, Hflag t f s0 eq_refl)) as Hm.
      destruct (merged_entry _ _ _) as [f' s']. simpl in Hm. by subst f'.
    + unfold set_conref, n_constraints, bind, lift, get, raise in Hset.
      rewrite He in Hset. simpl in Hset. by rewrite Ht in Hset.
Qed.

Lemma set_then_get_returns_witness :
  ∃ p, get_var "Generator" "p" false
         (set_varref p_tokens "Generator" "p" true "fixed" one_component).2
       = (Return p, (set_varref p_tokens "Generator" "p" true "fixed" one_component).2).
Proof.
  apply (proj1 (set_then_get_returns p_tokens "Generator" "p" true "fixed"
                  one_component
                  (set_varref p_tokens "Generator" "p" true "fixed" one_component).2
                  eq_refl)).
  - vm_compute. reflexivity.
  - intros t f s0 [= <-]. discriminate.
Defined.

(** ** The solver readers: options, basis file, header *)

(** X13: the kind of [solver_options] is fixed by the solver.  A non-empty
    dictionary makes [run_and_read_cbc] and [run_and_read_glpk] raise
    [TypeError] before any command is run, cbc leaving the network as it is
    and glpk having set [basis_fn] already; a string makes
    [run_and_read_gurobi] raise before the model is optimised, at the
    assignment of the log file when there is one and at the iteration over the
    items after the reading of the problem otherwise. *)
Theorem solver_options_of_the_wrong_kind
    (pd_read_csv pd_read_fwf : list string → outcome (list (string * datum * datum)))
    (Status : list (string * Z)) (w : world) (m : gurobi_model)
    (problem_fn solution_fn : string) (solver_logfile : option string)
    (keep_files : bool) (warmstart : option string) (store_basis : bool)
    (st : state) :
  (∀ kv l,
     run_and_read_cbc pd_read_csv w problem_fn solution_fn solver_logfile
       (Some (OptDict (kv :: l))) keep_files warmstart store_basis st
     = (Raise (TypeError "can only concatenate str to str"), st))
  ∧ (∀ kv l,
       run_and_read_glpk pd_read_fwf w problem_fn solution_fn solver_logfile
         (Some (OptDict (kv :: l))) keep_files warmstart store_basis st
       = (Raise (TypeError "can only concatenate str to str"),
          if store_basis
          then set_basis_fn (Some (Str.replace ".sol" ".bas" solution_fn)) st
          else st))
  ∧ (∀ s,
       run_and_read_gurobi Status m problem_fn solution_fn solver_logfile
         (Some (OptString s)) keep_files warmstart store_basis st
       = match solver_logfile with
         | Some _ =>
             (Raise (TypeError "'str' object does not support item assignment"), st)
         | None =>
             (Raise (AttributeError "items"),
              emit (GurobiRead problem_fn) (emit (LoggingDisable 50) st))
         end).
Proof.
  split; [|split].
  - intros kv l. unfold run_and_read_cbc, bind, lift.
    by destruct (given warmstart).
  - intros kv l. unfold run_and_read_glpk, bind, lift, modify, ret.
    by destruct solver_logfile, (given warmstart), store_basis.
  - intros s. unfold run_and_read_gurobi, bind, lift, modify, ret, raise.
    by destruct solver_logfile.
Qed.

Lemma replace_go_absent (old new s : string) :
  Str.contains old s = false → Str.replace_go old new 0 s = s.
Proof.
  induction s as [|c s IH]; [done |].
  cbn [Str.contains]. intros [Hp Hs]%orb_false_iff.
  cbn [Str.replace_go]. rewrite Hp. by rewrite IH.
Qed.

Lemma replace_absent (old new s : string) :
  Str.contains old s = false → Str.replace old new s = s.
Proof.
  intros H. destruct old as [|c old]; [by destruct s |].
  by apply replace_go_absent.
Qed.

Lemma prefix_sol_boundary (r : string) :
  r ≠ "" → String.prefix ".sol" r = false →
  String.prefix ".sol" (r +:+ ".sol") = false.
Proof.
  intros Hr H.
  destruct r as [|c1 [|c2 [|c3 [|c4 r]]]]; [done | | | |];
    rewrite ?string_app_cons; cbn [String.prefix String.append] in H |- *;
    repeat match goal with
           | |- context [Ascii.ascii_dec ?a ?b] =>
               destruct (Ascii.ascii_dec a b) as [<- | ?]; try done
           | H : context [Ascii.ascii_dec ?a ?b] |- _ =>
               destruct (Ascii.ascii_dec a b) as [<- | ?]; try done
           end.
  by destruct r.
Qed.

Lemma replace_sol_suffix (stem : string) :
  Str.contains ".sol" stem = false →
  Str.replace ".sol" ".bas" (stem +:+ ".sol") = stem +:+ ".bas".
Proof.
  unfold Str.replace.
  induction stem as [|c stem IH]; [done |].
  cbn [Str.contains]. intros [Hp Hs]%orb_false_iff.
  rewrite !string_app_cons. cbn [Str.replace_go].
  rewrite <- string_app_cons, prefix_sol_boundary by done.
  by rewrite IH.
Qed.

Lemma run_and_read_cbc_basis pd_read_csv w problem_fn solution_fn solver_logfile
    solver_options keep_files warmstart store_basis st :
  (∀ kv l, solver_options ≠ Some (OptDict (kv :: l))) →
  basis_fn (run_and_read_cbc pd_read_csv w problem_fn solution_fn solver_logfile
              solver_options keep_files warmstart store_basis st).2
  = if store_basis then Some (Str.replace ".sol" ".bas" solution_fn)
    else basis_fn st.
Proof.
  intros Hopts. unfold run_and_read_cbc.
  destruct solver_options as [[?|[|kv l]]|]; try (by destruct (Hopts kv l));
    destruct warmstart as [[|??]|], store_basis, solver_logfile;
    unfold open_file, remove_files, bind, lift, modify, ret, raise; simpl;
    (destruct (solution_file w) as [lines|]; [|done]); simpl;
    (destruct (Str.startswith _ _);
     [destruct (Float.parse _); [|done]; simpl;
      destruct (pd_read_csv lines); [|done..]; simpl; by destruct keep_files
     |by destruct (Str.contains _ _)]).
Qed.

Lemma run_and_read_glpk_basis pd_read_fwf w problem_fn solution_fn solver_logfile
    solver_options keep_files warmstart store_basis st :
  basis_fn (run_and_read_glpk pd_read_fwf w problem_fn solution_fn solver_logfile
              solver_options keep_files warmstart store_basis st).2
  = if store_basis then Some (Str.replace ".sol" ".bas" solution_fn)
    else basis_fn st.
Proof.
  unfold run_and_read_glpk.
  destruct solver_options as [[?|[|kv l]]|];
    destruct warmstart as [[|??]|], store_basis, solver_logfile;
    unfold open_file, remove_files, bind, lift, modify, ret, raise; simpl;
    try done;
    (destruct (solution_file w) as [lines|]; [|done]); simpl;
    (destruct (Glpk.read_info lines) as [[info data]|]; [|done]); simpl;
    (destruct (Glpk.field "Status" info) as [[status|]| |]; [|done..]); simpl;
    (destruct (Glpk.field "Objective" info) as [[objective|]| |]; [|done..]); simpl;
    (destruct (Glpk.objective objective); [|done..]); simpl;
    (destruct (String.eqb _ "optimal"); [|done]); simpl;
    (destruct (pd_read_fwf data); [|done..]); simpl;
    (destruct (Glpk.astype_float _); [|done..]); simpl;
    by destruct keep_files.
Qed.

Lemma run_and_read_gurobi_basis Status m problem_fn solution_fn solver_logfile
    solver_options keep_files warmstart store_basis st :
  (∀ s, solver_options ≠ Some (OptString s)) →
  basis_fn (run_and_read_gurobi Status m problem_fn solution_fn solver_logfile
              solver_options keep_files warmstart store_basis st).2
  = if store_basis
    then if g_write_fails m then None
         else Some (Str.replace ".sol" ".bas" solution_fn)
    else basis_fn st.
Proof.
  assert (∀ (l : list (string * string)) s,
            basis_fn (fold_left (λ st kv, emit (GurobiSetParam kv.1 kv.2) st) l s)
            = basis_fn s) as Hfold.
  { induction l as [|kv l IH]; intros s; simpl; [done |]. by rewrite IH. }
  intros Hopts. unfold run_and_read_gurobi.
  destruct solver_options as [[s|items]|]; [by destruct (Hopts s) | |];
    destruct solver_logfile, warmstart as [[|??]|], store_basis,
      (g_write_fails m), keep_files;
    unfold bind, lift, modify, ret, raise; simpl;
    (destruct (statusmap Status !! g_status m) as [status|];
     [destruct (negb (String.eqb status "optimal"))|]);
    simpl; rewrite ?Hfold; reflexivity.
Qed.

(** X14: where the basis goes.  With [store_basis] the three readers set
    [basis_fn] to the name of the solution file with every [.sol] replaced by
    [.bas], whatever happens afterwards; only gurobi takes it away again,
    when the writing fails.  Without [store_basis] the attribute keeps its
    old value.  For [stem.sol] the name is [stem.bas]; for a solution file
    whose name has no [.sol] it is the name of the solution file itself. *)
Theorem basis_file_name
    (pd_read_csv pd_read_fwf : list string → outcome (list (string * datum * datum)))
    (Status : list (string * Z)) (w : world) (m : gurobi_model)
    (problem_fn solution_fn : string) (solver_logfile : option string)
    (solver_options : option options) (keep_files : bool)
    (warmstart : option string) (store_basis : bool) (st : state) :
  ((∀ kv l, solver_options ≠ Some (OptDict (kv :: l))) →
     basis_fn (run_and_read_cbc pd_read_csv w problem_fn solution_fn
                 solver_logfile solver_options keep_files warmstart
                 store_basis st).2
     = if store_basis then Some (Str.replace ".sol" ".bas" solution_fn)
       else basis_fn st)
  ∧ basis_fn (run_and_read_glpk pd_read_fwf w problem_fn solution_fn
                solver_logfile solver_options keep_files warmstart
                store_basis st).2
    = (if store_basis then Some (Str.replace ".sol" ".bas" solution_fn)
       else basis_fn st)
  ∧ ((∀ s, solver_options ≠ Some (OptString s)) →
       basis_fn (run_and_read_gurobi Status m problem_fn solution_fn
                   solver_logfile solver_options keep_files warmstart
                   store_basis st).2
       = if store_basis
         then if g_write_fails m then None
              else Some (Str.replace ".sol" ".bas" solution_fn)
         else basis_fn st)
  ∧ (∀ stem, Str.contains ".sol" stem = false →
       Str.replace ".sol" ".bas" (stem +:+ ".sol") = stem +:+ ".bas")
  ∧ (Str.contains ".sol" solution_fn = false →
       Str.replace ".sol" ".bas" solution_fn = solution_fn).
Proof.
  split; [apply run_and_read_cbc_basis |].
  split; [apply run_and_read_glpk_basis |].
  split; [apply run_and_read_gurobi_basis |].
  split; [apply replace_sol_suffix | apply replace_absent].
Qed.

Lemma basis_file_name_witness :
  Str.replace ".sol" ".bas" ("problem" +:+ ".sol") = "problem" +:+ ".bas".
Proof.
  apply (proj1 (proj2 (proj2 (proj2
           (basis_file_name two_rows two_rows GRB_Status cbc_optimal
              (mkgurobi 2 [] [] zero false) "problem.lp" "problem.sol"
              None None true None true empty_state))))).
  reflexivity.
Defined.

Lemma read_info_split (head data : list string) :
  Str.nl ∉ head →
  Glpk.read_info (head ++ Str.nl :: data) = Some (Str.join head +:+ Str.nl, data).
Proof.
  induction head as [|line head IH]; intros Hhead.
  - reflexivity.
  - apply not_elem_of_cons in Hhead as [Hline Hhead].
    simpl. apply not_eq_sym, String.eqb_neq in Hline. rewrite Hline.
    rewrite (IH Hhead). simpl. by rewrite string_app_assoc.
Qed.

Lemma read_info_none (lines : list string) :
  Str.nl ∉ lines → Glpk.read_info lines = None.
Proof.
  induction lines as [|line lines IH]; intros Hlines; [done |].
  apply not_elem_of_cons in Hlines as [Hline Hlines].
  simpl. apply not_eq_sym, String.eqb_neq in Hline. rewrite Hline.
  by rewrite (IH Hlines).
Qed.

(** X15: [run_and_read_glpk] reads the header of the solution file up to and
    including the first empty line, and hands the lines after it to pandas.
    On a solution file without an empty line the loop that gathers the
    header does not end: the call neither returns nor raises, and the
    command of the solver is the only effect. *)
Theorem run_and_read_glpk_header
    (pd_read_fwf : list string → outcome (list (string * datum * datum)))
    (w : world) (lines : list string) (problem_fn solution_fn : string)
    (solver_logfile : option string) (solver_options : option options)
    (keep_files : bool) (warmstart : option string) (store_basis : bool)
    (st : state) :
  solution_file w = Some lines →
  (∀ kv l, solver_options ≠ Some (OptDict (kv :: l))) →
  (Str.nl ∉ lines →
     (run_and_read_glpk pd_read_fwf w problem_fn solution_fn solver_logfile
        solver_options keep_files warmstart store_basis st).1 = Loops
     ∧ ∃ command,
         effects (run_and_read_glpk pd_read_fwf w problem_fn solution_fn
                    solver_logfile solver_options keep_files warmstart
                    store_basis st).2
         = effects st ++ [OsSystem command; FileRead solution_fn])
  ∧ (∀ head data, lines = head ++ Str.nl :: data → Str.nl ∉ head →
       ∃ st1,
         run_and_read_glpk pd_read_fwf w problem_fn solution_fn solver_logfile
           solver_options keep_files warmstart store_basis st
         = glpk_read pd_read_fwf w problem_fn solution_fn keep_files st1
         ∧ Glpk.read_info lines = Some (Str.join head +:+ Str.nl, data)).
Proof.
  intros Hfile Hopts. split.
  - intros Hnl%read_info_none. unfold run_and_read_glpk.
    destruct solver_options as [[?|[|kv l]]|]; try (by destruct (Hopts kv l));
      destruct warmstart as [[|??]|], store_basis, solver_logfile;
      unfold open_file, bind, lift, modify, ret, raise; simpl;
      rewrite Hfile; simpl; rewrite Hnl; simpl;
      (split; [done |]); eexists; rewrite <- app_assoc; reflexivity.
  - intros head data -> Hhead. rewrite (read_info_split _ _ Hhead).
    unfold run_and_read_glpk.
    destruct solver_options as [[?|[|kv l]]|]; try (by destruct (Hopts kv l));
      destruct warmstart as [[|??]|], store_basis, solver_logfile;
      eexists; (split; [reflexivity | done]).
Qed.

Lemma run_and_read_glpk_header_witness :
  (run_and_read_glpk two_rows (mkworld "" (Some ["Problem:    " +:+ Str.nl]))
     "problem.lp" "problem.sol" None None true None true empty_state).1 = Loops.
Proof.
  apply (proj1 (run_and_read_glpk_header two_rows
                  (mkworld "" (Some ["Problem:    " +:+ Str.nl]))
                  ["Problem:    " +:+ Str.nl] "problem.lp" "problem.sol"
                  None None true None true empty_state eq_refl
                  ltac:(intros kv l; discriminate))).
  intros [H | H%elem_of_nil]%elem_of_cons; [discriminate | done].
Defined.

(** ** The solver readers: the solution that is handed out *)






Lemma filter_partition {A} (b : A → bool) (l : list A) :
  filter (λ a, b a = true) l ++ filter (λ a, b a = false) l ≡ₚ l.
Proof.
  induction l as [|a l IH]; [done |].
  rewrite !filter_cons. destruct (b a) eqn:Hb.
  - rewrite decide_True, decide_False by done. simpl. by rewrite IH.
  - rewrite decide_False, decide_True by done.
    rewrite <- Permutation_middle. by rewrite IH.
Qed.

Lemma cbc_read_solution pd_read_csv w problem_fn solution_fn keep_files st r :
  (cbc_read pd_read_csv w problem_fn solution_fn keep_files st).1 = Return r →
  ∃ lines sol values duals objective,
    solution_file w = Some lines ∧ pd_read_csv lines = Return sol
    ∧ r = ("optimal", "optimal", Some values, Some duals, Some objective)
    ∧ Str.startswith "Optimal - objective value" (hd "" lines) = true
    ∧ Float.parse (Str.drop 26 (hd "" lines)) = Some objective
    ∧ Forall (λ kd : string * datum, first_char_is "x" kd.1 = true) values
    ∧ Forall (λ kd : string * datum, first_char_is "x" kd.1 = false) duals
    ∧ map fst values ++ map fst duals
      ≡ₚ map (λ row : string * datum * datum, row.1.1) sol.
Proof.
  unfold cbc_read, open_file, remove_files, bind, lift, modify, ret, raise.
  destruct (solution_file w) as [lines|]; [|done]. simpl.
  destruct (Str.startswith _ _) eqn:Hstart.
  2: { by destruct (Str.contains _ _). }
  destruct (Float.parse _) as [objective|] eqn:Hob; [|done]. simpl.
  destruct (pd_read_csv lines) as [sol| |] eqn:Hsol; [|done..]. simpl.
  intros Hret.
  exists lines, sol,
    (map (λ row : string * datum * datum, (row.1.1, row.1.2))
       (filter (λ row : string * datum * datum, first_char_is "x" row.1.1 = true) sol)),
    (map (λ row : string * datum * datum, (row.1.1, row.2))
       (filter (λ row : string * datum * datum, first_char_is "x" row.1.1 = false) sol)),
    objective.
  split; [done |]. split; [done |].
  split; [destruct keep_files; simpl in Hret; by injection Hret as <- |].
  split; [done |]. split; [exact Hob |]. split; [|split].
  - apply Forall_map, Forall_forall. by intros row [Hrow _]%list_elem_of_filter.
  - apply Forall_map, Forall_forall. by intros row [Hrow _]%list_elem_of_filter.
  - rewrite !map_map. simpl. rewrite <- map_app.
    apply Permutation_map, filter_partition.
Qed.

(** X17: the solution that [run_and_read_cbc] hands out.  The call returns
    for an optimal solution only: the first line of the solution file then
    begins with [Optimal - objective value] and the objective is the number
    after it.  Every row that pandas reads from the file is handed out once:
    the rows whose label begins with x as variable values, all the others as
    duals, whatever their label is. *)
Theorem run_and_read_cbc_solution
    (pd_read_csv : list string → outcome (list (string * datum * datum)))
    (w : world) (problem_fn solution_fn : string)
    (solver_logfile : option string) (solver_options : option options)
    (keep_files : bool) (warmstart : option string) (store_basis : bool)
    (st : state) (r : result) :
  (run_and_read_cbc pd_read_csv w problem_fn solution_fn solver_logfile
     solver_options keep_files warmstart store_basis st).1 = Return r →
  ∃ lines sol values duals objective,
    solution_file w = Some lines ∧ pd_read_csv lines = Return sol
    ∧ r = ("optimal", "optimal", Some values, Some duals, Some objective)
    ∧ Str.startswith "Optimal - objective value" (hd "" lines) = true
    ∧ Float.parse (Str.drop 26 (hd "" lines)) = Some objective
    ∧ Forall (λ kd : string * datum, first_char_is "x" kd.1 = true) values
    ∧ Forall (λ kd : string * datum, first_char_is "x" kd.1 = false) duals
    ∧ map fst values ++ map fst duals
      ≡ₚ map (λ row : string * datum * datum, row.1.1) sol.
Proof.
  destruct (run_and_read_cbc_read pd_read_csv w problem_fn solution_fn
              solver_logfile solver_options keep_files warmstart store_basis st)
    as (st1 & es1 & [-> | [e ->]] & _ & _); [|done].
  apply cbc_read_solution.
Qed.

Lemma run_and_read_cbc_solution_witness :
  ∃ lines sol values duals objective,
    solution_file cbc_optimal = Some lines ∧ two_rows lines = Return sol
    ∧ ("optimal", "optimal", Some [("x0", DNum (mkfloat 15 (-1)))],
       Some [("c0", DNum (mkfloat 5 (-1)))], Some (mkfloat 420 (-1)))
      = ("optimal", "optimal", Some values, Some duals, Some objective)
    ∧ Str.startswith "Optimal - objective value" (hd "" lines) = true
    ∧ Float.parse (Str.drop 26 (hd "" lines)) = Some objective
    ∧ Forall (λ kd : string * datum, first_char_is "x" kd.1 = true) values
    ∧ Forall (λ kd : string * datum, first_char_is "x" kd.1 = false) duals
    ∧ map fst values ++ map fst duals
      ≡ₚ map (λ row : string * datum * datum, row.1.1) sol.
Proof.
  apply (run_and_read_cbc_solution two_rows cbc_optimal "problem.lp"
           "problem.sol" None None true None true empty_state).
  reflexivity.
Defined.

Lemma statusmap_fold_sound (l : list (string * Z)) (acc : gmap Z string) z s :
  fold_left (λ (m : gmap Z string) (s : string * Z),
               if Str.startswith "_" s.1 then m else <[s.2 := Str.lower s.1]> m)
    l acc !! z = Some s →
  acc !! z = Some s
  ∨ ∃ name, (name, z) ∈ l ∧ Str.startswith "_" name = false ∧ s = Str.lower name.
Proof.
  revert acc. induction l as [|[name code] l IH]; intros acc; simpl; [by left |].
  intros [H | (name' & Hin & Hpub & ->)]%IH.
  - destruct (Str.startswith "_" name) eqn:Hname; [by left |].
    destruct (decide (code = z)) as [-> | Hne].
    + rewrite lookup_insert_eq in H. injection H as <-.
      right. exists name. split; [apply elem_of_cons; by left | done].
    + rewrite lookup_insert_ne in H by done. by left.
  - right. exists name'. split; [apply elem_of_cons; by right | done].
Qed.

Lemma statusmap_fold_complete (l : list (string * Z)) (acc : gmap Z string) z :
  is_Some (acc !! z)
  ∨ (∃ name, (name, z) ∈ l ∧ Str.startswith "_" name = false) →
  is_Some (fold_left (λ (m : gmap Z string) (s : string * Z),
                        if Str.startswith "_" s.1 then m
                        else <[s.2 := Str.lower s.1]> m)
             l acc !! z).
Proof.
  revert acc. induction l as [|[name code] l IH]; intros acc; simpl.
  - intros [H | (name & Hin%elem_of_nil & _)]; done.
  - intros [H | (name' & Hin & Hpub)]; apply IH.
    + left. destruct (Str.startswith "_" name); [done |].
      destruct (decide (code = z)) as [-> | Hne].
      * rewrite lookup_insert_eq. by eexists.
      * by rewrite lookup_insert_ne.
    + apply elem_of_cons in Hin as [[= <- <-] | Hin].
      * left. rewrite Hpub. rewrite lookup_insert_eq. by eexists.
      * right. by exists name'.
Qed.

Lemma run_and_read_gurobi_outcome Status m problem_fn solution_fn
    solver_logfile solver_options keep_files warmstart store_basis st :
  (∀ s, solver_options ≠ Some (OptString s)) →
  (run_and_read_gurobi Status m problem_fn solution_fn solver_logfile
     solver_options keep_files warmstart store_basis st).1
  = match statusmap Status !! g_status m with
    | None => Raise (KeyError (pretty (g_status m)))
    | Some status =>
        Return (if String.eqb status "optimal"
                then (status, status,
                      Some (map (λ v : string * pyfloat, (v.1, DNum v.2)) (g_vars m)),
                      Some (map (λ c : string * pyfloat, (c.1, DNum c.2)) (g_constrs m)),
                      Some (g_objval m))
                else (status, status, None, None, None))
    end.
Proof.
  intros Hopts. unfold run_and_read_gurobi.
  destruct solver_options as [[s|items]|]; [by destruct (Hopts s) | |];
    destruct solver_logfile, warmstart as [[|??]|], store_basis,
      (g_write_fails m), keep_files;
    unfold bind, lift, modify, ret, raise; simpl;
    (destruct (statusmap Status !! g_status m) as [status|];
     [destruct (String.eqb status "optimal")|]); reflexivity.
Qed.

(** X18: the status that [run_and_read_gurobi] reports.  With options that
    are not a string, the call returns exactly when some public attribute of
    [GRB.Status] has the status code of the model as its value; the status
    and the condition are then the lower-cased name of such an attribute, a
    solution with the values, the duals and the objective of the model is
    handed out when that name is [optimal], and none otherwise.  A code that
    only private attributes have, or none, gives [KeyError]. *)
Theorem run_and_read_gurobi_status (Status : list (string * Z))
    (m : gurobi_model) (problem_fn solution_fn : string)
    (solver_logfile : option string) (solver_options : option options)
    (keep_files : bool) (warmstart : option string) (store_basis : bool)
    (st : state) :
  (∀ s, solver_options ≠ Some (OptString s)) →
  (∀ r, (run_and_read_gurobi Status m problem_fn solution_fn solver_logfile
           solver_options keep_files warmstart store_basis st).1 = Return r →
     ∃ name, (name, g_status m) ∈ Status ∧ Str.startswith "_" name = false
       ∧ r = if String.eqb (Str.lower name) "optimal"
             then (Str.lower name, Str.lower name,
                   Some (map (λ v : string * pyfloat, (v.1, DNum v.2)) (g_vars m)),
                   Some (map (λ c : string * pyfloat, (c.1, DNum c.2)) (g_constrs m)),
                   Some (g_objval m))
             else (Str.lower name, Str.lower name, None, None, None))
  ∧ ((∃ name, (name, g_status m) ∈ Status ∧ Str.startswith "_" name = false) →
       ∃ r, (run_and_read_gurobi Status m problem_fn solution_fn solver_logfile
               solver_options keep_files warmstart store_basis st).1 = Return r)
  ∧ ((∀ name, (name, g_status m) ∈ Status → Str.startswith "_" name = true) →
       (run_and_read_gurobi Status m problem_fn solution_fn solver_logfile
          solver_options keep_files warmstart store_basis st).1
       = Raise (KeyError (pretty (g_status m)))).
Proof.
  intros Hopts. rewrite run_and_read_gurobi_outcome by done.
  split; [|split].
  - intros r. destruct (statusmap Status !! g_status m) as [status|] eqn:Hs; [|done].
    intros [= <-]. apply statusmap_fold_sound in Hs as [Hs | (name & Hin & Hpub & ->)];
      [by rewrite lookup_empty in Hs |].
    by exists name.
  - intros Hname.
    destruct (statusmap_fold_complete Status ∅ (g_status m) (or_intror Hname))
      as [status Hs].
    unfold statusmap. rewrite Hs. by eexists.
  - intros Hprivate.
    destruct (statusmap Status !! g_status m) as [status|] eqn:Hs; [|done].
    apply statusmap_fold_sound in Hs as [Hs | (name & Hin & Hpub & _)];
      [by rewrite lookup_empty in Hs |].
    rewrite (Hprivate name Hin) in Hpub. done.
Qed.

Lemma run_and_read_gurobi_status_witness :
  (run_and_read_gurobi GRB_Status (mkgurobi 0 [] [] zero false)
     "problem.lp" "problem.sol" None None true None true empty_state).1
  = Raise (KeyError (pretty 0%Z)).
Proof.
  apply (proj2 (proj2 (run_and_read_gurobi_status GRB_Status
                         (mkgurobi 0 [] [] zero false) "problem.lp" "problem.sol"
                         None None true None true empty_state
                         ltac:(intros s; discriminate)))).
  intros name Hin. simpl in Hin.
  repeat (apply elem_of_cons in Hin as [Hin | Hin]; [by injection Hin as -> |]).
  by apply elem_of_nil in Hin.
Defined.
